(** * imgapi: upload validation, content-addressed dedup, job enqueueing, stats

    A shallow embedding of the image-upload service
    (app/utils/validator.py, app/main.py, app/jobs.py and
    app/utils/exifparser.py) together with the properties its design
    document states about it and further properties of the code.

    Conventions of the embedding.
    - Python [bytes] are [list byte]; Python [str] is [string] (the model
      covers the code points below 256).
    - An exception is a value of [exn] ([PyError cls] standing for an
      exception of any class the code does not name); a call that may
      raise returns [result A].
    - The SQLite tables are finite maps keyed by their primary key; a
      [with connect() as conn:] block is a transaction that commits its
      writes or, when a statement raises, leaves the tables as they were.
    - Collaborators outside the repository (PIL, the disk, the Redis queue,
      uuid4, the clock, the caption model) appear as explicit arguments. *)

From Stdlib Require Import ZArith List Bool Ascii String Lia.
From Stdlib.Strings Require Import Byte.
From Stdlib Require Import SpecFloat.
From stdpp Require Import base option list strings pretty gmap fin_maps.

Import ListNotations.
Local Open Scope string_scope.
Local Open Scope list_scope.
Local Open Scope Z_scope.

(** ** Exceptions and results *)

Inductive exn : Type :=
| HTTPException (status_code : Z) (detail : string)
| IntegrityError (what : string)
| ToolError (what : string)
| PyError (cls : string).

Inductive result (A : Type) : Type :=
| Ok (a : A)
| Raise (e : exn).

Arguments Ok {A} a.
Arguments Raise {A} e.

Definition bind {A B : Type} (r : result A) (k : A -> result B) : result B :=
  match r with
  | Ok a => k a
  | Raise e => Raise e
  end.

Notation "'try!' x ':=' r 'in' k" := (bind r (fun x => k))
  (at level 10, x name, r at level 100, k at level 200).

Definition is_ok {A : Type} (r : result A) : bool :=
  match r with Ok _ => true | Raise _ => false end.

(** ** Python string helpers *)

Module PyStr.

(** [str.lower] on one character below 256: the ASCII capitals and the
    Latin-1 capitals (C0 to DE without the multiplication sign D7) gain
    32; nothing else changes. *)
Definition lower_ascii (c : ascii) : ascii :=
  let n := N_of_ascii c in
  if ((65 <=? n) && (n <=? 90))%N
     || ((192 <=? n) && (n <=? 222) && negb (n =? 215))%N
  then ascii_of_N (n + 32) else c.

Fixpoint lower (s : string) : string :=
  match s with
  | EmptyString => EmptyString
  | String c r => String (lower_ascii c) (lower r)
  end.

(** [x or y] for an optional string: [None] and [""] are falsy. *)
Definition or_else (x : option string) (y : string) : string :=
  match x with
  | Some (String c r) => String c r
  | _ => y
  end.

Definition or_str (x y : string) : string :=
  match x with
  | EmptyString => y
  | _ => x
  end.

(** [s.split(sep)] for a one-character separator. *)
Fixpoint split_on (sep : ascii) (s : string) : list string :=
  match s with
  | EmptyString => [EmptyString]
  | String c r =>
      if Ascii.eqb c sep then EmptyString :: split_on sep r
      else match split_on sep r with
           | p :: ps => String c p :: ps
           | [] => [String c EmptyString]
           end
  end.

(** [s.rfind(c)], [None] standing for -1. *)
Fixpoint rfind_from (c : ascii) (s : string) (i : nat) (acc : option nat)
  : option nat :=
  match s with
  | EmptyString => acc
  | String d r =>
      rfind_from c r (S i) (if Ascii.eqb d c then Some i else acc)
  end.

Definition rfind (c : ascii) (s : string) : option nat :=
  rfind_from c s 0%nat None.

(** [s[i:]]. *)
Fixpoint drop_str (i : nat) (s : string) : string :=
  match i, s with
  | O, _ => s
  | S j, EmptyString => EmptyString
  | S j, String _ r => drop_str j r
  end.

(** [s.startswith(p)]. *)
Fixpoint startswith (s p : string) {struct p} : bool :=
  match p, s with
  | EmptyString, _ => true
  | String _ _, EmptyString => false
  | String a p', String b s' => Ascii.eqb a b && startswith s' p'
  end.

End PyStr.

(** ** pathlib: [PurePosixPath(p).suffix] (CPython 3.12) *)

Module Pathlib.

(** The parsed parts of a relative or absolute path: the components
    between slashes, without the empty ones and the lone dots. *)
Definition parts (p : string) : list string :=
  List.filter (fun x => negb (String.eqb x "") && negb (String.eqb x "."))
              (PyStr.split_on "/"%char p).

Definition name (p : string) : string := List.last (parts p) "".

(** [i = name.rfind('.'); name[i:] if 0 < i < len(name) - 1 else ''] *)
Definition suffix (p : string) : string :=
  let n := name p in
  match PyStr.rfind "."%char n with
  | Some i =>
      if ((0 <? i) && (S i <? String.length n))%nat
      then PyStr.drop_str i n else ""
  | None => ""
  end.

End Pathlib.

(** ** hashlib.sha256 (FIPS 180-4), on 32-bit words kept in [Z] *)

Module Hashlib.

Definition w32 (x : Z) : Z := x mod 2 ^ 32.
Definition add32 (x y : Z) : Z := w32 (x + y).
Definition rotr (n x : Z) : Z :=
  Z.lor (Z.shiftr x n) (w32 (Z.shiftl x (32 - n))).
Definition not32 (x : Z) : Z := 2 ^ 32 - 1 - x.

Definition Ch (x y z : Z) := Z.lxor (Z.land x y) (Z.land (not32 x) z).
Definition Maj (x y z : Z) :=
  Z.lxor (Z.lxor (Z.land x y) (Z.land x z)) (Z.land y z).
Definition Sigma0 (x : Z) := Z.lxor (Z.lxor (rotr 2 x) (rotr 13 x)) (rotr 22 x).
Definition Sigma1 (x : Z) := Z.lxor (Z.lxor (rotr 6 x) (rotr 11 x)) (rotr 25 x).
Definition sigma0 (x : Z) := Z.lxor (Z.lxor (rotr 7 x) (rotr 18 x)) (Z.shiftr x 3).
Definition sigma1 (x : Z) := Z.lxor (Z.lxor (rotr 17 x) (rotr 19 x)) (Z.shiftr x 10).

(** The round constants and the initial chaining value are derived the
    way the standard defines them: the first 32 bits of the fractional
    parts of the cube roots of the first 64 primes, and of the square
    roots of the first 8. *)
Definition is_prime (n : nat) : bool :=
  forallb (fun d => negb (Nat.eqb (Nat.modulo n d) 0)) (List.seq 2 (n - 2)).

Definition primes (count : nat) : list Z :=
  List.map Z.of_nat (List.firstn count (List.filter is_prime (List.seq 2 310))).

Fixpoint cube_root_bits (k : nat) (n acc : Z) : Z :=
  match k with
  | O => acc
  | S k' =>
      let c := acc + 2 ^ Z.of_nat k' in
      if c * c * c <=? n then cube_root_bits k' n c else cube_root_bits k' n acc
  end.

Definition frac_cube_root (p : Z) : Z := w32 (cube_root_bits 36 (p * 2 ^ 96) 0).
Definition frac_square_root (p : Z) : Z := w32 (Z.sqrt (p * 2 ^ 64)).

Definition K : list Z := Eval vm_compute in List.map frac_cube_root (primes 64).

(** The eight working words, also the chaining value. *)
Record state := mkState { ha : Z; hb : Z; hc : Z; hd : Z;
                          he : Z; hf : Z; hg : Z; hh : Z }.

Definition state_of_words (l : list Z) : state :=
  mkState (nth 0 l 0) (nth 1 l 0) (nth 2 l 0) (nth 3 l 0)
          (nth 4 l 0) (nth 5 l 0) (nth 6 l 0) (nth 7 l 0).

Definition H0 : state :=
  Eval vm_compute in state_of_words (List.map frac_square_root (primes 8)).

Definition byteZ (b : byte) : Z := Z.of_N (Byte.to_N b).

(** Message padding: 0x80, zeros up to 56 mod 64, the bit length on
    eight big-endian bytes. *)
Fixpoint be_bytes (n : nat) (x : Z) : list Z :=
  match n with
  | O => []
  | S m => (x / 256 ^ Z.of_nat m) mod 256 :: be_bytes m x
  end.

Definition pad (msg : list byte) : list Z :=
  let l := Z.of_nat (List.length msg) in
  let k := Z.to_nat ((55 - l) mod 64) in
  List.map byteZ msg ++ [0x80] ++ List.repeat 0 k ++ be_bytes 8 (8 * l).

Fixpoint words (fuel : nat) (bs : list Z) : list Z :=
  match fuel, bs with
  | S f, b0 :: b1 :: b2 :: b3 :: r =>
      (((b0 * 256 + b1) * 256 + b2) * 256 + b3) :: words f r
  | _, _ => []
  end.

(** The message schedule, most recent word first. *)
Fixpoint schedule (n : nat) (rev_w : list Z) : list Z :=
  match n with
  | O => rev_w
  | S m =>
      let w := add32 (add32 (sigma1 (nth 1 rev_w 0)) (nth 6 rev_w 0))
                     (add32 (sigma0 (nth 14 rev_w 0)) (nth 15 rev_w 0)) in
      schedule m (w :: rev_w)
  end.

Definition round (s : state) (kw : Z * Z) : state :=
  let '(k, w) := kw in
  let t1 := add32 (add32 (add32 (hh s) (Sigma1 (he s)))
                         (add32 (Ch (he s) (hf s) (hg s)) k)) w in
  let t2 := add32 (Sigma0 (ha s)) (Maj (ha s) (hb s) (hc s)) in
  mkState (add32 t1 t2) (ha s) (hb s) (hc s)
          (add32 (hd s) t1) (he s) (hf s) (hg s).

Definition compress (s : state) (block : list Z) : state :=
  let w := List.rev (schedule 48 (List.rev block)) in
  let r := List.fold_left round (List.combine K w) s in
  mkState (add32 (ha s) (ha r)) (add32 (hb s) (hb r))
          (add32 (hc s) (hc r)) (add32 (hd s) (hd r))
          (add32 (he s) (he r)) (add32 (hf s) (hf r))
          (add32 (hg s) (hg r)) (add32 (hh s) (hh r)).

Fixpoint blocks (fuel : nat) (ws : list Z) (s : state) : state :=
  match fuel, ws with
  | S f, _ :: _ => blocks f (List.skipn 16 ws) (compress s (List.firstn 16 ws))
  | _, _ => s
  end.

Definition sha256 (msg : list byte) : state :=
  let p := pad msg in
  let ws := words (List.length p) p in
  blocks (List.length ws) ws H0.

Definition hexdigit (x : Z) : ascii :=
  if x <? 10 then ascii_of_N (Z.to_N (48 + x)) else ascii_of_N (Z.to_N (87 + x)).

Definition hex_word (w : Z) (rest : string) : string :=
  String (hexdigit (Z.shiftr w 28 mod 16))
 (String (hexdigit (Z.shiftr w 24 mod 16))
 (String (hexdigit (Z.shiftr w 20 mod 16))
 (String (hexdigit (Z.shiftr w 16 mod 16))
 (String (hexdigit (Z.shiftr w 12 mod 16))
 (String (hexdigit (Z.shiftr w 8 mod 16))
 (String (hexdigit (Z.shiftr w 4 mod 16))
 (String (hexdigit (w mod 16)) rest))))))).

(** [hashlib.sha256(data).hexdigest()] *)
Definition hexdigest (s : state) : string :=
  hex_word (ha s) (hex_word (hb s) (hex_word (hc s) (hex_word (hd s)
 (hex_word (he s) (hex_word (hf s) (hex_word (hg s) (hex_word (hh s) ""))))))).

Definition sha256_hexdigest (msg : list byte) : string := hexdigest (sha256 msg).

(** A lower-case hexadecimal digit. *)
Definition is_hex (c : ascii) : bool :=
  existsb (Ascii.eqb c) (list_ascii_of_string "0123456789abcdef").

End Hashlib.

Definition bytes_of_string (s : string) : list byte :=
  List.map byte_of_ascii (list_ascii_of_string s).

(** ** PIL, as far as the validator uses it

    [Image.open] reads the header and gives the declared size and the
    format; [Image.verify] checks the file. Either can raise:
    [UnidentifiedImageError] or [OSError] (or a subclass of it), the two
    classes the validator handles, or an exception of another class,
    kept by the name of its class: [Image.open] raises
    [DecompressionBombError] above Pillow's own pixel limit, and the
    [verify] of a PNG raises [SyntaxError] on a bad chunk checksum. *)

Module PIL.

Inductive error : Type :=
| UnidentifiedImageError
| OSError
| OtherError (cls : string).

Record image := mkImage { size : Z * Z; format : string }.

Record decoder := mkDecoder {
  open : list byte -> error + image;
  verify : list byte -> image -> option error
}.

(** The decoder operations a run performs, in order. *)
Inductive call : Type := CallOpen | CallVerify.

End PIL.

(** ** app/utils/validator.py *)

Module Validator.

Definition ALLOWED_EXTENSIONS : gset string := {[ ".jpg"; ".jpeg"; ".png" ]}.
Definition ALLOWED_MIME : gset string := {[ "image/jpeg"; "image/png" ]}.

Definition JPEG_SIGNATURE : list byte := [xff; xd8; xff].
Definition PNG_SIGNATURE : list byte :=
  [x89; x50; x4e; x47; x0d; x0a; x1a; x0a].

Definition SIGNATURES : gmap string (list (list byte)) :=
  {[ "image/jpeg" := [JPEG_SIGNATURE]; "image/png" := [PNG_SIGNATURE] ]}.

(** [data.startswith(signature)] *)
Fixpoint bytes_startswith (data signature : list byte) {struct signature}
  : bool :=
  match signature, data with
  | [], _ => true
  | _ :: _, [] => false
  | a :: signature', b :: data' =>
      Byte.eqb a b && bytes_startswith data' signature'
  end.

Definition get_ext (filename : string) : string :=
  PyStr.lower (Pathlib.suffix (PyStr.or_str filename "")).

Definition match_signature (mime : string) (data : list byte) : bool :=
  existsb (bytes_startswith data) (default [] (SIGNATURES !! mime)).

(** The handlers of [pil_validate]: [UnidentifiedImageError] and
    [OSError] become a 400; an exception of any other class is not
    caught and leaves [pil_validate] as it is. (The clause re-raising
    [HTTPException] has nothing to catch: the guarded calls raise
    none.) *)
Definition on_pil_error (e : PIL.error) : exn :=
  match e with
  | PIL.UnidentifiedImageError | PIL.OSError =>
      HTTPException 400 "Invalid or corrupted image"
  | PIL.OtherError cls => PyError cls
  end.

(** [pil_validate], together with the decoder calls it makes. *)
Definition pil_validate_run (dec : PIL.decoder) (data : list byte)
    (max_pixels : Z) : list PIL.call * result (Z * Z * string) :=
  match PIL.open dec data with
  | inl e => ([PIL.CallOpen], Raise (on_pil_error e))
  | inr img =>
      let '(w, h) := PIL.size img in
      if w * h >? max_pixels then ([PIL.CallOpen], Ok (0, 0, ""))
      else
        match PIL.verify dec data img with
        | Some e => ([PIL.CallOpen; PIL.CallVerify], Raise (on_pil_error e))
        | None =>
            ([PIL.CallOpen; PIL.CallVerify],
             Ok (w, h, PyStr.lower (PIL.format img)))
        end
  end.

Definition pil_validate (dec : PIL.decoder) (data : list byte)
    (max_pixels : Z) : result (Z * Z * string) :=
  snd (pil_validate_run dec data max_pixels).

Record ValidatedUpload := mkValidatedUpload {
  ext : string;
  mime : string;
  bytes : list byte;
  sha256 : string;
  width : Z;
  height : Z;
  format : string
}.

(** What [validate] reads of a starlette [UploadFile]. *)
Record UploadFile := mkUploadFile {
  filename : option string;
  content_type : option string;
  body : list byte
}.

Definition MAX_PIXELS : Z := 50000000.

(** [validate], together with the decoder calls it makes. [file.read()]
    gives the whole body. *)
Definition validate_run (dec : PIL.decoder) (file : UploadFile)
  : list PIL.call * result ValidatedUpload :=
  let extension := get_ext (PyStr.or_else (filename file) "") in
  if negb (bool_decide (extension ∈ ALLOWED_EXTENSIONS)) then
    ([], Raise (HTTPException 400
                  ("Bad Extension " +:+ PyStr.or_str extension "none")))
  else
    let mime := PyStr.lower (PyStr.or_else (content_type file) "") in
    if negb (bool_decide (mime ∈ ALLOWED_MIME)) then
      ([], Raise (HTTPException 400
                    ("Bad MIME type: " +:+ PyStr.or_str mime "(none)")))
    else
      let data := body file in
      match data with
      | [] => ([], Raise (HTTPException 400 "Empty upload"))
      | _ :: _ =>
          if negb (match_signature mime data) then
            ([], Raise (HTTPException 400
                          "File bytes do not match image type"))
          else
            let '(calls, r) := pil_validate_run dec data MAX_PIXELS in
            (calls,
             try! whf := r in
             let '(width, height, format) := whf in
             Ok {| ext := extension;
                   mime := mime;
                   bytes := data;
                   sha256 := Hashlib.sha256_hexdigest data;
                   width := width;
                   height := height;
                   format := format |})
      end.

Definition validate (dec : PIL.decoder) (file : UploadFile)
  : result ValidatedUpload :=
  snd (validate_run dec file).

End Validator.

(** ** zlib: the two checksums and the simplest stream *)

Module Zlib.

(** [zlib.crc32]: the CRC-32 of PNG, bit by bit. *)
Definition crc_bit (crc : Z) : Z :=
  if Z.testbit crc 0 then Z.lxor (Z.shiftr crc 1) 0xEDB88320 else Z.shiftr crc 1.

Definition crc_byte (crc : Z) (b : byte) : Z :=
  Nat.iter 8 crc_bit (Z.lxor crc (Hashlib.byteZ b)).

Definition crc32 (data : list byte) : Z :=
  Z.lxor (List.fold_left crc_byte data 0xFFFFFFFF) 0xFFFFFFFF.

(** [zlib.adler32] *)
Definition adler32 (data : list byte) : Z :=
  let '(a, b) :=
    List.fold_left
      (fun ab x =>
         let a' := (fst ab + Hashlib.byteZ x) mod 65521 in
         (a', (snd ab + a') mod 65521))
      data (1, 0) in
  b * 65536 + a.

Definition byte_of_Z (z : Z) : byte :=
  match Byte.of_N (Z.to_N z) with Some b => b | None => x00 end.

Definition be4 (x : Z) : list byte := List.map byte_of_Z (Hashlib.be_bytes 4 x).

Definition le2 (x : Z) : list byte := [byte_of_Z (x mod 256); byte_of_Z (x / 256)].

(** A zlib stream that holds [raw] (at most 65535 bytes) in one stored
    block: header 78 01, the final block of type 00 with its length and
    the length's complement, the bytes, and their Adler-32. *)
Definition stored (raw : list byte) : list byte :=
  let n := Z.of_nat (List.length raw) in
  [x78; x01; x01] ++ le2 n ++ le2 (65535 - n) ++ raw ++ be4 (adler32 raw).

End Zlib.

(** ** A reader of PNG chunks and JPEG segments, to run the validator on
    concrete files

    It follows what Pillow's [Image.open] and [Image.verify] do with a
    PNG or a JPEG, as far as the outcome is concerned: the size and
    the format, or the class of the exception.

    PNG, [open]: the chunks are read up to the first IDAT (or IEND);
    each chunk read must have a name of four word characters, all its
    bytes and a matching CRC-32, and IHDR gives the size and must name a
    known mode; anything else ends as [UnidentifiedImageError] (a short
    chunk body as [OSError], an IHDR shorter than 13 bytes as
    [ValueError]). PNG, [verify]: from the first IDAT on, every chunk
    before IEND must be complete ([OSError] if the file stops) and carry
    a matching CRC-32 ([SyntaxError] if not). The chunks' own contents
    (palette, text, compressed data) are not looked at.

    JPEG, [open]: the segments after the start-of-image marker are read
    up to the start of scan; a frame header gives the size and must have
    8 bits and 1, 3 or 4 components; the contents of the other segments
    are not looked at. JPEG, [verify]: nothing.

    Both, [open]: a picture of more than 178,956,970 pixels raises
    [DecompressionBombError] (twice [Image.MAX_IMAGE_PIXELS]; one above
    89,478,485 only warns). *)

Module HeaderDecoder.

Definition be (bs : list byte) : Z :=
  List.fold_left (fun acc b => acc * 256 + Hashlib.byteZ b) bs 0.

Definition slice (i n : nat) (data : list byte) : list byte :=
  List.firstn n (List.skipn i data).

Definition IHDR : list byte := [x49; x48; x44; x52].
Definition IDAT : list byte := [x49; x44; x41; x54].
Definition IEND : list byte := [x49; x45; x4e; x44].

Fixpoint bytes_eqb (a b : list byte) : bool :=
  match a, b with
  | [], [] => true
  | x :: a', y :: b' => Byte.eqb x y && bytes_eqb a' b'
  | _, _ => false
  end.

Definition be4 : Z -> list byte := Zlib.be4.

(** [re.compile(rb"\w\w\w\w").match]: four letters, digits or
    underscores. *)
Definition is_word (b : byte) : bool :=
  let n := Hashlib.byteZ b in
  ((48 <=? n) && (n <=? 57)) || ((65 <=? n) && (n <=? 90))
  || (n =? 95) || ((97 <=? n) && (n <=? 122)).

Definition is_cid (cid : list byte) : bool :=
  Nat.eqb (List.length cid) 4 && forallb is_word cid.

(** The keys of [_MODES]: bit depth and colour type. *)
Definition known_mode (depth colour : Z) : bool :=
  if colour =? 0 then
    (depth =? 1) || (depth =? 2) || (depth =? 4) || (depth =? 8) || (depth =? 16)
  else if colour =? 2 then (depth =? 8) || (depth =? 16)
  else if colour =? 3 then
    (depth =? 1) || (depth =? 2) || (depth =? 4) || (depth =? 8)
  else if (colour =? 4) || (colour =? 6) then (depth =? 8) || (depth =? 16)
  else false.

Definition byte_at (i : nat) (data : list byte) : Z :=
  Hashlib.byteZ (List.nth i data x00).

(** The stored CRC-32 of the chunk at [pos] with body length [len]:
    whether it is all there and whether it matches. *)
Definition crc_matches (data : list byte) (pos len : nat) : bool :=
  let stored := slice (pos + 8 + len) 4 data in
  Nat.eqb (List.length stored) 4
  && (Zlib.crc32 (slice (pos + 4) (4 + len) data) =? be stored).

(** The file ends before the [len] bytes of the body of the chunk at
    [pos]. *)
Definition body_is_short (data : list byte) (pos : nat) (len : Z) : bool :=
  Z.of_nat (List.length data) <? Z.of_nat pos + 8 + len.

(** Where the header ends: at the first IDAT chunk, or at IEND. *)
Inductive png_header : Type :=
| PngError (e : PIL.error)
| PngHeader (size : option (Z * Z)) (mode : bool) (idat : option nat).

Fixpoint png_chunks (fuel : nat) (data : list byte) (pos : nat)
    (size : option (Z * Z)) (mode : bool) : png_header :=
  match fuel with
  | O => PngError PIL.UnidentifiedImageError
  | S fuel' =>
      let s := slice pos 8 data in
      if (List.length s <? 4)%nat then PngError PIL.UnidentifiedImageError
      else
        let cid := List.skipn 4 s in
        if negb (is_cid cid) then PngError PIL.UnidentifiedImageError
        else if bytes_eqb cid IDAT then PngHeader size mode (Some pos)
        else if bytes_eqb cid IEND then PngHeader size mode None
        else if body_is_short data pos (be (List.firstn 4 s))
        then PngError PIL.OSError
        else
          let len := Z.to_nat (be (List.firstn 4 s)) in
          let body := slice (pos + 8) len data in
          if bytes_eqb cid IHDR then
            if (len <? 13)%nat then PngError (PIL.OtherError "ValueError")
            else if negb (byte_at 11 body =? 0) then
              PngError PIL.UnidentifiedImageError
            else if negb (crc_matches data pos len) then
              PngError PIL.UnidentifiedImageError
            else
              png_chunks fuel' data (pos + 12 + len)
                (Some (be (slice 0 4 body), be (slice 4 4 body)))
                (known_mode (byte_at 8 body) (byte_at 9 body))
          else if negb (crc_matches data pos len) then
            PngError PIL.UnidentifiedImageError
          else png_chunks fuel' data (pos + 12 + len) size mode
  end.

Definition png_read (data : list byte) : png_header :=
  png_chunks (List.length data) data 8 None false.

(** [Image._decompression_bomb_check] *)
Definition MAX_IMAGE_PIXELS : Z := 89478485.

Definition bomb_check (size : Z * Z) (format : string) : PIL.error + PIL.image :=
  if Z.max 1 (fst size) * Z.max 1 (snd size) >? 2 * MAX_IMAGE_PIXELS
  then inl (PIL.OtherError "DecompressionBombError")
  else inr (PIL.mkImage size format).

(** What [ImageFile.__init__] asks of an opened file: a mode and a
    size that is not empty. *)
Definition identified (size : option (Z * Z)) (mode : bool) (format : string)
  : PIL.error + PIL.image :=
  match size with
  | Some (w, h) =>
      if mode && (0 <? w) && (0 <? h) then bomb_check (w, h) format
      else inl PIL.UnidentifiedImageError
  | None => inl PIL.UnidentifiedImageError
  end.

(** The markers of [MARKER]: frame headers, segments that are skipped
    by their length, and markers without a segment. *)
Definition is_frame_header (m : Z) : bool :=
  (192 <=? m) && (m <=? 207) && negb ((m =? 196) || (m =? 200) || (m =? 204)).

Definition has_length (m : Z) : bool :=
  (m =? 196) || (m =? 204) || ((218 <=? m) && (m <=? 239)) || (m =? 254).

Definition stands_alone (m : Z) : bool :=
  (m =? 200) || ((208 <=? m) && (m <=? 217)) || ((240 <=? m) && (m <=? 253)).

(** The loop of [JpegImageFile._open], [pos] being the place of the
    byte it looks at: bytes other than FF are skipped; after FF comes
    the marker. *)
Fixpoint jpeg_segments (fuel : nat) (data : list byte) (pos : nat)
    (size : option (Z * Z)) (mode : bool) : PIL.error + PIL.image :=
  match fuel with
  | O => inl PIL.UnidentifiedImageError
  | S fuel' =>
      if (List.length data <=? pos + 1)%nat then inl PIL.UnidentifiedImageError
      else if negb (byte_at pos data =? 255) then
        jpeg_segments fuel' data (pos + 1) size mode
      else
        let m := byte_at (pos + 1) data in
        let n := Z.to_nat (be (slice (pos + 2) 2 data) - 2) in
        let body := slice (pos + 4) n data in
        if is_frame_header m || has_length m then
          if (List.length (slice (pos + 2) 2 data) <? 2)%nat
          then inl PIL.UnidentifiedImageError
          else if (List.length body <? n)%nat then inl PIL.OSError
          else if m =? 218 then identified size mode "JPEG"
          else if is_frame_header m then
            if (n <? 6)%nat then inl PIL.UnidentifiedImageError
            else if negb (byte_at 0 body =? 8) then inl PIL.UnidentifiedImageError
            else
              let layers := byte_at 5 body in
              if (layers =? 1) || (layers =? 3) || (layers =? 4) then
                jpeg_segments fuel' data (pos + 4 + n)
                  (Some (be (slice 3 2 body), be (slice 1 2 body))) true
              else inl PIL.UnidentifiedImageError
          else jpeg_segments fuel' data (pos + 4 + n) size mode
        else if stands_alone m then jpeg_segments fuel' data (pos + 2) size mode
        else if m =? 255 then jpeg_segments fuel' data (pos + 1) size mode
        else if m =? 0 then jpeg_segments fuel' data (pos + 2) size mode
        else inl PIL.UnidentifiedImageError
  end.

Definition open (data : list byte) : PIL.error + PIL.image :=
  if Validator.bytes_startswith data Validator.PNG_SIGNATURE then
    match png_read data with
    | PngError e => inl e
    | PngHeader size mode _ => identified size mode "PNG"
    end
  else if Validator.bytes_startswith data Validator.JPEG_SIGNATURE then
    jpeg_segments (List.length data) data 2 None false
  else inl PIL.UnidentifiedImageError.

(** [PngImageFile.verify]: the checksums of the chunks from the first
    IDAT up to IEND. *)
Fixpoint png_verify (fuel : nat) (data : list byte) (pos : nat)
  : option PIL.error :=
  match fuel with
  | O => Some PIL.OSError
  | S fuel' =>
      let s := slice pos 8 data in
      if (List.length s <? 4)%nat then Some PIL.OSError
      else
        let cid := List.skipn 4 s in
        if negb (is_cid cid) then Some (PIL.OtherError "SyntaxError")
        else if bytes_eqb cid IEND then None
        else if body_is_short data pos (be (List.firstn 4 s))
        then Some PIL.OSError
        else
          let len := Z.to_nat (be (List.firstn 4 s)) in
          if negb (crc_matches data pos len)
          then Some (PIL.OtherError "SyntaxError")
          else png_verify fuel' data (pos + 12 + len)
  end.

Definition verify (data : list byte) (img : PIL.image) : option PIL.error :=
  if String.eqb (PIL.format img) "PNG" then
    match png_read data with
    | PngHeader _ _ (Some idat) => png_verify (List.length data) data idat
    | PngHeader _ _ None => Some (PIL.OtherError "TypeError")
    | PngError e => Some e
    end
  else None.

Definition dec : PIL.decoder := PIL.mkDecoder open verify.

(** *** Files to read *)

(** One PNG chunk: length, name, body, CRC-32 of name and body. *)
Definition chunk (cid body : list byte) : list byte :=
  be4 (Z.of_nat (List.length body)) ++ cid ++ body
    ++ be4 (Zlib.crc32 (cid ++ body)).

(** A PNG of 8-bit greyscale whose header declares [w] x [h] and whose
    data are the scanlines [raw]. *)
Definition png_file (w h : Z) (raw : list byte) : list byte :=
  Validator.PNG_SIGNATURE
    ++ chunk IHDR (be4 w ++ be4 h ++ [x08; x00; x00; x00; x00])
    ++ chunk IDAT (Zlib.stored raw)
    ++ chunk IEND [].

(** The black picture of [w] x [h] pixels: [h] scanlines of a filter
    byte and [w] pixels. *)
Definition png (w h : Z) : list byte :=
  png_file w h (List.repeat x00 (Z.to_nat (h * (w + 1)))).

(** A PNG whose header declares [w] x [h] while it carries the data of
    a single pixel. *)
Definition png_declaring (w h : Z) : list byte := png_file w h [x00; x00].

(** The black picture with the checksum of its data chunk spoilt. *)
Definition png_bad_checksum (w h : Z) : list byte :=
  let raw := List.repeat x00 (Z.to_nat (h * (w + 1))) in
  Validator.PNG_SIGNATURE
    ++ chunk IHDR (be4 w ++ be4 h ++ [x08; x00; x00; x00; x00])
    ++ be4 (Z.of_nat (List.length (Zlib.stored raw))) ++ IDAT ++ Zlib.stored raw
    ++ be4 (Z.lxor (Zlib.crc32 (IDAT ++ Zlib.stored raw)) 1)
    ++ chunk IEND [].

(** A JPEG reduced to its headers: start of image, a baseline frame
    header of one 8-bit component declaring [w] x [h], a start of scan,
    one byte of data, end of image. *)
Definition jpeg (w h : Z) : list byte :=
  [xff; xd8; xff; xc0; x00; x0b; x08]
    ++ List.skipn 2 (be4 h) ++ List.skipn 2 (be4 w) ++ [x01; x01; x11; x00]
    ++ [xff; xda; x00; x08; x01; x01; x00; x00; x3f; x00]
    ++ [x00; xff; xd9].

End HeaderDecoder.

(** ** Python floats: IEEE 754 binary64 with round-to-nearest-even *)

Module Float64.

Definition prec : Z := 53.
Definition emax : Z := 1024.

(** [float(n)] for an integer [n]. *)
Definition of_int (n : Z) : spec_float := binary_normalize prec emax n 0 false.

Definition add : spec_float -> spec_float -> spec_float := SFadd prec emax.
Definition mul : spec_float -> spec_float -> spec_float := SFmul prec emax.
Definition div : spec_float -> spec_float -> spec_float := SFdiv prec emax.

(** The integer nearest to [num / den], ties to the even one
    ([0 <= num], [0 < den]). *)
Definition half_even (num den : Z) : Z :=
  let q := num / den in
  match 2 * (num mod den) ?= den with
  | Lt => q
  | Gt => q + 1
  | Eq => if Z.even q then q else q + 1
  end.

(** The integer nearest to [k * |x|] for a finite [x], computed on the
    exact value of [x]. *)
Definition scaled_magnitude (k : Z) (x : spec_float) : Z :=
  match x with
  | S754_finite _ m e =>
      if 0 <=? e then k * Z.pos m * 2 ^ e
      else half_even (k * Z.pos m) (2 ^ (- e))
  | _ => 0
  end.

Definition is_negative (x : spec_float) : bool :=
  match x with
  | S754_zero s | S754_infinity s | S754_finite s _ _ => s
  | S754_nan => false
  end.

(** [round(x)] for a finite float: an [int], ties to even. *)
Definition round (x : spec_float) : Z :=
  if is_negative x then - scaled_magnitude 1 x else scaled_magnitude 1 x.

Definition digit (d : Z) : ascii := ascii_of_N (Z.to_N (48 + d)).

(** [format(x, ".2f")] for a finite float. *)
Definition format_2f (x : spec_float) : string :=
  let n := scaled_magnitude 100 x in
  (if is_negative x then "-" else "")
    +:+ pretty (n / 100)
    +:+ String "." (String (digit (n / 10 mod 10)) (String (digit (n mod 10)) "")).

End Float64.

(** ** The SQLite schema of app/main.py

    Timestamps are seconds on the clock of the host; the TEXT form that
    [datetime('now')] stores and [strptime] reads back is not modelled. *)

Module Schema.

Record metadata_row := mkMetadata {
  width : Z;
  height : Z;
  format : string;
  size_bytes : Z;
  first_upload : Z;
  exif_json : option string;
  caption : option string
}.

Record images_row := mkImages {
  original_name : string;
  processed_at : Z;
  image_path : option string;
  metadata_sha256 : option string;
  error : option string
}.

(** [status INTEGER NOT NULL, -- 1 = success, 0 = failed] *)
Record stats_row := mkStats {
  start_time : Z;
  end_time : option Z;
  status : Z
}.

Record database := mkDatabase {
  metadata : gmap string metadata_row;
  images : gmap string images_row;
  stats : gmap string stats_row
}.

Definition empty : database := mkDatabase ∅ ∅ ∅.

(** [INSERT OR IGNORE INTO metadata ...]: the new table and [cur.rowcount]. *)
Definition insert_or_ignore_metadata (key : string) (row : metadata_row)
    (d : database) : database * Z :=
  match metadata d !! key with
  | Some _ => (d, 0)
  | None => (mkDatabase (<[key := row]> (metadata d)) (images d) (stats d), 1)
  end.

(** [INSERT INTO images ...]: primary key [image_id], foreign key
    [metadata_sha256] into [metadata] (foreign keys are switched on). *)
Definition insert_images (key : string) (row : images_row)
    (d : database) : result database :=
  match images d !! key with
  | Some _ => Raise (IntegrityError "UNIQUE constraint failed: images.image_id")
  | None =>
      match metadata_sha256 row with
      | Some h =>
          match metadata d !! h with
          | Some _ =>
              Ok (mkDatabase (metadata d) (<[key := row]> (images d)) (stats d))
          | None => Raise (IntegrityError "FOREIGN KEY constraint failed")
          end
      | None =>
          Ok (mkDatabase (metadata d) (<[key := row]> (images d)) (stats d))
      end
  end.

(** [INSERT INTO stats (image_id, status) VALUES (?,?)]: primary key
    [image_id], which is also a foreign key into [images]. *)
Definition insert_stats (key : string) (row : stats_row)
    (d : database) : result database :=
  match stats d !! key with
  | Some _ => Raise (IntegrityError "UNIQUE constraint failed: stats.image_id")
  | None =>
      match images d !! key with
      | Some _ =>
          Ok (mkDatabase (metadata d) (images d) (<[key := row]> (stats d)))
      | None => Raise (IntegrityError "FOREIGN KEY constraint failed")
      end
  end.

(** The three [UPDATE ... WHERE key = ?] statements of the jobs; a
    missing row is left missing. *)
Definition update_exif (key : string) (v : string) (d : database) : database :=
  mkDatabase
    (alter (fun r => mkMetadata (width r) (height r) (format r) (size_bytes r)
                       (first_upload r) (Some v) (caption r)) key (metadata d))
    (images d) (stats d).

Definition update_caption (key : string) (v : string) (d : database) : database :=
  mkDatabase
    (alter (fun r => mkMetadata (width r) (height r) (format r) (size_bytes r)
                       (first_upload r) (exif_json r) (Some v)) key (metadata d))
    (images d) (stats d).

Definition update_stats_done (key : string) (st now : Z) (d : database)
  : database :=
  mkDatabase (metadata d) (images d)
    (alter (fun r => mkStats (start_time r) (Some now) st) key (stats d)).

Definition update_processed_at (key : string) (now : Z) (d : database)
  : database :=
  mkDatabase (metadata d)
    (alter (fun r => mkImages (original_name r) now (image_path r)
                       (metadata_sha256 r) (error r)) key (images d))
    (stats d).

(** The foreign keys, as a property of the tables. *)
Definition consistent (d : database) : Prop :=
  (forall k r, stats d !! k = Some r -> is_Some (images d !! k)) /\
  (forall k r h, images d !! k = Some r -> metadata_sha256 r = Some h ->
                 is_Some (metadata d !! h)).

End Schema.

(** ** app/main.py and app/jobs.py *)

Module Api.

Import Schema.

Inductive job : Type :=
| thumbnail_job (sha256 image_path : string)
| exif_job (sha256 image_path : string)
| caption_job (sha256 image_path image_id : string).

(** The log lines of the two loggers, by their message key. *)
Inductive log_line : Type :=
| failed_to_enqueue (sha256 image_id : string)
| exif_job_start (sha256 image_path : string)
| exif_extracted (sha256 : string) (exif_len : nat)
| exif_db_updated (sha256 : string) (rows_updated : Z)
| exif_job_failed (sha256 image_path : string)
| thumbnail_job_start (sha256 image_path : string)
| thumbnail_made (sha256 : string)
| thumbnail_job_fail (sha256 image_path : string).

(** Everything a request or a job can change: the tables, the media
    directory, the Redis queue and the log. *)
Record world := mkWorld {
  db : database;
  files : gmap string (list byte);
  queue : list job;
  log : list log_line
}.

Definition initial : world := mkWorld Schema.empty ∅ [] [].

(** What one upload request gets from outside: the base URL of the
    request, the value of [uuid4().hex], the clock, the media directory
    ([MEDIA_DIR = Path(os.getenv("MEDIA_DIR", "media"))], as a string),
    whether the disk takes the file, and how many [enqueue] calls the
    queue takes before it throws (three or more: it takes them all).
    When the disk does not take the file, the handler removes what was
    written with [destination.unlink(missing_ok=True)], which can raise
    in turn: [unlink_raises] is then the class of that exception, and
    [partial] what the failed write has put at the destination, if
    anything. *)
Record env := mkEnv {
  base_url : string;
  uuid4_hex : string;
  now : Z;
  MEDIA_DIR : string;
  disk_ok : bool;
  unlink_raises : option string;
  partial : option (list byte);
  queue_accepts : nat
}.

Record upload_metadata := mkUploadMetadata {
  m_width : Z;
  m_height : Z;
  m_format : string;
  m_size_bytes : Z;
  m_sha256 : string;
  m_first_upload : Z
}.

(** The response body; [i_metadata = None] is the empty dict. *)
Record item := mkItem {
  i_status : string;
  i_image_id : string;
  i_original_name : string;
  i_processed_at : Z;
  i_metadata : option upload_metadata;
  i_thumbnails : list (string * string);
  i_error : option string
}.

Fixpoint rstrip_slash (s : string) : string :=
  match s with
  | EmptyString => EmptyString
  | String c r =>
      match rstrip_slash r with
      | EmptyString => if Ascii.eqb c "/" then EmptyString else String c EmptyString
      | r' => String c r'
      end
  end.

Definition build_item (base_url status image_id original_name : string)
    (processed_at : Z) (error : option string)
    (metadata : option upload_metadata) : item :=
  let base := rstrip_slash base_url in
  let thumbs :=
    if String.eqb status "success" then
      [ ("small", base +:+ "/api/images/" +:+ image_id +:+ "/thumbnails/small");
        ("medium", base +:+ "/api/images/" +:+ image_id +:+ "/thumbnails/medium") ]
    else [] in
  mkItem status image_id original_name processed_at metadata thumbs error.

(** The [try] block around [get_queue()] and the three [q.enqueue]
    calls: the jobs the queue took, and whether a call threw. *)
Fixpoint enqueue_all (accepts : nat) (jobs : list job) (q : list job)
  : list job * bool :=
  match jobs with
  | [] => (q, false)
  | j :: jobs' =>
      match accepts with
      | O => (q, true)
      | S a => enqueue_all a jobs' (q ++ [j])
      end
  end.

Definition upload_img (dec : PIL.decoder) (e : env)
    (file : Validator.UploadFile) (w : world) : world * result item :=
  let original_name := PyStr.or_else (Validator.filename file) "upload" in
  let ext := PyStr.lower (Pathlib.suffix original_name) in
  let image_id := uuid4_hex e in
  let stored_filename := image_id +:+ ext in
  let destination := MEDIA_DIR e +:+ "/originals/" +:+ stored_filename in
  let processed_at := now e in
  match Validator.validate dec file with
  | Raise (HTTPException _ detail) =>
      let err_msg := detail in
      let tx :=
        try! d1 := insert_images image_id
                     (mkImages original_name (now e) None None (Some err_msg))
                     (db w) in
        insert_stats image_id (mkStats (now e) None 0) d1 in
      match tx with
      | Ok d2 =>
          (mkWorld d2 (files w) (queue w) (log w),
           Ok (build_item (base_url e) "failed" image_id original_name
                          processed_at (Some err_msg) None))
      | Raise ex => (w, Raise ex)
      end
  | Raise ex => (w, Raise ex)
  | Ok v =>
      let data := Validator.bytes v in
      if negb (disk_ok e) then
        match unlink_raises e with
        | None =>
            (mkWorld (db w) (delete destination (files w)) (queue w) (log w),
             Raise (HTTPException 500 "Failed to save image"))
        | Some cls =>
            (mkWorld (db w)
               (match partial e with
                | Some rest => <[destination := rest]> (files w)
                | None => files w
                end)
               (queue w) (log w),
             Raise (PyError cls))
        end
      else
        let files1 := <[destination := data]> (files w) in
        let image_path := destination in
        let size := Z.of_nat (List.length data) in
        let '(d1, rowcount) :=
          insert_or_ignore_metadata (Validator.sha256 v)
            (mkMetadata (Validator.width v) (Validator.height v)
                        (Validator.format v) size (now e) None None)
            (db w) in
        let '(queue1, log1) :=
          if rowcount =? 0 then (queue w, log w)
          else
            let '(q, threw) :=
              enqueue_all (queue_accepts e)
                [ thumbnail_job (Validator.sha256 v) image_path;
                  exif_job (Validator.sha256 v) image_path;
                  caption_job (Validator.sha256 v) image_path image_id ]
                (queue w) in
            (q, if threw
                then log w ++ [failed_to_enqueue (Validator.sha256 v) image_id]
                else log w) in
        let tx :=
          try! d2 := insert_images image_id
                       (mkImages original_name processed_at (Some image_path)
                                 (Some (Validator.sha256 v)) None) d1 in
          insert_stats image_id (mkStats (now e) None 1) d2 in
        match tx with
        | Ok d3 =>
            (mkWorld d3 files1 queue1 log1,
             Ok (build_item (base_url e) "success" image_id original_name
                   processed_at None
                   (Some (mkUploadMetadata (Validator.width v)
                            (Validator.height v) (Validator.format v) size
                            (Validator.sha256 v) processed_at))))
        | Raise ex => (mkWorld (db w) files1 queue1 log1, Raise ex)
        end
  end.

(** *** The jobs (app/jobs.py), run by the queue worker *)

(** The three image tools, applied to the bytes of the stored original;
    [None] when the tool raises. *)
Record tools := mkTools {
  extractExif : list byte -> option string;
  extractCaption : list byte -> option string;
  generateThumbnail : list byte -> option (list byte * list byte)
}.

(** A tool opens the file at [image_path] first: no file, no result. *)
Definition with_file {A : Type} (w : world) (image_path : string)
    (tool : list byte -> option A) : option A :=
  match files w !! image_path with
  | Some data => tool data
  | None => None
  end.

Definition THUMBS_DIR : string := "media/thumbnails".

Definition run_exif_job (t : tools) (sha256 image_path : string) (w : world)
  : world * result unit :=
  let log0 := log w ++ [exif_job_start sha256 image_path] in
  match with_file w image_path (extractExif t) with
  | Some exif_json =>
      let log1 := log0 ++ [exif_extracted sha256 (String.length exif_json)] in
      let rowcount :=
        match metadata (db w) !! sha256 with Some _ => 1 | None => 0 end in
      (mkWorld (update_exif sha256 exif_json (db w)) (files w) (queue w)
               (log1 ++ [exif_db_updated sha256 rowcount]),
       Ok tt)
  | None =>
      (mkWorld (db w) (files w) (queue w)
               (log0 ++ [exif_job_failed sha256 image_path]),
       Raise (ToolError "extractExif"))
  end.

Definition run_caption_job (t : tools) (clock : Z)
    (sha256 image_path image_id : string) (w : world) : world * result unit :=
  match with_file w image_path (extractCaption t) with
  | Some caption =>
      let d1 := update_caption sha256 caption (db w) in
      let d2 := update_stats_done image_id 1 clock d1 in
      let d3 := update_processed_at image_id clock d2 in
      (mkWorld d3 (files w) (queue w) (log w), Ok tt)
  | None => (w, Raise (ToolError "extractCaption"))
  end.

Definition run_thumbnail_job (t : tools) (sha256 image_path : string)
    (w : world) : world * result unit :=
  let log0 := log w ++ [thumbnail_job_start sha256 image_path] in
  match with_file w image_path (generateThumbnail t) with
  | Some (small, medium) =>
      let small_path := THUMBS_DIR +:+ "/small/" +:+ sha256 +:+ ".jpeg" in
      let medium_path := THUMBS_DIR +:+ "/medium/" +:+ sha256 +:+ ".jpeg" in
      (mkWorld (db w) (<[medium_path := medium]> (<[small_path := small]> (files w)))
               (queue w) (log0 ++ [thumbnail_made sha256]),
       Ok tt)
  | None =>
      (mkWorld (db w) (files w) (queue w)
               (log0 ++ [thumbnail_job_fail sha256 image_path]),
       Raise (ToolError "generateThumbnail"))
  end.

Definition run_job (t : tools) (clock : Z) (j : job) (w : world)
  : world * result unit :=
  match j with
  | thumbnail_job h p => run_thumbnail_job t h p w
  | exif_job h p => run_exif_job t h p w
  | caption_job h p i => run_caption_job t clock h p i w
  end.

(** The worker takes the [n]-th waiting job off the queue and runs it. *)
Definition work (t : tools) (clock : Z) (n : nat) (w : world) : world :=
  match queue w !! n with
  | Some j =>
      fst (run_job t clock j
             (mkWorld (db w) (files w) (List.firstn n (queue w) ++ List.skipn (S n) (queue w))
                      (log w)))
  | None => w
  end.

(** A history of the service: upload requests and worker turns. *)
Inductive event : Type :=
| Upload (e : env) (file : Validator.UploadFile)
| Work (clock : Z) (n : nat).

Definition step (dec : PIL.decoder) (t : tools) (w : world) (ev : event)
  : world :=
  match ev with
  | Upload e file => fst (upload_img dec e file w)
  | Work clock n => work t clock n w
  end.

Definition run (dec : PIL.decoder) (t : tools) (evs : list event) (w : world)
  : world :=
  List.fold_left (step dec t) evs w.

End Api.

(** ** The rows and jobs of one upload call, named for the statements *)

Module Rows.

Import Schema Api.

Definition original_name_of (file : Validator.UploadFile) : string :=
  PyStr.or_else (Validator.filename file) "upload".

Definition destination_of (e : env) (file : Validator.UploadFile) : string :=
  MEDIA_DIR e +:+ "/originals/"
    +:+ (uuid4_hex e +:+ PyStr.lower (Pathlib.suffix (original_name_of file))).

(** The UploadAttempt of a rejected upload, with its reason. *)
Definition failed_attempt (e : env) (file : Validator.UploadFile)
    (reason : string) : images_row :=
  mkImages (original_name_of file) (now e) None None (Some reason).

(** The UploadAttempt of an accepted upload. *)
Definition accepted_attempt (e : env) (file : Validator.UploadFile)
    (v : Validator.ValidatedUpload) : images_row :=
  mkImages (original_name_of file) (now e) (Some (destination_of e file))
           (Some (Validator.sha256 v)) None.

(** The ContentRecord of newly seen content. *)
Definition content_record (e : env) (v : Validator.ValidatedUpload)
  : metadata_row :=
  mkMetadata (Validator.width v) (Validator.height v) (Validator.format v)
             (Z.of_nat (List.length (Validator.bytes v))) (now e) None None.

(** The three processing jobs of newly seen content. *)
Definition processing_jobs (e : env) (file : Validator.UploadFile)
    (v : Validator.ValidatedUpload) : list job :=
  [ thumbnail_job (Validator.sha256 v) (destination_of e file);
    exif_job (Validator.sha256 v) (destination_of e file);
    caption_job (Validator.sha256 v) (destination_of e file) (uuid4_hex e) ].

Definition failed_item (e : env) (file : Validator.UploadFile)
    (reason : string) : item :=
  build_item (base_url e) "failed" (uuid4_hex e) (original_name_of file)
             (now e) (Some reason) None.

Definition success_item (e : env) (file : Validator.UploadFile)
    (v : Validator.ValidatedUpload) : item :=
  build_item (base_url e) "success" (uuid4_hex e) (original_name_of file)
    (now e) None
    (Some (mkUploadMetadata (Validator.width v) (Validator.height v)
             (Validator.format v) (Z.of_nat (List.length (Validator.bytes v)))
             (Validator.sha256 v) (now e))).

(** Every outcome has status 0 or 1, and one with an end time has
    status 1. *)
Definition outcomes_wellformed (w : world) : Prop :=
  forall k r, stats (db w) !! k = Some r ->
    (status r = 0 \/ status r = 1) /\ (end_time r <> None -> status r = 1).

End Rows.

(** ** [GET /api/stats] *)

Module Stats.

Import Schema.

Record report := mkReport {
  total : Z;
  failed : Z;
  success_rate : string;
  average_processing_time_seconds : Z
}.

Definition count {A : Type} (p : A -> bool) (l : list A) : Z :=
  Z.of_nat (List.length (List.filter p l)).

(** [sum(durations)]: the floats are added from the left, starting
    from [0]. *)
Definition fsum (l : list spec_float) : spec_float :=
  List.fold_left Float64.add l (Float64.of_int 0).

Definition has_end (r : stats_row) : bool :=
  match end_time r with Some _ => true | None => false end.

(** [(end - start).total_seconds()] of the rows that have an end time. *)
Fixpoint durations (rows : list stats_row) : list spec_float :=
  match rows with
  | [] => []
  | r :: rows' =>
      match end_time r with
      | Some t => Float64.of_int (t - start_time r) :: durations rows'
      | None => durations rows'
      end
  end.

Definition get_stats (rows : list stats_row) : report :=
  let total := Z.of_nat (List.length rows) in
  let failed := count (fun r => status r =? 0) rows in
  let durations := durations rows in
  let avg_seconds :=
    match durations with
    | [] => 0
    | _ :: _ =>
        Float64.round
          (Float64.div (fsum durations)
                       (Float64.of_int (Z.of_nat (List.length durations))))
    end in
  let completed := rows in
  let completed_total := Z.of_nat (List.length completed) in
  let completed_success := count (fun r => status r =? 1) completed in
  let success_rate :=
    if completed_total =? 0 then "0.00%"
    else
      Float64.format_2f
        (Float64.mul
           (Float64.div (Float64.of_int completed_success)
                        (Float64.of_int completed_total))
           (Float64.of_int 100)) +:+ "%" in
  mkReport total failed success_rate avg_seconds.

(** [f"{(s / t) * 100:.2f}%"] for two integers. *)
Definition percent (s t : Z) : string :=
  Float64.format_2f
    (Float64.mul (Float64.div (Float64.of_int s) (Float64.of_int t))
                 (Float64.of_int 100)) +:+ "%".

(** The same percentage computed on the exact quotient: the hundredths
    of a percent nearest to [100 * s / t], ties to even. *)
Definition exact_percent (s t : Z) : string :=
  let n := Float64.half_even (10000 * s) t in
  pretty (n / 100)
    +:+ String "." (String (Float64.digit (n / 10 mod 10))
                      (String (Float64.digit (n mod 10)) "")) +:+ "%".

(** Whether [percent] and [exact_percent] agree for every [s <= t]. *)
Definition percent_exact_upto (bound : nat) : bool :=
  forallb (fun t =>
             forallb (fun s => String.eqb (percent (Z.of_nat s) (Z.of_nat t))
                                          (exact_percent (Z.of_nat s) (Z.of_nat t)))
                     (List.seq 0 (S t)))
          (List.seq 1 bound).

(** [SELECT start_time, end_time, status FROM stats] and the report. *)
Definition rows_of (d : database) : list stats_row :=
  List.map snd (map_to_list (stats d)).

Definition get_stats_db (d : database) : report := get_stats (rows_of d).

End Stats.

(** ** The vocabulary of the design document

    The design names the rejections of the validator and lists its checks
    in order; the code raises [HTTPException(400, message)]. The
    definitions below are written from the design's words, to be compared
    with the code. *)

Module Design.

Inductive rejection : Type :=
| BadExtension | BadMimeType | EmptyUpload | SignatureMismatch | CorruptImage.

(** The rejection an exception of the validator stands for, read off
    its status code and message. *)
Definition rejection_of (e : exn) : option rejection :=
  match e with
  | HTTPException code detail =>
      if negb (code =? 400) then None
      else if PyStr.startswith detail "Bad Extension " then Some BadExtension
      else if PyStr.startswith detail "Bad MIME type: " then Some BadMimeType
      else if String.eqb detail "Empty upload" then Some EmptyUpload
      else if String.eqb detail "File bytes do not match image type"
           then Some SignatureMismatch
      else if String.eqb detail "Invalid or corrupted image" then Some CorruptImage
      else None
  | _ => None
  end.

(** The magic signature of a declared content type: JPEG [FF D8 FF],
    PNG the eight bytes [89 50 4E 47 0D 0A 1A 0A]. *)
Definition magic (mime : string) : option (list byte) :=
  if String.eqb mime "image/jpeg" then Some [xff; xd8; xff]
  else if String.eqb mime "image/png"
       then Some [x89; x50; x4e; x47; x0d; x0a; x1a; x0a]
  else None.

Definition signature_matches (mime : string) (data : list byte) : bool :=
  match magic mime with
  | Some signature => Validator.bytes_startswith data signature
  | None => false
  end.

(** The extension and the declared MIME type the checks look at: both
    lower-cased, a missing one being empty. *)
Definition extension_of (file : Validator.UploadFile) : string :=
  Validator.get_ext (PyStr.or_else (Validator.filename file) "").

Definition mime_of (file : Validator.UploadFile) : string :=
  PyStr.lower (PyStr.or_else (Validator.content_type file) "").

Definition one_of (l : list string) (x : string) : bool :=
  existsb (String.eqb x) l.

(** The five checks in the order of the design, each with the
    rejection it stands for and whether the file passes it. *)
Definition checks (dec : PIL.decoder) (file : Validator.UploadFile)
  : list (rejection * bool) :=
  [ (BadExtension, one_of [".jpg"; ".jpeg"; ".png"] (extension_of file));
    (BadMimeType, one_of ["image/jpeg"; "image/png"] (mime_of file));
    (EmptyUpload, negb (Nat.eqb (List.length (Validator.body file)) 0));
    (SignatureMismatch, signature_matches (mime_of file) (Validator.body file));
    (CorruptImage,
     is_ok (Validator.pil_validate dec (Validator.body file) 50000000)) ].

Fixpoint first_failure (l : list (rejection * bool)) : option rejection :=
  match l with
  | [] => None
  | (r, passed) :: l' => if passed then first_failure l' else Some r
  end.

(** [name] ends in [tail]. *)
Definition ends_with (name tail : string) : bool :=
  let n := String.length name in
  let k := String.length tail in
  (k <=? n)%nat && String.eqb (PyStr.drop_str (n - k) name) tail.

(** A check that comes before decoder-level validation. *)
Definition cheap (r : rejection) : bool :=
  match r with CorruptImage => false | _ => true end.

(** The states of a ProcessingOutcome, and the one a value of the
    [status] column is documented to stand for
    ([-- 1 = success, 0 = failed]). *)
Inductive outcome : Type := pending | success | failed.

Definition outcome_of_status (st : Z) : option outcome :=
  if st =? 1 then Some success
  else if st =? 0 then Some failed
  else None.

(** The average processing time in the design's words: over the rows
    that have an end time, the mean of end time minus start time in
    seconds, rounded to an integer; 0 when no row has an end time. *)
Definition seconds (r : Schema.stats_row) : spec_float :=
  Float64.of_int (default 0 (Schema.end_time r) - Schema.start_time r).

Definition avg_processing_seconds (rows : list Schema.stats_row) : Z :=
  let completed := List.filter Stats.has_end rows in
  if Nat.eqb (List.length completed) 0 then 0
  else
    Float64.round
      (Float64.div (Stats.fsum (List.map seconds completed))
                   (Float64.of_int (Z.of_nat (List.length completed)))).

End Design.

(** ** Sample inputs *)

Module Samples.

Definition upload (name mime : string) (data : list byte) : Validator.UploadFile :=
  Validator.mkUploadFile (Some name) (Some mime) data.

Definition text_renamed_png : Validator.UploadFile :=
  upload "notes.png" "image/png" (bytes_of_string "plain text, not an image").

Definition truncated_png : Validator.UploadFile :=
  upload "x.jpg" "image/png" (Validator.PNG_SIGNATURE ++ bytes_of_string "garbage").

Definition png_named_jpg : Validator.UploadFile :=
  upload "photo.jpg" "image/png" (HeaderDecoder.png 10 10).

Definition jpeg_named_png : Validator.UploadFile :=
  upload "photo.png" "image/jpeg" (HeaderDecoder.jpeg 10 10).

Definition png_named_dot_jpg : Validator.UploadFile :=
  upload ".jpg" "image/png" (HeaderDecoder.png 10 10).

Definition good_png : Validator.UploadFile :=
  upload "photo.png" "image/png" (HeaderDecoder.png 10 10).

Definition same_png_again : Validator.UploadFile :=
  upload "copy.PNG" "image/png" (HeaderDecoder.png 10 10).

Definition other_png : Validator.UploadFile :=
  upload "other.png" "image/png" (HeaderDecoder.png 20 20).

Definition third_png : Validator.UploadFile :=
  upload "third.png" "image/png" (HeaderDecoder.png 30 30).

(** The 10 x 10 PNG with the checksum of its data chunk spoilt, and a
    PNG whose header declares 20000 x 20000 pixels. *)
Definition bad_checksum_png : Validator.UploadFile :=
  upload "photo.png" "image/png" (HeaderDecoder.png_bad_checksum 10 10).

Definition huge_png : Validator.UploadFile :=
  upload "huge.png" "image/png" (HeaderDecoder.png_declaring 20000 20000).

Definition evil_xlsx : Validator.UploadFile :=
  upload "evil.xlsx" "application/vnd.ms-excel" (bytes_of_string "junk").

(** What the validator returns for the 10 x 10 PNG under a name with
    the extension [ext]. *)
Definition validated_png (ext : string) : Validator.ValidatedUpload :=
  Validator.mkValidatedUpload ext "image/png" (HeaderDecoder.png 10 10)
    (Hashlib.sha256_hexdigest (HeaderDecoder.png 10 10)) 10 10 "png".

(** Four requests with their identifiers and clock readings; the disk
    and the queue work. *)
Definition req (id : string) (clock : Z) : Api.env :=
  Api.mkEnv "http://testserver/" id clock "media" true None None 3.

Definition req_a : Api.env := req "a0000000000000000000000000000001" 100.
Definition req_b : Api.env := req "b0000000000000000000000000000002" 101.
Definition req_c : Api.env := req "c0000000000000000000000000000003" 102.
Definition req_d : Api.env := req "d0000000000000000000000000000004" 103.

(** A request during which the disk refuses the file, and one during
    which the queue cannot be reached. *)
Definition req_disk_full : Api.env :=
  Api.mkEnv "http://testserver/" "e0000000000000000000000000000005" 100
    "media" false None None 3.

Definition req_queue_down : Api.env :=
  Api.mkEnv "http://testserver/" "f0000000000000000000000000000006" 100
    "media" true None None 0.

Definition tools : Api.tools :=
  Api.mkTools (fun _ => Some "{}") (fun _ => Some "a small picture")
              (fun data => Some (data, data)).

(** Three accepted uploads of three different pictures and one rejected
    upload; then the caption jobs of the first two uploads run (they
    wait at positions 2 and, once the first is gone, 4), the third
    upload stays unprocessed. *)
Definition history : list Api.event :=
  [ Api.Upload req_a good_png;
    Api.Upload req_b other_png;
    Api.Upload req_c evil_xlsx;
    Api.Upload req_d third_png;
    Api.Work 110 2;
    Api.Work 120 4 ].

Definition after_history : Api.world :=
  Api.run HeaderDecoder.dec tools history Api.initial.

End Samples.

(** ** The read endpoints of app/main.py *)

Module Views.

Import Schema Api.

(** The value [get_image] shows for [exif_json]: what [json.loads]
    made of the stored text, or the text itself under the key [_raw]. *)
Inductive exif_obj (J : Type) : Type :=
| ExifJson (j : J)
| ExifRaw (raw : string).

Arguments ExifJson {J} j.
Arguments ExifRaw {J} raw.

(** [exif_obj = None; if exif: try: json.loads(exif) except
    JSONDecodeError: {"_raw": exif}]. [json.loads] is a collaborator,
    [None] when it raises [JSONDecodeError]. *)
Definition parse_exif {J : Type} (loads : string -> option J)
    (exif : option string) : option (exif_obj J) :=
  match exif with
  | Some (String c r) =>
      match loads (String c r) with
      | Some j => Some (ExifJson j)
      | None => Some (ExifRaw (String c r))
      end
  | _ => None
  end.

(** The metadata block of [get_image]; the columns that come from the
    LEFT JOIN are NULL when no metadata row matches. *)
Record image_metadata (J : Type) := mkImageMetadata {
  v_width : option Z;
  v_height : option Z;
  v_format : option string;
  v_size_bytes : option Z;
  v_first_upload : option Z;
  v_exif_json : option (exif_obj J);
  v_sha256 : string;
  v_caption : option string
}.

Arguments mkImageMetadata {J}.
Arguments v_width {J}.
Arguments v_height {J}.
Arguments v_format {J}.
Arguments v_size_bytes {J}.
Arguments v_first_upload {J}.
Arguments v_exif_json {J}.
Arguments v_sha256 {J}.
Arguments v_caption {J}.

(** The answer of [get_image]; [d_metadata = None] is the empty dict. *)
Record image_view (J : Type) := mkImageView {
  d_status : string;
  d_image_id : string;
  d_original_name : string;
  d_processed_at : Z;
  d_image_path : option string;
  d_metadata : option (image_metadata J);
  d_thumbnails : list (string * string);
  d_error : option string
}.

Arguments mkImageView {J}.
Arguments d_status {J}.
Arguments d_image_id {J}.
Arguments d_original_name {J}.
Arguments d_processed_at {J}.
Arguments d_image_path {J}.
Arguments d_metadata {J}.
Arguments d_thumbnails {J}.
Arguments d_error {J}.

Definition get_image {J : Type} (loads : string -> option J)
    (base_url image_id : string) (d : database) : result (image_view J) :=
  match images d !! image_id with
  | None => Raise (HTTPException 404 "Image not found")
  | Some r =>
      let m := match metadata_sha256 r with
               | Some h => metadata d !! h
               | None => None
               end in
      let exif_obj := parse_exif loads (m ≫= exif_json) in
      let base := rstrip_slash base_url in
      match metadata_sha256 r with
      | None =>
          let err_msg := PyStr.or_else (error r) "unknown error" in
          Ok (mkImageView "failed" image_id (original_name r) (processed_at r)
                (image_path r) None [] (Some err_msg))
      | Some h =>
          Ok (mkImageView "success" image_id (original_name r) (processed_at r)
                (image_path r)
                (Some (mkImageMetadata (width <$> m) (height <$> m)
                         (format <$> m) (size_bytes <$> m) (first_upload <$> m)
                         exif_obj h (m ≫= caption)))
                [ ("small", base +:+ "/api/images/" +:+ image_id +:+ "/thumbnails/small");
                  ("medium", base +:+ "/api/images/" +:+ image_id +:+ "/thumbnails/medium") ]
                None)
      end
  end.

(** [FileResponse(path, media_type, filename, headers)] *)
Record file_response := mkFileResponse {
  f_path : string;
  f_media_type : string;
  f_filename : string;
  f_headers : list (string * string)
}.

(** [MEDIA_DIR / "thumbnails" / size / f"{sha256}.jpeg"]; the media
    directory of the process is an argument. [generateThumbnail]
    writes under [media/thumbnails] whatever [MEDIA_DIR] is. *)
Definition thumb_path (media_dir size sha256 : string) : string :=
  media_dir +:+ "/thumbnails/" +:+ size +:+ "/" +:+ sha256 +:+ ".jpeg".

Definition get_thumbnail (media_dir image_id size : string) (w : world)
  : result file_response :=
  if negb (String.eqb size "small" || String.eqb size "medium") then
    Raise (HTTPException 400 "Invalid thumbnail size")
  else
    match images (db w) !! image_id with
    | None => Raise (HTTPException 404 "Image not found")
    | Some row =>
        match metadata_sha256 row with
        | None => Raise (HTTPException 404 "No thumbnail for failed upload")
        | Some sha256 =>
            match files w !! thumb_path media_dir size sha256 with
            | None => Raise (HTTPException 404 "Thumbnail not generated yet")
            | Some _ =>
                Ok (mkFileResponse (thumb_path media_dir size sha256) "image/jpeg"
                      (sha256 +:+ "_" +:+ size +:+ ".jpeg")
                      [("Cache-Control", "public, max-age=31536000, immutable")])
            end
        end
    end.

End Views.

(** ** app/utils/exifparser.py

    The values an EXIF tag can hold, as Python objects. A dict is the
    list of its items in insertion order. A dict key that is neither a
    string nor an integer (and equals no integer), and an object of a
    class the code does not name, come with their [str()]. *)

Module Exif.

Inductive key : Type :=
| KStr (s : string)
| KInt (n : Z)
| KOther (str : string).

Unset Elimination Schemes.

Inductive value : Type :=
| VBytes (b : list byte)
| VStr (s : string)
| VInt (n : Z)
| VFloat (x : spec_float)
| VBool (b : bool)
| VNone
| VList (l : list value)
| VTuple (l : list value)
| VDict (items : list (key * value))
| VOther (str : string).

Set Elimination Schemes.

(** [str(k)] *)
Definition str_key (k : key) : string :=
  match k with
  | KStr s => s
  | KInt n => pretty n
  | KOther s => s
  end.

(** [b.hex()] *)
Definition hex (b : list byte) : string :=
  List.fold_right
    (fun x r => String (Hashlib.hexdigit (Hashlib.byteZ x / 16))
                  (String (Hashlib.hexdigit (Hashlib.byteZ x mod 16)) r))
    "" b.

(** [d[k] = v] on a dict kept as the list of its items in insertion
    order: a key already there keeps its place and takes the new
    value. *)
Fixpoint setitem (k : string) (v : value) (d : list (string * value))
  : list (string * value) :=
  match d with
  | [] => [(k, v)]
  | (k', v') :: d' =>
      if String.eqb k k' then (k, v) :: d' else (k', v') :: setitem k v d'
  end.

(** [{k: v for k, v in items}] *)
Definition dict_of (items : list (string * value)) : list (string * value) :=
  List.fold_left (fun d kv => setitem (fst kv) (snd kv) d) items [].

Definition as_dict (d : list (string * value)) : value :=
  VDict (List.map (fun kv => (KStr (fst kv), snd kv)) d).

Fixpoint _json_safe (v : value) : value :=
  match v with
  | VBytes b => VStr (hex b)
  | VStr _ | VInt _ | VFloat _ | VBool _ | VNone => v
  | VList l | VTuple l => VList (List.map _json_safe l)
  | VDict items =>
      as_dict (dict_of (List.map (fun kv => (str_key (fst kv), _json_safe (snd kv)))
                                 items))
  | VOther s => VStr s
  end.

(** No key occurs twice, as in every Python dict. *)
Fixpoint keys_unique (keys : list string) : bool :=
  match keys with
  | [] => true
  | k :: keys' => negb (existsb (String.eqb k) keys') && keys_unique keys'
  end.

(** A value made of strings, numbers, booleans, [None], lists and dicts
    with string keys only: what [json.dumps] takes without a
    [TypeError]. *)
Fixpoint plain (v : value) : bool :=
  match v with
  | VBytes _ | VTuple _ | VOther _ => false
  | VStr _ | VInt _ | VFloat _ | VBool _ | VNone => true
  | VList l => forallb plain l
  | VDict items =>
      keys_unique (List.map (fun kv => str_key (fst kv)) items)
      && forallb (fun kv => match fst kv with KStr _ => plain (snd kv) | _ => false end)
                 items
  end.

(** [TAGS.get(tag_id, str(tag_id))] and [GPSTAGS.get(gps_id,
    str(gps_id))]; the two tables are PIL's and are arguments here. *)
Definition tag_name (TAGS : gmap Z string) (tag_id : Z) : string :=
  default (pretty tag_id) (TAGS !! tag_id).

Definition gps_name (GPSTAGS : gmap Z string) (gps_id : key) : string :=
  match gps_id with
  | KInt n => default (pretty n) (GPSTAGS !! n)
  | _ => str_key gps_id
  end.

(** The dict [out] that [extractExif] builds from [exif.items()]. *)
Definition exif_entry (TAGS GPSTAGS : gmap Z string)
    (out : list (string * value)) (item : Z * value) : list (string * value) :=
  let '(tag_id, v) := item in
  let name := tag_name TAGS tag_id in
  match v with
  | VDict items =>
      if String.eqb name "GPSInfo" then
        let gps :=
          List.fold_left
            (fun gps kv => setitem (gps_name GPSTAGS (fst kv)) (_json_safe (snd kv)) gps)
            items [] in
        setitem "GPSInfo" (as_dict gps) out
      else setitem name (_json_safe v) out
  | _ => setitem name (_json_safe v) out
  end.

Definition exif_dict (TAGS GPSTAGS : gmap Z string) (exif : list (Z * value))
  : list (string * value) :=
  List.fold_left (exif_entry TAGS GPSTAGS) exif [].

(** [extractExif], from the items of [im.getexif()] on; [json.dumps] is
    an argument. *)
Definition extractExif (TAGS GPSTAGS : gmap Z string) (dumps : value -> string)
    (exif : list (Z * value)) : string :=
  match exif with
  | [] => "{}"
  | _ :: _ => dumps (as_dict (exif_dict TAGS GPSTAGS exif))
  end.

End Exif.

(** ** Histories in which [uuid4] never repeats an identifier *)

Module Histories.

Import Schema Api.

(** The kind of a job and the content hash it works on. *)
Definition job_key (j : job) : string * string :=
  match j with
  | thumbnail_job h _ => ("thumbnail", h)
  | exif_job h _ => ("exif", h)
  | caption_job h _ _ => ("caption", h)
  end.

(** Every upload of the history comes with an identifier that has no
    [images] row when the upload is made. *)
Fixpoint ids_fresh (dec : PIL.decoder) (t : tools) (evs : list event)
    (w : world) : Prop :=
  match evs with
  | [] => True
  | ev :: evs' =>
      match ev with
      | Upload e _ => images (db w) !! uuid4_hex e = None
      | Work _ _ => True
      end /\ ids_fresh dec t evs' (step dec t w ev)
  end.

(** The jobs the uploads of a history have put on the queue, in order,
    whether or not a worker has taken them since. *)
Fixpoint enqueued (dec : PIL.decoder) (t : tools) (evs : list event)
    (w : world) : list job :=
  match evs with
  | [] => []
  | ev :: evs' =>
      match ev with
      | Upload _ _ =>
          List.skipn (List.length (queue w)) (queue (step dec t w ev))
      | Work _ _ => []
      end ++ enqueued dec t evs' (step dec t w ev)
  end.

(** Every ContentRecord is keyed by the SHA-256 of a non-empty payload
    whose length it records, and its declared pixel count is within the
    ceiling. *)
Definition metadata_wellformed (d : database) : Prop :=
  forall h r, metadata d !! h = Some r ->
    exists data, data <> [] /\
      h = Hashlib.sha256_hexdigest data /\
      size_bytes r = Z.of_nat (List.length data) /\
      width r * height r <= 50000000.

(** The answers of the upload calls of a history, in order. *)
Fixpoint responses (dec : PIL.decoder) (t : tools) (evs : list event)
    (w : world) : list (result item) :=
  match evs with
  | [] => []
  | ev :: evs' =>
      match ev with
      | Upload e file => [snd (upload_img dec e file w)]
      | Work _ _ => []
      end ++ responses dec t evs' (step dec t w ev)
  end.

(** An upload answered with a failed item. *)
Definition rejected (r : result item) : bool :=
  match r with
  | Ok it => String.eqb (i_status it) "failed"
  | Raise _ => false
  end.

(** Every caption job that waits is for an attempt whose outcome has
    status 1. *)
Definition captions_for_accepted (w : world) : Prop :=
  forall h p i, caption_job h p i ∈ queue w ->
    exists r, stats (db w) !! i = Some r /\ status r = 1.

End Histories.

(** ** Predicates for the further properties *)

Module Shapes.

(** [c in s] *)
Fixpoint contains (c : ascii) (s : string) : bool :=
  match s with
  | EmptyString => false
  | String d r => Ascii.eqb d c || contains c r
  end.

(** The first two checks of [validate], as the code writes them. *)
Definition ext_allowed (file : Validator.UploadFile) : bool :=
  bool_decide (Design.extension_of file ∈ Validator.ALLOWED_EXTENSIONS).

Definition mime_allowed (file : Validator.UploadFile) : bool :=
  bool_decide (Design.mime_of file ∈ Validator.ALLOWED_MIME).

(** A PNG whose header declares 10000 x 10000 pixels. *)
Definition big_png : Validator.UploadFile :=
  Samples.upload "big.png" "image/png" (HeaderDecoder.png_declaring 10000 10000).

End Shapes.

(** * Properties *)

(** ** The validator *)

Section ValidatorFacts.

Import Validator Design.

Lemma allowed_extension_one_of (x : string) :
  bool_decide (x ∈ ALLOWED_EXTENSIONS) = one_of [".jpg"; ".jpeg"; ".png"] x.
Proof.
  unfold ALLOWED_EXTENSIONS, one_of; simpl.
  destruct (String.eqb_spec x ".jpg") as [E|H1]; [subst x; reflexivity|].
  destruct (String.eqb_spec x ".jpeg") as [E|H2]; [subst x; reflexivity|].
  destruct (String.eqb_spec x ".png") as [E|H3]; [subst x; reflexivity|].
  apply bool_decide_eq_false.
  rewrite !elem_of_union, !elem_of_singleton. intuition congruence.
Qed.

Lemma allowed_mime_one_of (x : string) :
  bool_decide (x ∈ ALLOWED_MIME) = one_of ["image/jpeg"; "image/png"] x.
Proof.
  unfold ALLOWED_MIME, one_of; simpl.
  destruct (String.eqb_spec x "image/jpeg") as [E|H1]; [subst x; reflexivity|].
  destruct (String.eqb_spec x "image/png") as [E|H2]; [subst x; reflexivity|].
  apply bool_decide_eq_false.
  rewrite !elem_of_union, !elem_of_singleton. intuition congruence.
Qed.

(** The table [SIGNATURES] holds the two signatures of the design, and
    nothing for any other type. *)
Lemma match_signature_magic (mime : string) (data : list byte) :
  match_signature mime data = signature_matches mime data.
Proof.
  unfold match_signature, signature_matches, magic, SIGNATURES.
  destruct (String.eqb_spec mime "image/jpeg") as [E|H1].
  { subst mime. simplify_map_eq. simpl. apply orb_false_r. }
  destruct (String.eqb_spec mime "image/png") as [E|H2].
  { subst mime. simplify_map_eq. simpl. apply orb_false_r. }
  simplify_map_eq. reflexivity.
Qed.

(** An exception of [pil_validate] is the 400 of a corrupt image, or
    the decoder's own exception of a class the handler does not name. *)
Lemma pil_validate_rejection (dec : PIL.decoder) (data : list byte)
    (max_pixels : Z) (e : exn) :
  pil_validate dec data max_pixels = Raise e ->
  e = HTTPException 400 "Invalid or corrupted image" \/ exists cls, e = PyError cls.
Proof.
  unfold pil_validate, pil_validate_run.
  destruct (PIL.open dec data) as [err|img]; simpl.
  - destruct err; intros [= <-]; eauto.
  - destruct (PIL.size img) as [w h].
    destruct (w * h >? max_pixels); simpl; [discriminate|].
    destruct (PIL.verify dec data img) as [err|]; simpl; [|discriminate].
    destruct err; intros [= <-]; eauto.
Qed.

(** [validate] against the ordered checks of the design. *)
Lemma validate_first_failure (dec : PIL.decoder) (file : UploadFile) :
  match first_failure (checks dec file) with
  | Some r =>
      if cheap r then
        (exists e, validate dec file = Raise e /\ rejection_of e = Some r) /\
        fst (validate_run dec file) = []
      else
        exists e,
          pil_validate dec (body file) 50000000 = Raise e /\
          validate dec file = Raise e /\
          (e = HTTPException 400 "Invalid or corrupted image" \/
           exists cls, e = PyError cls)
  | None =>
      exists w h fmt,
        pil_validate dec (body file) 50000000 = Ok (w, h, fmt) /\
        validate dec file =
          Ok (mkValidatedUpload (extension_of file) (mime_of file) (body file)
                (Hashlib.sha256_hexdigest (body file)) w h fmt)
  end.
Proof.
  unfold checks, validate, validate_run, extension_of, mime_of, first_failure.
  rewrite <- allowed_extension_one_of, <- allowed_mime_one_of,
    <- match_signature_magic.
  set (x := get_ext _). set (m := PyStr.lower _).
  destruct (bool_decide (x ∈ ALLOWED_EXTENSIONS)); simpl.
  2:{ split; [|reflexivity]. eexists; split; reflexivity. }
  destruct (bool_decide (m ∈ ALLOWED_MIME)); simpl.
  2:{ split; [|reflexivity]. eexists; split; reflexivity. }
  destruct (body file) as [|b data] eqn:Hbody; simpl.
  { split; [|reflexivity]. eexists; split; reflexivity. }
  destruct (match_signature m (b :: data)); simpl.
  2:{ split; [|reflexivity]. eexists; split; reflexivity. }
  fold MAX_PIXELS. unfold pil_validate.
  destruct (pil_validate_run dec (b :: data) MAX_PIXELS) as [calls r] eqn:Hrun.
  simpl. destruct r as [[[w h] fmt]|e]; simpl.
  - exists w, h, fmt. split; reflexivity.
  - exists e. split; [reflexivity|]. split; [reflexivity|].
    apply (pil_validate_rejection dec (b :: data) MAX_PIXELS).
    unfold pil_validate. rewrite Hrun. reflexivity.
Qed.

(** What a successful validation returns, and what made it succeed. *)
Lemma validate_ok_inv (dec : PIL.decoder) (file : UploadFile)
    (v : ValidatedUpload) :
  validate dec file = Ok v ->
  one_of [".jpg"; ".jpeg"; ".png"] (extension_of file) = true /\
  one_of ["image/jpeg"; "image/png"] (mime_of file) = true /\
  body file <> [] /\
  signature_matches (mime_of file) (body file) = true /\
  pil_validate dec (body file) 50000000 = Ok (width v, height v, format v) /\
  v = mkValidatedUpload (extension_of file) (mime_of file) (body file)
        (Hashlib.sha256_hexdigest (body file)) (width v) (height v) (format v).
Proof.
  intros Hv. pose proof (validate_first_failure dec file) as H.
  unfold checks, first_failure in H.
  destruct (one_of _ (extension_of file)).
  2:{ destruct H as [[e [He _]] _]; congruence. }
  destruct (one_of _ (mime_of file)).
  2:{ destruct H as [[e [He _]] _]; congruence. }
  destruct (body file) as [|b data] eqn:Hbody.
  { destruct H as [[e [He _]] _]; congruence. }
  simpl in H. destruct (signature_matches _ _).
  2:{ destruct H as [[e [He _]] _]; congruence. }
  destruct (is_ok _).
  2:{ simpl in H. destruct H as (e & _ & He & _); congruence. }
  destruct H as (w & h & fmt & Hpil & Hval).
  rewrite Hv in Hval. injection Hval as ->. simpl.
  repeat split; try reflexivity; try congruence.
Qed.

(** An exception of [validate] is a 400 that stands for one of the
    five rejections, or the decoder's own exception of a class the
    handler of [pil_validate] does not name. *)
Lemma validate_raise_inv (dec : PIL.decoder) (file : UploadFile) (e : exn) :
  validate dec file = Raise e ->
  (exists detail r, e = HTTPException 400 detail /\ rejection_of e = Some r) \/
  (exists cls, e = PyError cls).
Proof.
  intros He. pose proof (validate_first_failure dec file) as H.
  destruct (first_failure _) as [r|].
  - destruct (cheap r) eqn:Hcheap.
    + left. destruct H as [[e' [He' Hr]] _]. rewrite He in He'. injection He' as <-.
      destruct e as [code detail| | |]; try discriminate.
      simpl in Hr. destruct (Z.eqb_spec code 400) as [->|]; [|discriminate].
      exists detail, r. split; [reflexivity|exact Hr].
    + destruct H as (e' & _ & He' & [-> | Hcls]).
      * left. rewrite He in He'. injection He' as ->. eauto.
      * right. rewrite He in He'. injection He' as ->. exact Hcls.
  - destruct H as (w & h & fmt & _ & Hval). congruence.
Qed.

(** C5. A non-empty payload whose leading bytes are not the magic
    signature of the declared content type is never accepted, and the
    decoder is not even called; when the extension and the declared MIME
    type are both allowed, the rejection is SignatureMismatch (with the
    message "File bytes do not match image type"). *)
Theorem signature_mismatch_rejected (dec : PIL.decoder) (file : UploadFile) :
  body file <> [] ->
  signature_matches (mime_of file) (body file) = false ->
  (exists e, validate dec file = Raise e) /\
  fst (validate_run dec file) = [] /\
  (one_of [".jpg"; ".jpeg"; ".png"] (extension_of file) = true ->
   one_of ["image/jpeg"; "image/png"] (mime_of file) = true ->
   validate dec file = Raise (HTTPException 400 "File bytes do not match image type") /\
   rejection_of (HTTPException 400 "File bytes do not match image type")
     = Some SignatureMismatch).
Proof.
  intros Hne Hsig. pose proof (validate_first_failure dec file) as H.
  unfold checks, first_failure in H. rewrite Hsig in H.
  destruct (body file) as [|b data] eqn:Hbody; [congruence|].
  destruct (one_of _ (extension_of file)) eqn:Hext;
    [destruct (one_of _ (mime_of file)) eqn:Hmime|];
    simpl in H; destruct H as [[e [He Hr]] Hcalls];
    (split; [exists e; exact He|]); (split; [exact Hcalls|]);
    try discriminate.
  intros _ _. split; [|reflexivity].
  rewrite He. f_equal.
  revert He. unfold validate, validate_run.
  fold (extension_of file). fold (mime_of file).
  rewrite allowed_extension_one_of, allowed_mime_one_of, Hext, Hmime, Hbody,
    match_signature_magic, Hsig. simpl. congruence.
Qed.

(** C5, at the design's example: a text file renamed [.png] and sent as
    [image/png]. *)
Lemma signature_mismatch_rejected_witness :
  validate HeaderDecoder.dec Samples.text_renamed_png
    = Raise (HTTPException 400 "File bytes do not match image type").
Proof.
  apply (signature_mismatch_rejected HeaderDecoder.dec Samples.text_renamed_png);
    [discriminate | reflexivity | reflexivity | reflexivity].
Defined.

(** [pil_validate] once the decoder has opened the file, for any pixel
    ceiling. *)
Lemma pil_validate_run_cases (dec : PIL.decoder) (data : list byte)
    (max_pixels : Z) (img : PIL.image) (w h : Z) :
  PIL.open dec data = inr img -> PIL.size img = (w, h) ->
  pil_validate_run dec data max_pixels =
    if w * h >? max_pixels then ([PIL.CallOpen], Ok (0, 0, ""))
    else ([PIL.CallOpen; PIL.CallVerify],
          match PIL.verify dec data img with
          | Some e => Raise (on_pil_error e)
          | None => Ok (w, h, PyStr.lower (PIL.format img))
          end).
Proof.
  intros Hopen Hsize. unfold pil_validate_run. rewrite Hopen, Hsize.
  destruct (w * h >? max_pixels); [reflexivity|].
  destruct (PIL.verify dec data img) as [e|]; reflexivity.
Qed.

(** C6. What the code does at the two inputs where it departs from the
    claim, and what it does in general.

    A PNG whose header declares 20000 x 20000 pixels is above the
    ceiling, and decoder-level validation does not return the sentinel:
    [Image.open] itself refuses the header with
    [DecompressionBombError], which the handler does not catch. A PNG
    within the ceiling whose data chunk has a wrong checksum is a decode
    error, and the outcome is not CorruptImage: [verify] raises
    [SyntaxError], which the handler does not catch either.

    For every decoder and payload: an exception of [open] or [verify]
    leaves [pil_validate] as the handler maps it; when the decoder opens
    the file and the header declares more than 50,000,000 pixels the
    result is the sentinel [(0, 0)] with an empty format and [verify]
    is not called; at or below the ceiling [verify] is called and, when
    it passes, the declared size and the lower-cased format come back.
    The handler maps [UnidentifiedImageError] and [OSError] to the 400
    that stands for CorruptImage and leaves every other class as it
    is. *)
Theorem decompression_bomb_guard :
  (pil_validate HeaderDecoder.dec (HeaderDecoder.png_declaring 20000 20000) 50000000
     = Raise (PyError "DecompressionBombError") /\
   pil_validate HeaderDecoder.dec (HeaderDecoder.png_bad_checksum 10 10) 50000000
     = Raise (PyError "SyntaxError") /\
   fst (pil_validate_run HeaderDecoder.dec (HeaderDecoder.png_bad_checksum 10 10)
          50000000) = [PIL.CallOpen; PIL.CallVerify]) /\
  (forall (dec : PIL.decoder) (data : list byte),
     (forall e, PIL.open dec data = inl e ->
        pil_validate dec data 50000000 = Raise (on_pil_error e)) /\
     (forall img w h, PIL.open dec data = inr img -> PIL.size img = (w, h) ->
        (w * h > 50000000 ->
           pil_validate_run dec data 50000000 = ([PIL.CallOpen], Ok (0, 0, ""))) /\
        (w * h <= 50000000 ->
           fst (pil_validate_run dec data 50000000) = [PIL.CallOpen; PIL.CallVerify] /\
           (forall e, PIL.verify dec data img = Some e ->
              pil_validate dec data 50000000 = Raise (on_pil_error e)) /\
           (PIL.verify dec data img = None ->
              pil_validate dec data 50000000
                = Ok (w, h, PyStr.lower (PIL.format img)))))) /\
  (on_pil_error PIL.UnidentifiedImageError
     = HTTPException 400 "Invalid or corrupted image" /\
   on_pil_error PIL.OSError = HTTPException 400 "Invalid or corrupted image" /\
   rejection_of (HTTPException 400 "Invalid or corrupted image") = Some CorruptImage /\
   forall cls, on_pil_error (PIL.OtherError cls) = PyError cls /\
               rejection_of (PyError cls) = None).
Proof.
  split; [|split].
  - split; [vm_compute; reflexivity|]. split; vm_compute; reflexivity.
  - intros dec data. split.
    + intros e He. unfold pil_validate, pil_validate_run. rewrite He. reflexivity.
    + intros img w h Hopen Hsize.
      unfold pil_validate.
      rewrite (pil_validate_run_cases dec data 50000000 img w h Hopen Hsize).
      split.
      * intros Hgt.
        assert (Hcmp : (w * h >? 50000000) = true) by (apply Z.gtb_lt; lia).
        rewrite Hcmp. reflexivity.
      * intros Hle. destruct (w * h >? 50000000) eqn:Hcmp.
        { apply Z.gtb_lt in Hcmp. lia. }
        simpl. split; [reflexivity|]. split.
        -- intros e ->. reflexivity.
        -- intros ->. reflexivity.
  - repeat split; reflexivity.
Qed.

(** C6 on two files within what the claim says: a PNG header declaring
    10000 x 10000 pixels, and the picture of 12 x 7. *)
Lemma decompression_bomb_guard_witness :
  pil_validate_run HeaderDecoder.dec (HeaderDecoder.png_declaring 10000 10000) 50000000
    = ([PIL.CallOpen], Ok (0, 0, "")) /\
  pil_validate HeaderDecoder.dec (HeaderDecoder.png 12 7) 50000000
    = Ok (12, 7, "png").
Proof.
  destruct decompression_bomb_guard as (_ & Hall & _).
  destruct (Hall HeaderDecoder.dec (HeaderDecoder.png_declaring 10000 10000))
    as [_ Hbig].
  destruct (Hall HeaderDecoder.dec (HeaderDecoder.png 12 7)) as [_ Hsmall].
  split.
  - apply (Hbig (PIL.mkImage (10000, 10000) "PNG") 10000 10000);
      [vm_compute; reflexivity | reflexivity | reflexivity].
  - apply (Hsmall (PIL.mkImage (12, 7) "PNG") 12 7);
      [vm_compute; reflexivity | reflexivity | discriminate | vm_compute; reflexivity].
Defined.

(** The guard of the repository's own test: 200 x 200 under a ceiling
    of ten pixels. *)
Example pil_validate_guard_test :
  pil_validate HeaderDecoder.dec (HeaderDecoder.png 200 200) 10 = Ok (0, 0, "").
Proof. vm_compute. reflexivity. Qed.

(** *** The content hash *)

(** [hashlib.sha256] on the test vectors of FIPS 180-4: the empty
    message, one block, two blocks. *)
Example sha256_empty :
  Hashlib.sha256_hexdigest []
    = "e3b0c44298fc1c149afbf4c8996fb92427ae41e4649b934ca495991b7852b855".
Proof. vm_compute. reflexivity. Qed.

Example sha256_abc :
  Hashlib.sha256_hexdigest (bytes_of_string "abc")
    = "ba7816bf8f01cfea414140de5dae2223b00361a396177a9cb410ff61f20015ad".
Proof. vm_compute. reflexivity. Qed.

Example sha256_two_blocks :
  Hashlib.sha256_hexdigest
    (bytes_of_string "abcdbcdecdefdefgefghfghighijhijkijkljklmklmnlmnomnopnopq")
    = "248d6a61d20638b8e5c026930c3e6039a33ce45964ff2167f6ecedd419db06c1".
Proof. vm_compute. reflexivity. Qed.

Lemma hexdigest_length (s : Hashlib.state) :
  String.length (Hashlib.hexdigest s) = 64%nat.
Proof. reflexivity. Qed.

Lemma hexdigit_is_hex (x : Z) :
  Hashlib.is_hex (Hashlib.hexdigit (x mod 16)) = true.
Proof.
  assert (H : 0 <= x mod 16 < 16) by (apply Z.mod_pos_bound; lia).
  set (d := x mod 16) in *. clearbody d.
  assert (Hd : d = 0 \/ d = 1 \/ d = 2 \/ d = 3 \/ d = 4 \/ d = 5 \/ d = 6 \/
               d = 7 \/ d = 8 \/ d = 9 \/ d = 10 \/ d = 11 \/ d = 12 \/
               d = 13 \/ d = 14 \/ d = 15) by lia.
  repeat (destruct Hd as [->|Hd]; [reflexivity|]). subst d. reflexivity.
Qed.

Lemma hexdigest_is_hex (s : Hashlib.state) :
  forallb Hashlib.is_hex (list_ascii_of_string (Hashlib.hexdigest s)) = true.
Proof.
  unfold Hashlib.hexdigest, Hashlib.hex_word.
  cbn [list_ascii_of_string forallb].
  rewrite !hexdigit_is_hex. reflexivity.
Qed.

(** C7. The hash of an accepted upload is the SHA-256 of the very
    bytes that were uploaded, which the result also carries unchanged,
    written as 64 lower-case hexadecimal digits; any other accepted
    upload of the same bytes, whatever its file name, its declared
    content type or the decoder's answer, gets the same hash. That the
    digest is SHA-256 is checked on the test vectors of FIPS 180-4 (the
    empty message, one block, two blocks). *)
Theorem content_hash_is_sha256 (dec : PIL.decoder) (file : UploadFile)
    (v : ValidatedUpload) :
  validate dec file = Ok v ->
  bytes v = body file /\
  sha256 v = Hashlib.sha256_hexdigest (body file) /\
  String.length (sha256 v) = 64%nat /\
  forallb Hashlib.is_hex (list_ascii_of_string (sha256 v)) = true /\
  (forall dec' file' v',
     body file' = body file -> validate dec' file' = Ok v' ->
     sha256 v' = sha256 v) /\
  Hashlib.sha256_hexdigest []
    = "e3b0c44298fc1c149afbf4c8996fb92427ae41e4649b934ca495991b7852b855" /\
  Hashlib.sha256_hexdigest (bytes_of_string "abc")
    = "ba7816bf8f01cfea414140de5dae2223b00361a396177a9cb410ff61f20015ad" /\
  Hashlib.sha256_hexdigest
    (bytes_of_string "abcdbcdecdefdefgefghfghighijhijkijkljklmklmnlmnomnopnopq")
    = "248d6a61d20638b8e5c026930c3e6039a33ce45964ff2167f6ecedd419db06c1".
Proof.
  intros Hv. destruct (validate_ok_inv dec file v Hv) as (_ & _ & _ & _ & _ & Heq).
  assert (Hsha : sha256 v = Hashlib.sha256_hexdigest (body file))
    by (rewrite Heq; reflexivity).
  split; [rewrite Heq; reflexivity|]. split; [exact Hsha|].
  rewrite Hsha. split; [apply hexdigest_length|].
  split; [apply hexdigest_is_hex|].
  split.
  { intros dec' file' v' Hbody Hv'.
    destruct (validate_ok_inv dec' file' v' Hv') as (_ & _ & _ & _ & _ & Heq').
    rewrite Heq'. simpl. rewrite Hbody. reflexivity. }
  split; [exact sha256_empty|]. split; [exact sha256_abc | exact sha256_two_blocks].
Qed.

(** C7 on the 10 x 10 PNG uploaded as [photo.jpg]: the 178 bytes of the
    file and the digest [hashlib.sha256] gives for them. *)
Lemma content_hash_is_sha256_witness :
  exists v,
    validate HeaderDecoder.dec Samples.png_named_jpg = Ok v /\
    List.length (bytes v) = 178%nat /\
    sha256 v = "a73a2afaec411be4c4bde52157ec77ee1dbe5b3bd73d42b63bd16c1a22240664" /\
    String.length (sha256 v) = 64%nat.
Proof.
  pose proof (content_hash_is_sha256 HeaderDecoder.dec Samples.png_named_jpg) as H.
  destruct (validate HeaderDecoder.dec Samples.png_named_jpg) as [v|e] eqn:Hv.
  - exists v. destruct (H v eq_refl) as (Hbytes & Hsha & Hlen & _).
    split; [reflexivity|].
    split; [rewrite Hbytes; vm_compute; reflexivity|].
    split; [rewrite Hsha; vm_compute; reflexivity | exact Hlen].
  - vm_compute in Hv. discriminate Hv.
Defined.

(** *** Extension and MIME type are not compared with each other *)

Lemma signature_matches_nonempty (mime : string) (data : list byte) :
  signature_matches mime data = true -> data <> [].
Proof.
  unfold signature_matches, magic. intros H ->.
  destruct (String.eqb mime "image/jpeg"); [discriminate|].
  destruct (String.eqb mime "image/png"); discriminate.
Qed.

(** C10, as stated, fails on two uploads that both carry the PNG
    signature, the content type [image/png] and a name ending in
    [.jpg]: one whose bytes after the signature are not a PNG (the
    decoder rejects it), and one named just [.jpg], which has no
    extension at all. *)
Lemma extension_mime_mismatch_counterexample :
  (ends_with "x.jpg" ".jpg" = true /\
   content_type Samples.truncated_png = Some "image/png" /\
   bytes_startswith (body Samples.truncated_png) PNG_SIGNATURE = true /\
   validate HeaderDecoder.dec Samples.truncated_png
     = Raise (HTTPException 400 "Invalid or corrupted image")) /\
  (ends_with ".jpg" ".jpg" = true /\
   content_type Samples.png_named_dot_jpg = Some "image/png" /\
   bytes_startswith (body Samples.png_named_dot_jpg) PNG_SIGNATURE = true /\
   forall dec, validate dec Samples.png_named_dot_jpg
                 = Raise (HTTPException 400 "Bad Extension none")).
Proof.
  repeat split; try reflexivity.
Qed.

(** C10, amended. The extension and the declared MIME type are checked
    each against its own set and never against each other: whatever
    allowed extension the file name has, a payload that starts with the
    signature of its declared, allowed MIME type and passes decoder-level
    validation is accepted, with the extension and the MIME type as
    given. *)
Theorem extension_and_mime_checked_independently (dec : PIL.decoder)
    (file : UploadFile) (w h : Z) (fmt : string) :
  one_of [".jpg"; ".jpeg"; ".png"] (extension_of file) = true ->
  one_of ["image/jpeg"; "image/png"] (mime_of file) = true ->
  signature_matches (mime_of file) (body file) = true ->
  pil_validate dec (body file) 50000000 = Ok (w, h, fmt) ->
  validate dec file =
    Ok (mkValidatedUpload (extension_of file) (mime_of file) (body file)
          (Hashlib.sha256_hexdigest (body file)) w h fmt).
Proof.
  intros Hext Hmime Hsig Hpil.
  pose proof (validate_first_failure dec file) as H.
  pose proof (signature_matches_nonempty _ _ Hsig) as Hne.
  unfold checks, first_failure in H.
  rewrite Hext, Hmime, Hsig, Hpil in H.
  destruct (body file) as [|b data]; [congruence|].
  simpl in H. destruct H as (w' & h' & fmt' & [= <- <- <-] & Hval).
  exact Hval.
Qed.

(** C10, amended, on PNG bytes sent as [image/png] under the name
    [photo.jpg], and on JPEG bytes sent as [image/jpeg] under
    [photo.png]. *)
Lemma extension_and_mime_checked_independently_witness :
  (exists v, validate HeaderDecoder.dec Samples.png_named_jpg = Ok v /\
             ext v = ".jpg" /\ mime v = "image/png") /\
  (exists v, validate HeaderDecoder.dec Samples.jpeg_named_png = Ok v /\
             ext v = ".png" /\ mime v = "image/jpeg").
Proof.
  split.
  - eexists. split.
    + apply (extension_and_mime_checked_independently HeaderDecoder.dec
               Samples.png_named_jpg 10 10 "png"); reflexivity.
    + split; reflexivity.
  - eexists. split.
    + apply (extension_and_mime_checked_independently HeaderDecoder.dec
               Samples.jpeg_named_png 10 10 "jpeg"); reflexivity.
    + split; reflexivity.
Defined.

End ValidatorFacts.

(** ** The upload path *)

Section UploadFacts.

Import Schema Api Rows.

Lemma enqueue_all_length (accepts : nat) (jobs q : list job) :
  enqueue_all accepts jobs q
    = (q ++ List.firstn accepts jobs, (accepts <? List.length jobs)%nat).
Proof.
  revert accepts q. induction jobs as [|j jobs IH]; intros accepts q.
  - destruct accepts; simpl; rewrite app_nil_r; reflexivity.
  - destruct accepts as [|a]; simpl.
    + rewrite app_nil_r. reflexivity.
    + rewrite IH, <- app_assoc. reflexivity.
Qed.

(** In a consistent database an identifier without an [images] row
    has no [stats] row either. *)
Lemma fresh_in_stats (d : database) (k : string) :
  consistent d -> images d !! k = None -> stats d !! k = None.
Proof.
  intros [Hs _] Hk. destruct (stats d !! k) as [r|] eqn:Hr; [|reflexivity].
  destruct (Hs k r Hr) as [x Hx]. congruence.
Qed.

(** The call on a rejected upload. *)
Lemma upload_img_rejected (dec : PIL.decoder) (e : env)
    (file : Validator.UploadFile) (w : world) (code : Z) (reason : string) :
  Validator.validate dec file = Raise (HTTPException code reason) ->
  images (db w) !! uuid4_hex e = None ->
  stats (db w) !! uuid4_hex e = None ->
  upload_img dec e file w =
    (mkWorld
       (mkDatabase (metadata (db w))
          (<[uuid4_hex e := failed_attempt e file reason]> (images (db w)))
          (<[uuid4_hex e := mkStats (now e) None 0]> (stats (db w))))
       (files w) (queue w) (log w),
     Ok (failed_item e file reason)).
Proof.
  intros Hv Hi Hs. unfold upload_img. rewrite Hv.
  unfold insert_images, insert_stats, bind. simpl.
  rewrite Hi. simpl. rewrite Hs. rewrite lookup_insert_eq. reflexivity.
Qed.

(** The call on an accepted upload that the disk refuses: the 500 when
    what was written can be removed, and the exception of [unlink]
    when it cannot. *)
Lemma upload_img_disk_failure (dec : PIL.decoder) (e : env)
    (file : Validator.UploadFile) (w : world) (v : Validator.ValidatedUpload) :
  Validator.validate dec file = Ok v ->
  disk_ok e = false ->
  upload_img dec e file w =
    match unlink_raises e with
    | None =>
        (mkWorld (db w) (delete (destination_of e file) (files w)) (queue w) (log w),
         Raise (HTTPException 500 "Failed to save image"))
    | Some cls =>
        (mkWorld (db w)
           (match partial e with
            | Some rest => <[destination_of e file := rest]> (files w)
            | None => files w
            end)
           (queue w) (log w),
         Raise (PyError cls))
    end.
Proof.
  intros Hv Hd. unfold upload_img. rewrite Hv, Hd. reflexivity.
Qed.

(** The call on an accepted, stored upload of content seen for the
    first time. *)
Lemma upload_img_new_content (dec : PIL.decoder) (e : env)
    (file : Validator.UploadFile) (w : world) (v : Validator.ValidatedUpload) :
  Validator.validate dec file = Ok v ->
  disk_ok e = true ->
  images (db w) !! uuid4_hex e = None ->
  stats (db w) !! uuid4_hex e = None ->
  metadata (db w) !! Validator.sha256 v = None ->
  upload_img dec e file w =
    (mkWorld
       (mkDatabase
          (<[Validator.sha256 v := content_record e v]> (metadata (db w)))
          (<[uuid4_hex e := accepted_attempt e file v]> (images (db w)))
          (<[uuid4_hex e := mkStats (now e) None 1]> (stats (db w))))
       (<[destination_of e file := Validator.bytes v]> (files w))
       (queue w ++ List.firstn (queue_accepts e) (processing_jobs e file v))
       (if (queue_accepts e <? 3)%nat
        then log w ++ [failed_to_enqueue (Validator.sha256 v) (uuid4_hex e)]
        else log w),
     Ok (success_item e file v)).
Proof.
  intros Hv Hd Hi Hs Hm. unfold upload_img. rewrite Hv, Hd. simpl.
  unfold insert_or_ignore_metadata. rewrite Hm. simpl.
  rewrite enqueue_all_length. simpl List.length.
  unfold insert_images, insert_stats, bind. simpl.
  rewrite Hi. rewrite lookup_insert_eq. simpl. rewrite Hs.
  rewrite lookup_insert_eq.
  destruct (queue_accepts e <? 3)%nat; reflexivity.
Qed.

(** The call on an accepted, stored upload of content already known. *)
Lemma upload_img_known_content (dec : PIL.decoder) (e : env)
    (file : Validator.UploadFile) (w : world) (v : Validator.ValidatedUpload)
    (known : metadata_row) :
  Validator.validate dec file = Ok v ->
  disk_ok e = true ->
  images (db w) !! uuid4_hex e = None ->
  stats (db w) !! uuid4_hex e = None ->
  metadata (db w) !! Validator.sha256 v = Some known ->
  upload_img dec e file w =
    (mkWorld
       (mkDatabase
          (metadata (db w))
          (<[uuid4_hex e := accepted_attempt e file v]> (images (db w)))
          (<[uuid4_hex e := mkStats (now e) None 1]> (stats (db w))))
       (<[destination_of e file := Validator.bytes v]> (files w))
       (queue w) (log w),
     Ok (success_item e file v)).
Proof.
  intros Hv Hd Hi Hs Hm. unfold upload_img. rewrite Hv, Hd. simpl.
  unfold insert_or_ignore_metadata. rewrite Hm. simpl.
  unfold insert_images, insert_stats, bind. simpl.
  rewrite Hi, Hm. simpl. rewrite Hs. rewrite lookup_insert_eq. reflexivity.
Qed.

(** C1. Two upload calls that carry the same bytes and both pass
    validation, made one after the other on a database that has not
    seen these bytes (each with a fresh identifier, the disk storing
    both files): the hash is the same; the metadata table gains exactly
    one row, the ContentRecord made by the first call, whose insert
    reports a new row while the second call's reports none; the
    processing jobs are enqueued by the first call only (all three of
    them, thumbnail, EXIF and caption, when the queue takes them) and
    nothing is enqueued by the second; and each call adds its own
    [images] row and its own [stats] row. *)
Theorem duplicate_upload_dedup (dec : PIL.decoder) (e1 e2 : env)
    (f1 f2 : Validator.UploadFile) (v1 v2 : Validator.ValidatedUpload)
    (w : world) :
  Validator.validate dec f1 = Ok v1 ->
  Validator.validate dec f2 = Ok v2 ->
  Validator.body f1 = Validator.body f2 ->
  disk_ok e1 = true -> disk_ok e2 = true ->
  consistent (db w) ->
  images (db w) !! uuid4_hex e1 = None ->
  images (db w) !! uuid4_hex e2 = None ->
  uuid4_hex e1 <> uuid4_hex e2 ->
  metadata (db w) !! Validator.sha256 v1 = None ->
  let w1 := fst (upload_img dec e1 f1 w) in
  let w2 := fst (upload_img dec e2 f2 w1) in
  Validator.sha256 v2 = Validator.sha256 v1 /\
  metadata (db w2)
    = <[Validator.sha256 v1 := content_record e1 v1]> (metadata (db w)) /\
  size (metadata (db w2)) = S (size (metadata (db w))) /\
  snd (insert_or_ignore_metadata (Validator.sha256 v1) (content_record e1 v1) (db w)) = 1 /\
  snd (insert_or_ignore_metadata (Validator.sha256 v2) (content_record e2 v2) (db w1)) = 0 /\
  queue w1
    = queue w ++ List.firstn (queue_accepts e1) (processing_jobs e1 f1 v1) /\
  ((3 <= queue_accepts e1)%nat ->
     queue w1 = queue w ++ processing_jobs e1 f1 v1) /\
  queue w2 = queue w1 /\
  images (db w2)
    = <[uuid4_hex e2 := accepted_attempt e2 f2 v2]>
        (<[uuid4_hex e1 := accepted_attempt e1 f1 v1]> (images (db w))) /\
  stats (db w2)
    = <[uuid4_hex e2 := mkStats (now e2) None 1]>
        (<[uuid4_hex e1 := mkStats (now e1) None 1]> (stats (db w))) /\
  size (images (db w2)) = S (S (size (images (db w)))) /\
  size (stats (db w2)) = S (S (size (stats (db w)))) /\
  snd (upload_img dec e1 f1 w) = Ok (success_item e1 f1 v1) /\
  snd (upload_img dec e2 f2 w1) = Ok (success_item e2 f2 v2).
Proof.
  intros Hv1 Hv2 Hbody Hd1 Hd2 Hcons Hi1 Hi2 Hne Hm w1 w2.
  pose proof (fresh_in_stats _ _ Hcons Hi1) as Hs1.
  pose proof (fresh_in_stats _ _ Hcons Hi2) as Hs2.
  assert (Hsha : Validator.sha256 v2 = Validator.sha256 v1).
  { destruct (validate_ok_inv dec f1 v1 Hv1) as (_ & _ & _ & _ & _ & E1).
    destruct (validate_ok_inv dec f2 v2 Hv2) as (_ & _ & _ & _ & _ & E2).
    rewrite E1, E2. simpl. rewrite Hbody. reflexivity. }
  pose proof (upload_img_new_content dec e1 f1 w v1 Hv1 Hd1 Hi1 Hs1 Hm) as H1.
  assert (Hw1 : w1 = fst (upload_img dec e1 f1 w)) by reflexivity.
  rewrite H1 in Hw1. simpl in Hw1.
  assert (Hi2' : images (db w1) !! uuid4_hex e2 = None).
  { rewrite Hw1. simpl. rewrite lookup_insert_ne by exact Hne. exact Hi2. }
  assert (Hs2' : stats (db w1) !! uuid4_hex e2 = None).
  { rewrite Hw1. simpl. rewrite lookup_insert_ne by exact Hne. exact Hs2. }
  assert (Hm' : metadata (db w1) !! Validator.sha256 v2 = Some (content_record e1 v1)).
  { rewrite Hw1, Hsha. simpl. apply lookup_insert_eq. }
  pose proof (upload_img_known_content dec e2 f2 w1 v2 _ Hv2 Hd2 Hi2' Hs2' Hm') as H2.
  assert (Hw2 : w2 = fst (upload_img dec e2 f2 w1)) by reflexivity.
  rewrite H2 in Hw2. simpl in Hw2.
  split; [exact Hsha|].
  split; [rewrite Hw2, Hw1; reflexivity|].
  split; [rewrite Hw2, Hw1; simpl; apply map_size_insert_None; exact Hm|].
  split; [unfold insert_or_ignore_metadata; rewrite Hm; reflexivity|].
  split; [unfold insert_or_ignore_metadata; rewrite Hm'; reflexivity|].
  split; [rewrite Hw1; reflexivity|].
  split.
  { intros Hq. rewrite Hw1. simpl. rewrite firstn_all2 by (simpl; lia).
    reflexivity. }
  split; [rewrite Hw2; reflexivity|].
  split; [rewrite Hw2, Hw1; reflexivity|].
  split; [rewrite Hw2, Hw1; reflexivity|].
  split.
  { rewrite Hw2. simpl. rewrite map_size_insert_None by exact Hi2'.
    rewrite Hw1. simpl. rewrite map_size_insert_None by exact Hi1. reflexivity. }
  split.
  { rewrite Hw2. simpl. rewrite map_size_insert_None by exact Hs2'.
    rewrite Hw1. simpl. rewrite map_size_insert_None by exact Hs1. reflexivity. }
  split; [rewrite H1; reflexivity | rewrite H2; reflexivity].
Qed.

Lemma consistent_empty : consistent Schema.empty.
Proof.
  split; simpl.
  - intros k r H. rewrite lookup_empty in H. discriminate.
  - intros k r h H. rewrite lookup_empty in H. discriminate.
Qed.

(** C1 on the empty database: the 10 x 10 PNG uploaded as [photo.png]
    and again as [copy.PNG]. *)
Lemma duplicate_upload_dedup_witness :
  let w1 := fst (upload_img HeaderDecoder.dec Samples.req_a Samples.good_png initial) in
  let w2 := fst (upload_img HeaderDecoder.dec Samples.req_b Samples.same_png_again w1) in
  size (metadata (db w2)) = 1%nat /\
  queue w2 = processing_jobs Samples.req_a Samples.good_png (Samples.validated_png ".png") /\
  size (images (db w2)) = 2%nat /\
  size (stats (db w2)) = 2%nat.
Proof.
  intros w1 w2.
  assert (H := duplicate_upload_dedup HeaderDecoder.dec Samples.req_a Samples.req_b
                 Samples.good_png Samples.same_png_again
                 (Samples.validated_png ".png") (Samples.validated_png ".png")
                 initial).
  destruct H as (_ & _ & Hm & _ & _ & _ & Hq1 & Hq2 & _ & _ & Hi & Hs & _).
  - vm_compute. reflexivity.
  - vm_compute. reflexivity.
  - reflexivity.
  - reflexivity.
  - reflexivity.
  - exact consistent_empty.
  - reflexivity.
  - reflexivity.
  - discriminate.
  - reflexivity.
  - fold w1 in Hq1, Hq2, Hm, Hi, Hs. fold w2 in Hq2, Hm, Hi, Hs.
    split; [exact Hm|].
    split; [rewrite Hq2; apply Hq1; simpl; lia|].
    split; [exact Hi | exact Hs].
Defined.

(** C9. An accepted, stored upload of new content during which the
    queue throws (on [get_queue] or on any of the three [enqueue]
    calls): the call still answers "success"; the ContentRecord, the
    UploadAttempt and the ProcessingOutcome are all committed; the
    failure is logged; the jobs the queue took before it threw stay
    enqueued, the others are never enqueued. *)
Theorem enqueue_failure_is_not_fatal (dec : PIL.decoder) (e : env)
    (file : Validator.UploadFile) (v : Validator.ValidatedUpload) (w : world) :
  Validator.validate dec file = Ok v ->
  disk_ok e = true ->
  consistent (db w) ->
  images (db w) !! uuid4_hex e = None ->
  metadata (db w) !! Validator.sha256 v = None ->
  (queue_accepts e < 3)%nat ->
  let w' := fst (upload_img dec e file w) in
  snd (upload_img dec e file w) = Ok (success_item e file v) /\
  i_status (success_item e file v) = "success" /\
  metadata (db w') !! Validator.sha256 v = Some (content_record e v) /\
  images (db w') !! uuid4_hex e = Some (accepted_attempt e file v) /\
  stats (db w') !! uuid4_hex e = Some (mkStats (now e) None 1) /\
  files w' !! destination_of e file = Some (Validator.bytes v) /\
  log w' = log w ++ [failed_to_enqueue (Validator.sha256 v) (uuid4_hex e)] /\
  queue w' = queue w ++ List.firstn (queue_accepts e) (processing_jobs e file v).
Proof.
  intros Hv Hd Hcons Hi Hm Hq w'.
  pose proof (fresh_in_stats _ _ Hcons Hi) as Hs.
  pose proof (upload_img_new_content dec e file w v Hv Hd Hi Hs Hm) as H.
  subst w'. rewrite H. simpl.
  assert (Hlt : (queue_accepts e <? 3)%nat = true) by (apply Nat.ltb_lt; exact Hq).
  rewrite Hlt, !lookup_insert_eq. repeat split; reflexivity.
Qed.

(** C9 on the empty database, with the queue out of reach. *)
Lemma enqueue_failure_is_not_fatal_witness :
  let w' := fst (upload_img HeaderDecoder.dec Samples.req_queue_down
                   Samples.good_png initial) in
  is_ok (snd (upload_img HeaderDecoder.dec Samples.req_queue_down
                Samples.good_png initial)) = true /\
  is_Some (metadata (db w') !! Hashlib.sha256_hexdigest (HeaderDecoder.png 10 10)) /\
  queue w' = [].
Proof.
  intros w'.
  assert (H := enqueue_failure_is_not_fatal HeaderDecoder.dec
                 Samples.req_queue_down Samples.good_png
                 (Samples.validated_png ".png") initial).
  destruct H as (Hr & _ & Hm & _ & _ & _ & _ & Hq).
  - vm_compute. reflexivity.
  - reflexivity.
  - exact consistent_empty.
  - reflexivity.
  - reflexivity.
  - simpl. lia.
  - fold w' in Hm, Hq. split; [rewrite Hr; reflexivity|].
    split; [eexists; exact Hm | exact Hq].
Defined.

(** C8, as stated, fails when the disk refuses the file of an accepted
    upload: the call ends with a 500 and the [images] table has no row
    for it. *)
Lemma storage_failure_leaves_no_attempt :
  Validator.validate HeaderDecoder.dec Samples.good_png
    = Ok (Samples.validated_png ".png") /\
  upload_img HeaderDecoder.dec Samples.req_disk_full Samples.good_png initial
    = (initial, Raise (HTTPException 500 "Failed to save image")) /\
  size (images (db (fst (upload_img HeaderDecoder.dec Samples.req_disk_full
                           Samples.good_png initial)))) = 0%nat.
Proof.
  split; [vm_compute; reflexivity|].
  split; vm_compute; reflexivity.
Qed.

(** C8, amended. An upload call with a fresh identifier adds exactly
    one [images] row whenever the validator rejects the file, or accepts
    it and the disk stores it. A rejection is recorded as a failed
    attempt whose [error] is the message of the validator's exception,
    character for character, with a [stats] row of status 0, and the
    same message is in the answer. When the disk refuses an accepted
    file, the call raises and the database is left as it was: it raises
    the 500 "Failed to save image" when the handler can remove what was
    written, and the exception of [unlink] when it cannot. *)
Theorem upload_attempt_recorded (dec : PIL.decoder) (e : env)
    (file : Validator.UploadFile) (w : world) :
  consistent (db w) ->
  images (db w) !! uuid4_hex e = None ->
  let w' := fst (upload_img dec e file w) in
  let r := snd (upload_img dec e file w) in
  (forall code reason,
     Validator.validate dec file = Raise (HTTPException code reason) ->
     code = 400 /\
     images (db w')
       = <[uuid4_hex e := failed_attempt e file reason]> (images (db w)) /\
     size (images (db w')) = S (size (images (db w))) /\
     stats (db w') !! uuid4_hex e = Some (mkStats (now e) None 0) /\
     r = Ok (failed_item e file reason) /\
     i_status (failed_item e file reason) = "failed" /\
     i_error (failed_item e file reason) = Some reason) /\
  (forall v, Validator.validate dec file = Ok v -> disk_ok e = true ->
     images (db w')
       = <[uuid4_hex e := accepted_attempt e file v]> (images (db w)) /\
     size (images (db w')) = S (size (images (db w))) /\
     stats (db w') !! uuid4_hex e = Some (mkStats (now e) None 1) /\
     r = Ok (success_item e file v)) /\
  (forall v, Validator.validate dec file = Ok v -> disk_ok e = false ->
     db w' = db w /\
     r = match unlink_raises e with
         | None => Raise (HTTPException 500 "Failed to save image")
         | Some cls => Raise (PyError cls)
         end).
Proof.
  intros Hcons Hi w' r.
  pose proof (fresh_in_stats _ _ Hcons Hi) as Hs.
  split; [|split].
  - intros code reason Hex.
    assert (Hcode : code = 400).
    { destruct (validate_raise_inv dec file _ Hex)
        as [(detail & rj & [= -> _] & _)|(cls & Hcls)];
        [reflexivity | discriminate Hcls]. }
    split; [exact Hcode|]. subst w' r.
    rewrite (upload_img_rejected dec e file w code reason Hex Hi Hs). simpl.
    rewrite lookup_insert_eq, (map_size_insert_None _ _ _ Hi).
    repeat split; reflexivity.
  - intros v Hv Hd. subst w' r.
    destruct (metadata (db w) !! Validator.sha256 v) as [known|] eqn:Hm.
    + rewrite (upload_img_known_content dec e file w v known Hv Hd Hi Hs Hm).
      simpl. rewrite lookup_insert_eq, (map_size_insert_None _ _ _ Hi).
      repeat split; reflexivity.
    + rewrite (upload_img_new_content dec e file w v Hv Hd Hi Hs Hm).
      simpl. rewrite lookup_insert_eq, (map_size_insert_None _ _ _ Hi).
      repeat split; reflexivity.
  - intros v Hv Hd. subst w' r.
    rewrite (upload_img_disk_failure dec e file w v Hv Hd).
    destruct (unlink_raises e); split; reflexivity.
Qed.

(** C8, amended, on the design's scenario B: [evil.xlsx] sent as
    [application/vnd.ms-excel]. *)
Lemma upload_attempt_recorded_witness :
  images (db (fst (upload_img HeaderDecoder.dec Samples.req_c
                     Samples.evil_xlsx initial)))
    = {[ uuid4_hex Samples.req_c :=
           mkImages "evil.xlsx" 102 None None (Some "Bad Extension .xlsx") ]}.
Proof.
  assert (H := upload_attempt_recorded HeaderDecoder.dec Samples.req_c
                 Samples.evil_xlsx initial consistent_empty eq_refl).
  destruct H as [H _].
  destruct (H 400 "Bad Extension .xlsx" eq_refl) as (_ & Himg & _).
  rewrite Himg. reflexivity.
Defined.

End UploadFacts.

(** ** The life of a ProcessingOutcome *)

Section OutcomeFacts.

Import Schema Api Rows.

(** What an upload call does to the database, whatever its outcome:
    nothing, or one new [images] row and one new [stats] row under the
    call's identifier, the latter without an end time and with status 0
    (rejected) or 1 (accepted). *)
Lemma upload_img_transaction (dec : PIL.decoder) (e : env)
    (file : Validator.UploadFile) (w : world) :
  let d' := db (fst (upload_img dec e file w)) in
  d' = db w \/
  (images (db w) !! uuid4_hex e = None /\
   stats (db w) !! uuid4_hex e = None /\
   is_Some (images d' !! uuid4_hex e) /\
   exists st,
     (st = 0 /\ is_ok (Validator.validate dec file) = false \/
      st = 1 /\ is_ok (Validator.validate dec file) = true) /\
     stats d' = <[uuid4_hex e := mkStats (now e) None st]> (stats (db w))).
Proof.
  unfold upload_img.
  destruct (Validator.validate dec file) as [v|[code reason|what|what|cls]]; simpl;
    [|  |left; reflexivity|left; reflexivity|left; reflexivity].
  - destruct (disk_ok e); simpl;
      [|destruct (unlink_raises e); left; reflexivity].
    unfold insert_or_ignore_metadata.
    destruct (metadata (db w) !! Validator.sha256 v) as [known|] eqn:Hm; simpl.
    + unfold insert_images, insert_stats, bind; simpl.
      destruct (images (db w) !! uuid4_hex e) eqn:Hi; simpl; [left; reflexivity|].
      rewrite Hm; simpl.
      destruct (stats (db w) !! uuid4_hex e) eqn:Hs; simpl; [left; reflexivity|].
      rewrite lookup_insert_eq; simpl. right.
      rewrite lookup_insert_eq. repeat split; eauto.
    + destruct (enqueue_all _ _ _) as [q threw]; simpl.
      unfold insert_images, insert_stats, bind; simpl.
      destruct (images (db w) !! uuid4_hex e) eqn:Hi; simpl; [left; reflexivity|].
      rewrite lookup_insert_eq; simpl.
      destruct (stats (db w) !! uuid4_hex e) eqn:Hs; simpl; [left; reflexivity|].
      rewrite lookup_insert_eq; simpl. right.
      rewrite lookup_insert_eq. repeat split; eauto.
  - unfold insert_images, insert_stats, bind; simpl.
    destruct (images (db w) !! uuid4_hex e) eqn:Hi; simpl; [left; reflexivity|].
    destruct (stats (db w) !! uuid4_hex e) eqn:Hs; simpl; [left; reflexivity|].
    rewrite lookup_insert_eq; simpl. right.
    rewrite lookup_insert_eq. repeat split; eauto.
Qed.

(** What a worker turn does to the [stats] table: nothing, unless the
    job taken is a caption job whose tool returns, which stamps the row
    of its [image_id] (if any) with the clock and status 1. *)
Lemma work_stats (t : tools) (clock : Z) (n : nat) (w : world) :
  stats (db (work t clock n w)) = stats (db w) \/
  exists h p i text,
    queue w !! n = Some (caption_job h p i) /\
    with_file w p (extractCaption t) = Some text /\
    stats (db (work t clock n w))
      = alter (fun r => mkStats (start_time r) (Some clock) 1) i (stats (db w)).
Proof.
  unfold work. destruct (queue w !! n) as [[h p|h p|h p i]|] eqn:Hq; simpl.
  - left. unfold run_thumbnail_job, with_file; simpl.
    destruct (files w !! p) as [data|]; simpl; [|reflexivity].
    destruct (generateThumbnail t data) as [[small medium]|]; reflexivity.
  - left. unfold run_exif_job, with_file; simpl.
    destruct (files w !! p) as [data|]; simpl; [|reflexivity].
    destruct (extractExif t data); reflexivity.
  - unfold run_caption_job, with_file; simpl.
    destruct (files w !! p) as [data|] eqn:Hf; simpl; [|left; reflexivity].
    destruct (extractCaption t data) as [text|] eqn:Ht; simpl; [|left; reflexivity].
    right. exists h, p, i, text. repeat split.
    unfold with_file. rewrite Hf. exact Ht.
  - left. reflexivity.
Qed.

(** One step of the service leaves an outcome as it is, unless the
    step is the completion of the caption job of that very upload. *)
Lemma step_outcome (dec : PIL.decoder) (t : tools) (ev : event) (w : world)
    (k : string) (r : stats_row) :
  stats (db w) !! k = Some r ->
  stats (db (step dec t w ev)) !! k = Some r \/
  exists clock n h p text,
    ev = Work clock n /\
    queue w !! n = Some (caption_job h p k) /\
    with_file w p (extractCaption t) = Some text /\
    stats (db (step dec t w ev)) !! k = Some (mkStats (start_time r) (Some clock) 1).
Proof.
  intros Hk. destruct ev as [e file|clock n]; simpl.
  - left. destruct (upload_img_transaction dec e file w) as [->|H]; [exact Hk|].
    destruct H as (_ & Hs & _ & st & _ & ->).
    rewrite lookup_insert_ne; [exact Hk|]. congruence.
  - destruct (work_stats t clock n w) as [->|H]; [left; exact Hk|].
    destruct H as (h & p & i & text & Hq & Ht & ->).
    destruct (decide (i = k)) as [->|Hne].
    + right. exists clock, n, h, p, text.
      rewrite lookup_alter_eq, Hk. repeat split; assumption.
    + left. rewrite lookup_alter_ne by exact Hne. exact Hk.
Qed.

Lemma step_wellformed (dec : PIL.decoder) (t : tools) (ev : event) (w : world) :
  outcomes_wellformed w -> outcomes_wellformed (step dec t w ev).
Proof.
  intros Hw k r Hk. destruct ev as [e file|clock n]; simpl in Hk.
  - destruct (upload_img_transaction dec e file w) as [Heq|H].
    + rewrite Heq in Hk. exact (Hw k r Hk).
    + destruct H as (_ & _ & _ & st & Hst & Heq). rewrite Heq in Hk.
      destruct (decide (uuid4_hex e = k)) as [<-|Hne].
      * rewrite lookup_insert_eq in Hk. injection Hk as <-. simpl.
        split; [destruct Hst as [[-> _]|[-> _]]; auto | congruence].
      * rewrite lookup_insert_ne in Hk by exact Hne. exact (Hw k r Hk).
  - destruct (work_stats t clock n w) as [Heq|H].
    + rewrite Heq in Hk. exact (Hw k r Hk).
    + destruct H as (h & p & i & text & _ & _ & Heq). rewrite Heq in Hk.
      destruct (decide (i = k)) as [->|Hne].
      * rewrite lookup_alter_eq in Hk.
        destruct (stats (db w) !! k) as [r0|]; [|discriminate].
        injection Hk as <-. simpl. auto.
      * rewrite lookup_alter_ne in Hk by exact Hne. exact (Hw k r Hk).
Qed.

Lemma run_wellformed (dec : PIL.decoder) (t : tools) (evs : list event)
    (w : world) :
  outcomes_wellformed w -> outcomes_wellformed (run dec t evs w).
Proof.
  revert w. induction evs as [|ev evs IH]; intros w Hw; [exact Hw|].
  simpl. apply IH. apply step_wellformed. exact Hw.
Qed.

(** C3, as stated, fails right after an accepted upload, before any
    job has run: the outcome is created with status 1, which the schema
    documents as success, and the statistics already count it as a
    success. *)
Lemma accepted_outcome_is_not_pending :
  let w := fst (upload_img HeaderDecoder.dec Samples.req_a Samples.good_png initial) in
  queue w = processing_jobs Samples.req_a Samples.good_png (Samples.validated_png ".png") /\
  stats (db w) !! uuid4_hex Samples.req_a = Some (mkStats 100 None 1) /\
  Design.outcome_of_status 1 = Some Design.success /\
  Design.outcome_of_status 1 <> Some Design.pending /\
  Stats.success_rate (Stats.get_stats_db (db w)) = "100.00%".
Proof.
  repeat split; try (vm_compute; reflexivity). discriminate.
Qed.

(** C3, amended. The [stats] row of an upload is written in the same
    transaction as its [images] row: after the call both are there or
    neither is. For an accepted, stored upload the row has status 1
    (success) and no end time; for an upload the validator rejects
    (with its HTTP error) it has status 0 (failed) and no end time. The
    code has no pending status: an outcome that waits for its caption
    job differs from a finished one only by its missing end time.
    Afterwards the row changes in one way
    only: a worker turn that takes the caption job enqueued with this
    upload's identifier, and whose caption tool returns, writes the end
    time and status 1. Along every history of uploads and worker turns
    that starts from the empty database, every status is 0 or 1 and
    every row that has an end time has status 1. *)
Theorem outcome_lifecycle (dec : PIL.decoder) (t : tools) :
  (forall e file w,
     images (db w) !! uuid4_hex e = None ->
     stats (db w) !! uuid4_hex e = None ->
     let d' := db (fst (upload_img dec e file w)) in
     (is_Some (images d' !! uuid4_hex e) <-> is_Some (stats d' !! uuid4_hex e)) /\
     (forall v, Validator.validate dec file = Ok v -> disk_ok e = true ->
        is_Some (images d' !! uuid4_hex e) /\
        stats d' !! uuid4_hex e = Some (mkStats (now e) None 1)) /\
     (forall code reason,
        Validator.validate dec file = Raise (HTTPException code reason) ->
        is_Some (images d' !! uuid4_hex e) /\
        stats d' !! uuid4_hex e = Some (mkStats (now e) None 0))) /\
  (forall ev w k r,
     stats (db w) !! k = Some r ->
     stats (db (step dec t w ev)) !! k = Some r \/
     exists clock n h p text,
       ev = Work clock n /\
       queue w !! n = Some (caption_job h p k) /\
       with_file w p (extractCaption t) = Some text /\
       stats (db (step dec t w ev)) !! k
         = Some (mkStats (start_time r) (Some clock) 1)) /\
  (forall evs k r,
     stats (db (run dec t evs initial)) !! k = Some r ->
     (Design.outcome_of_status (status r) = Some Design.success \/
      Design.outcome_of_status (status r) = Some Design.failed) /\
     (status r = 0 \/ status r = 1) /\
     (end_time r <> None -> status r = 1)).
Proof.
  split; [|split].
  - intros e file w Hi Hs d'. subst d'. split; [|split].
    + destruct (upload_img_transaction dec e file w) as [->|H].
      * rewrite Hi, Hs. split; intros [x Hx]; discriminate.
      * destruct H as (_ & _ & Himg & st & _ & ->).
        rewrite lookup_insert_eq. split; eauto.
    + intros v Hv Hd.
      destruct (metadata (db w) !! Validator.sha256 v) as [known|] eqn:Hm.
      * rewrite (upload_img_known_content dec e file w v known Hv Hd Hi Hs Hm).
        simpl. rewrite !lookup_insert_eq. eauto.
      * rewrite (upload_img_new_content dec e file w v Hv Hd Hi Hs Hm).
        simpl. rewrite !lookup_insert_eq. eauto.
    + intros code reason Hex.
      rewrite (upload_img_rejected dec e file w code reason Hex Hi Hs).
      simpl. rewrite !lookup_insert_eq. eauto.
  - intros ev w k r. apply step_outcome.
  - intros evs k r Hk.
    assert (Hinit : outcomes_wellformed initial).
    { intros k0 r0 H0. simpl in H0. rewrite lookup_empty in H0. discriminate. }
    destruct (run_wellformed dec t evs initial Hinit k r Hk) as [Hst Hend].
    split; [|split; assumption].
    destruct Hst as [->| ->]; [right|left]; reflexivity.
Qed.

(** C3, amended, on the sample history: the two uploads whose caption
    job ran have an end time, the third accepted upload has none, and
    all three have status 1; the rejected one has status 0. *)
Lemma outcome_lifecycle_witness :
  stats (db Samples.after_history) !! uuid4_hex Samples.req_a
    = Some (mkStats 100 (Some 110) 1) /\
  stats (db Samples.after_history) !! uuid4_hex Samples.req_d
    = Some (mkStats 103 None 1) /\
  stats (db Samples.after_history) !! uuid4_hex Samples.req_c
    = Some (mkStats 102 None 0) /\
  (forall k r, stats (db Samples.after_history) !! k = Some r ->
               status r = 0 \/ status r = 1).
Proof.
  repeat split; try (vm_compute; reflexivity).
  intros k r Hk.
  destruct (outcome_lifecycle HeaderDecoder.dec Samples.tools) as (_ & _ & Hall).
  destruct (Hall Samples.history k r Hk) as (_ & Hst & _). exact Hst.
Defined.

End OutcomeFacts.

(** ** The statistics *)

Section StatsFacts.

Import Schema Stats.

Lemma durations_filter (rows : list stats_row) :
  durations (List.filter has_end rows) = durations rows.
Proof.
  induction rows as [|r rows IH]; [reflexivity|].
  simpl. unfold has_end at 1. destruct (end_time r) as [t0|] eqn:Ht; simpl.
  - rewrite Ht, IH. reflexivity.
  - exact IH.
Qed.

Lemma durations_none (rows : list stats_row) :
  List.filter has_end rows = [] -> durations rows = [].
Proof.
  intros H. rewrite <- durations_filter, H. reflexivity.
Qed.

Lemma count_status (c : Z) (rows : list stats_row) :
  count (fun r => status r =? c) rows
    = count (fun st => st =? c) (List.map status rows).
Proof.
  unfold count. f_equal.
  induction rows as [|r rows IH]; [reflexivity|].
  simpl. destruct (status r =? c); simpl; rewrite IH; reflexivity.
Qed.

Lemma success_rate_percent (rows : list stats_row) :
  success_rate (get_stats rows) =
    if Z.of_nat (List.length rows) =? 0 then "0.00%"
    else percent (count (fun r => status r =? 1) rows)
                 (Z.of_nat (List.length rows)).
Proof. reflexivity. Qed.

(** For up to 64 attempts the percentage printed from the floating
    point quotient is the exactly rounded one. *)
Lemma percent_is_exact (s t : nat) :
  (s <= t)%nat -> (0 < t)%nat -> (t <= 64)%nat ->
  percent (Z.of_nat s) (Z.of_nat t) = exact_percent (Z.of_nat s) (Z.of_nat t).
Proof.
  intros Hst Ht0 Ht.
  assert (H : percent_exact_upto 64 = true) by (vm_compute; reflexivity).
  unfold percent_exact_upto in H.
  rewrite forallb_forall in H.
  assert (Hin : In t (List.seq 1 64)) by (apply in_seq; lia).
  specialize (H t Hin). rewrite forallb_forall in H.
  assert (Hin' : In s (List.seq 0 (S t))) by (apply in_seq; lia).
  specialize (H s Hin'). apply String.eqb_eq in H. exact H.
Qed.

Lemma durations_seconds (rows : list stats_row) :
  durations rows = List.map Design.seconds (List.filter has_end rows).
Proof.
  induction rows as [|r rows IH]; [reflexivity|].
  simpl. unfold has_end at 1.
  destruct (end_time r) as [t0|] eqn:Hend; simpl; rewrite IH; [|reflexivity].
  unfold Design.seconds at 2. rewrite Hend. reflexivity.
Qed.

Lemma average_is_mean (rows : list stats_row) :
  average_processing_time_seconds (get_stats rows)
    = Design.avg_processing_seconds rows.
Proof.
  unfold get_stats, Design.avg_processing_seconds. simpl.
  rewrite durations_seconds.
  rewrite length_map.
  destruct (List.filter has_end rows) as [|r done]; reflexivity.
Qed.

(** C2. What the code does at the input where it departs from the
    claim, and what it does in general.

    The design's scenario (two attempts completed with success, one
    failed attempt, one accepted attempt that still waits for its
    caption job) is the [stats] table after the sample history. The
    report counts four attempts and one failure, and a success rate
    of 75.00%, not 50.00%: [completed] is every row, and the waiting
    attempt, which carries status 1 from its creation, counts as a
    success.

    For every table: [total] is the number of rows; [failed] the number
    of rows with status 0; the success rate is the number of rows with
    status 1 divided by the number of all rows, printed as a percentage
    with two decimals (for up to 64 rows: the exact quotient rounded to
    two decimals, ties to even), and "0.00%" when there is no row; the
    average processing time is the mean of end minus start over the rows
    that have an end time, rounded to an integer (ties to even), and 0
    when no row has one. *)
Theorem stats_report :
  (rows_of (Api.db Samples.after_history)
     = [ mkStats 102 None 0; mkStats 100 (Some 110) 1;
         mkStats 101 (Some 120) 1; mkStats 103 None 1 ] /\
   get_stats_db (Api.db Samples.after_history) = mkReport 4 1 "75.00%" 14 /\
   success_rate (get_stats_db (Api.db Samples.after_history)) <> "50.00%") /\
  (forall rows : list stats_row,
     total (get_stats rows) = Z.of_nat (List.length rows) /\
     (forall d, total (get_stats_db d) = Z.of_nat (size (stats d))) /\
     failed (get_stats rows) = count (fun r => status r =? 0) rows /\
     (rows = [] -> success_rate (get_stats rows) = "0.00%") /\
     (rows <> [] ->
        success_rate (get_stats rows)
          = percent (count (fun r => status r =? 1) rows)
                    (Z.of_nat (List.length rows))) /\
     (rows <> [] -> (List.length rows <= 64)%nat ->
        success_rate (get_stats rows)
          = exact_percent (count (fun r => status r =? 1) rows)
                          (Z.of_nat (List.length rows))) /\
     (forall rows', List.map status rows' = List.map status rows ->
        success_rate (get_stats rows') = success_rate (get_stats rows)) /\
     average_processing_time_seconds (get_stats rows)
       = Design.avg_processing_seconds rows /\
     average_processing_time_seconds (get_stats rows)
       = average_processing_time_seconds (get_stats (List.filter has_end rows)) /\
     (List.filter has_end rows = [] ->
        average_processing_time_seconds (get_stats rows) = 0)) /\
  (average_processing_time_seconds (get_stats [mkStats 5 (Some 12) 1]) = 7 /\
   average_processing_time_seconds
     (get_stats [mkStats 0 (Some 1) 1; mkStats 0 None 1; mkStats 0 (Some 2) 1]) = 2 /\
   average_processing_time_seconds
     (get_stats [mkStats 0 (Some 0) 1; mkStats 0 (Some 1) 1; mkStats 9 None 0]) = 0 /\
   average_processing_time_seconds
     (get_stats [mkStats 0 (Some 1) 1; mkStats 0 (Some 2) 1; mkStats 0 (Some 4) 1])
     = 2 /\
   average_processing_time_seconds
     (get_stats [mkStats 0 (Some 3) 1; mkStats 0 (Some 4) 1; mkStats 0 (Some 4) 1;
                 mkStats 0 (Some 4) 1])
     = 4).
Proof.
  split; [|split].
  - split; [vm_compute; reflexivity|].
    split; [vm_compute; reflexivity|].
    vm_compute. discriminate.
  - intros rows.
    split; [reflexivity|].
    split.
    { intros d. unfold get_stats_db, rows_of. simpl.
      rewrite length_map, length_map_to_list. reflexivity. }
    split; [reflexivity|].
    split; [intros ->; reflexivity|].
    split.
    { intros Hne. rewrite success_rate_percent.
      destruct rows as [|r rows]; [congruence|]. reflexivity. }
    split.
    { intros Hne Hlen. rewrite success_rate_percent.
      destruct rows as [|r rows]; [congruence|].
      change (Z.of_nat (List.length (r :: rows)) =? 0) with false.
      cbv iota. unfold count. apply percent_is_exact; [|simpl; lia|exact Hlen].
      apply filter_length_le. }
    split.
    { intros rows' Hmap. rewrite !success_rate_percent, !count_status, Hmap.
      assert (Hlen : List.length rows' = List.length rows).
      { rewrite <- (length_map status rows'), Hmap. apply length_map. }
      rewrite Hlen. reflexivity. }
    split; [apply average_is_mean|].
    split.
    { unfold get_stats. simpl. rewrite durations_filter. reflexivity. }
    intros Hnone. unfold get_stats. simpl.
    rewrite (durations_none rows Hnone). reflexivity.
  - repeat split; vm_compute; reflexivity.
Qed.

(** C2 on the report after the sample history. *)
Lemma stats_report_witness :
  success_rate (get_stats_db (Api.db Samples.after_history))
    = percent 3 4 /\
  percent 3 4 = "75.00%" /\
  average_processing_time_seconds (get_stats_db (Api.db Samples.after_history))
    = average_processing_time_seconds
        (get_stats [mkStats 100 (Some 110) 1; mkStats 101 (Some 120) 1]).
Proof.
  destruct stats_report as (_ & Hall & _).
  destruct (Hall (rows_of (Api.db Samples.after_history)))
    as (_ & _ & _ & _ & Hrate & _ & _ & _ & Havg & _).
  split; [|split].
  - unfold get_stats_db. rewrite Hrate; [vm_compute; reflexivity|].
    vm_compute. discriminate.
  - vm_compute. reflexivity.
  - unfold get_stats_db. rewrite Havg. vm_compute. reflexivity.
Defined.

End StatsFacts.

(** ** The validator on the sample files *)

Section ValidatorExamples.

Import Validator Design.

(** An upload call whose validation raises leaves the media
    directory, the queue, the log and the ContentRecords as they
    were. *)
Lemma validate_raise_effects (dec : PIL.decoder) (e : Api.env)
    (file : UploadFile) (w : Api.world) (ex : exn) :
  validate dec file = Raise ex ->
  let w' := fst (Api.upload_img dec e file w) in
  Api.files w' = Api.files w /\ Api.queue w' = Api.queue w /\
  Api.log w' = Api.log w /\
  Schema.metadata (Api.db w') = Schema.metadata (Api.db w).
Proof.
  intros Hex. unfold Api.upload_img. rewrite Hex.
  destruct ex as [code reason|what|what|cls]; simpl; try (repeat split; reflexivity).
  unfold Schema.insert_images, Schema.insert_stats, bind; simpl.
  destruct (Schema.images (Api.db w) !! Api.uuid4_hex e); simpl;
    [repeat split; reflexivity|].
  destruct (Schema.stats (Api.db w) !! Api.uuid4_hex e); simpl;
    rewrite ?lookup_insert_eq; simpl; repeat split; reflexivity.
Qed.

(** C4. What the code does at the input where it departs from the
    claim, and what it does in general.

    The 10 x 10 PNG whose data chunk has a wrong checksum, sent as
    [photo.png] with the type [image/png], passes the four cheap checks
    and fails decoder-level validation, yet [validate] does not fail
    with CorruptImage nor with any of the five rejections: [verify]
    raises [SyntaxError], which the handler of [pil_validate] does not
    catch. A PNG whose header declares 20000 x 20000 pixels leaves
    [validate] with [DecompressionBombError] in the same way.

    For every decoder and file the checks run in the order of the design
    (extension, declared MIME type, non-empty payload, magic signature,
    decoder-level validation) and stop at the first that fails. When
    that is one of the four cheap checks, the exception stands for
    exactly that rejection and the decoder is not called. When it is
    decoder-level validation, [validate] raises what [pil_validate]
    raises: the 400 that stands for CorruptImage, or the decoder's own
    exception of another class. When no check fails it returns the
    ValidatedUpload built from the lower-cased extension and MIME type,
    the raw bytes, their SHA-256 and the decoder's width, height and
    format. An upload call whose validation raises writes no file,
    enqueues nothing, logs nothing and adds no ContentRecord. *)
Theorem validate_checks_in_order :
  (validate HeaderDecoder.dec Samples.bad_checksum_png
     = Raise (PyError "SyntaxError") /\
   first_failure (checks HeaderDecoder.dec Samples.bad_checksum_png)
     = Some CorruptImage /\
   rejection_of (PyError "SyntaxError") = None /\
   validate HeaderDecoder.dec Samples.huge_png
     = Raise (PyError "DecompressionBombError")) /\
  (forall (dec : PIL.decoder) (file : UploadFile),
     match first_failure (checks dec file) with
     | Some r =>
         if cheap r then
           (exists e, validate dec file = Raise e /\ rejection_of e = Some r) /\
           fst (validate_run dec file) = []
         else
           exists e,
             pil_validate dec (body file) 50000000 = Raise e /\
             validate dec file = Raise e /\
             (rejection_of e = Some CorruptImage \/
              exists cls, e = PyError cls /\ rejection_of e = None)
     | None =>
         exists w h fmt,
           pil_validate dec (body file) 50000000 = Ok (w, h, fmt) /\
           validate dec file =
             Ok (mkValidatedUpload (extension_of file) (mime_of file) (body file)
                   (Hashlib.sha256_hexdigest (body file)) w h fmt)
     end) /\
  (forall (dec : PIL.decoder) (e : Api.env) (file : UploadFile) (w : Api.world)
          (ex : exn),
     validate dec file = Raise ex ->
     let w' := fst (Api.upload_img dec e file w) in
     Api.files w' = Api.files w /\ Api.queue w' = Api.queue w /\
     Api.log w' = Api.log w /\
     Schema.metadata (Api.db w') = Schema.metadata (Api.db w)).
Proof.
  split; [|split].
  - repeat split; vm_compute; reflexivity.
  - intros dec file. pose proof (validate_first_failure dec file) as H.
    destruct (first_failure (checks dec file)) as [r|]; [|exact H].
    destruct (cheap r); [exact H|].
    destruct H as (e & Hpil & Hval & [-> | (cls & ->)]);
      eexists; (split; [exact Hpil|]); (split; [exact Hval|]);
      [left; reflexivity | right; eauto].
  - intros dec e file w ex. apply validate_raise_effects.
Qed.

(** C4 on an upload that passes the five checks and on the design's
    scenario B, which fails the first. *)
Lemma validate_checks_in_order_witness :
  validate HeaderDecoder.dec Samples.good_png = Ok (Samples.validated_png ".png") /\
  exists e, validate HeaderDecoder.dec Samples.evil_xlsx = Raise e /\
            rejection_of e = Some BadExtension.
Proof.
  destruct validate_checks_in_order as (_ & Hall & _).
  split.
  - pose proof (Hall HeaderDecoder.dec Samples.good_png) as H.
    assert (Hnone : first_failure (checks HeaderDecoder.dec Samples.good_png) = None)
      by (vm_compute; reflexivity).
    rewrite Hnone in H.
    destruct H as (w & h & fmt & Hpil & Hval).
    rewrite Hval. vm_compute in Hpil. injection Hpil as <- <- <-.
    vm_compute. reflexivity.
  - pose proof (Hall HeaderDecoder.dec Samples.evil_xlsx) as H.
    assert (Hbad : first_failure (checks HeaderDecoder.dec Samples.evil_xlsx)
                   = Some BadExtension) by (vm_compute; reflexivity).
    rewrite Hbad in H. exact (proj1 H).
Defined.

(** The repository's tests of [get_ext] and [match_signature]. *)
Example test_get_ext :
  get_ext "photo.JPG" = ".jpg" /\ get_ext "x.png" = ".png" /\ get_ext "noext" = "".
Proof. repeat split. Qed.

Example test_match_signature_png :
  match_signature "image/png" (HeaderDecoder.png 10 10) = true /\
  match_signature "image/jpeg" (HeaderDecoder.png 10 10) = false.
Proof. split; vm_compute; reflexivity. Qed.

End ValidatorExamples.

(** ** The foreign keys hold along every history *)

Section ConsistencyFacts.

Import Schema Api Rows.

Ltac inv_lookup_insert k k' H :=
  destruct (decide (k = k')) as [<-|?];
  [rewrite lookup_insert_eq in H | rewrite lookup_insert_ne in H by assumption].

Lemma consistent_insert_attempt (d : database) (id : string)
    (row : images_row) (srow : stats_row) :
  consistent d ->
  (forall h, metadata_sha256 row = Some h -> is_Some (metadata d !! h)) ->
  consistent (mkDatabase (metadata d) (<[id := row]> (images d))
                         (<[id := srow]> (stats d))).
Proof.
  intros [Hs Hi] Hrow. split; simpl.
  - intros k r Hk. inv_lookup_insert id k Hk.
    + rewrite lookup_insert_eq. eauto.
    + rewrite lookup_insert_ne by assumption. eauto.
  - intros k r h Hk Hh. inv_lookup_insert id k Hk.
    + injection Hk as <-. auto.
    + eauto.
Qed.

Lemma consistent_insert_metadata (d : database) (h : string) (row : metadata_row) :
  consistent d ->
  consistent (mkDatabase (<[h := row]> (metadata d)) (images d) (stats d)).
Proof.
  intros [Hs Hi]. split; simpl; [exact Hs|].
  intros k r h' Hk Hh. destruct (decide (h = h')) as [<-|Hne].
  - rewrite lookup_insert_eq. eauto.
  - rewrite lookup_insert_ne by exact Hne. eauto.
Qed.

Lemma upload_img_consistent (dec : PIL.decoder) (e : env)
    (file : Validator.UploadFile) (w : world) :
  consistent (db w) -> consistent (db (fst (upload_img dec e file w))).
Proof.
  intros Hc. unfold upload_img.
  destruct (Validator.validate dec file) as [v|[code reason|what|what|cls]]; simpl;
    try exact Hc.
  - destruct (disk_ok e); simpl; [|destruct (unlink_raises e); exact Hc].
    unfold insert_or_ignore_metadata.
    destruct (metadata (db w) !! Validator.sha256 v) as [known|] eqn:Hm; simpl.
    + unfold insert_images, insert_stats, bind; simpl.
      destruct (images (db w) !! uuid4_hex e) eqn:Hi; simpl; [exact Hc|].
      rewrite Hm; simpl.
      destruct (stats (db w) !! uuid4_hex e) eqn:Hs; simpl; [exact Hc|].
      rewrite lookup_insert_eq; simpl.
      apply consistent_insert_attempt; [exact Hc|].
      simpl. intros h [= <-]. eauto.
    + destruct (enqueue_all _ _ _) as [q threw]; simpl.
      unfold insert_images, insert_stats, bind; simpl.
      destruct (images (db w) !! uuid4_hex e) eqn:Hi; simpl; [exact Hc|].
      rewrite lookup_insert_eq; simpl.
      destruct (stats (db w) !! uuid4_hex e) eqn:Hs; simpl; [exact Hc|].
      rewrite lookup_insert_eq; simpl.
      pose (d1 := mkDatabase
                    (<[Validator.sha256 v := content_record e v]> (metadata (db w)))
                    (images (db w)) (stats (db w))).
      change (consistent
                (mkDatabase (metadata d1)
                            (<[uuid4_hex e := accepted_attempt e file v]> (images d1))
                            (<[uuid4_hex e := mkStats (now e) None 1]> (stats d1)))).
      apply consistent_insert_attempt.
      * apply consistent_insert_metadata. exact Hc.
      * simpl. intros h [= <-]. rewrite lookup_insert_eq. eauto.
  - unfold insert_images, insert_stats, bind; simpl.
    destruct (images (db w) !! uuid4_hex e) eqn:Hi; simpl; [exact Hc|].
    destruct (stats (db w) !! uuid4_hex e) eqn:Hs; simpl; [exact Hc|].
    rewrite lookup_insert_eq; simpl.
    apply consistent_insert_attempt; [exact Hc|]. simpl. discriminate.
Qed.

Lemma consistent_update_exif (key v : string) (d : database) :
  consistent d -> consistent (update_exif key v d).
Proof.
  intros [Hs Hi]. split; simpl; [exact Hs|].
  intros k r h Hk Hh. destruct (Hi k r h Hk Hh) as [x Hx].
  destruct (decide (key = h)) as [<-|Hne].
  - rewrite lookup_alter_eq, Hx. simpl. eauto.
  - rewrite lookup_alter_ne by exact Hne. eauto.
Qed.

Lemma consistent_caption_updates (sha id text : string) (clock : Z) (d : database) :
  consistent d ->
  consistent (update_processed_at id clock
                (update_stats_done id 1 clock (update_caption sha text d))).
Proof.
  intros [Hs Hi]. split; simpl.
  - intros k r Hk.
    assert (Hk' : is_Some (stats d !! k)).
    { destruct (decide (id = k)) as [<-|Hne].
      - rewrite lookup_alter_eq in Hk.
        destruct (stats d !! id); [eauto | discriminate].
      - rewrite lookup_alter_ne in Hk by exact Hne. eauto. }
    destruct Hk' as [r0 Hr0]. destruct (Hs k r0 Hr0) as [x Hx].
    destruct (decide (id = k)) as [<-|Hne].
    + rewrite lookup_alter_eq, Hx. simpl. eauto.
    + rewrite lookup_alter_ne by exact Hne. eauto.
  - intros k r h Hk Hh.
    assert (Hold : exists r0, images d !! k = Some r0 /\ metadata_sha256 r0 = Some h).
    { destruct (decide (id = k)) as [<-|Hne].
      - rewrite lookup_alter_eq in Hk.
        destruct (images d !! id) as [r0|]; [|discriminate].
        injection Hk as <-. simpl in Hh. eauto.
      - rewrite lookup_alter_ne in Hk by exact Hne. eauto. }
    destruct Hold as (r0 & Hr0 & Hh0). destruct (Hi k r0 h Hr0 Hh0) as [x Hx].
    destruct (decide (sha = h)) as [<-|Hne].
    + rewrite lookup_alter_eq, Hx. simpl. eauto.
    + rewrite lookup_alter_ne by exact Hne. eauto.
Qed.

Lemma work_consistent (t : tools) (clock : Z) (n : nat) (w : world) :
  consistent (db w) -> consistent (db (work t clock n w)).
Proof.
  intros Hc. unfold work.
  destruct (queue w !! n) as [[h p|h p|h p i]|]; simpl; [| | |exact Hc].
  - unfold run_thumbnail_job, with_file; simpl.
    destruct (files w !! p) as [data|]; simpl; [|exact Hc].
    destruct (generateThumbnail t data) as [[small medium]|]; exact Hc.
  - unfold run_exif_job, with_file; simpl.
    destruct (files w !! p) as [data|]; simpl; [|exact Hc].
    destruct (extractExif t data); simpl; [|exact Hc].
    apply consistent_update_exif. exact Hc.
  - unfold run_caption_job, with_file; simpl.
    destruct (files w !! p) as [data|]; simpl; [|exact Hc].
    destruct (extractCaption t data); simpl; [|exact Hc].
    apply consistent_caption_updates. exact Hc.
Qed.

(** Every database the service reaches from the empty one satisfies its
    foreign keys. *)
Lemma run_consistent (dec : PIL.decoder) (t : tools) (evs : list event) (w : world) :
  consistent (db w) -> consistent (db (run dec t evs w)).
Proof.
  revert w. induction evs as [|ev evs IH]; intros w Hc; [exact Hc|].
  simpl. apply IH. destruct ev as [e file|clock n]; simpl.
  - apply upload_img_consistent. exact Hc.
  - apply work_consistent. exact Hc.
Qed.

End ConsistencyFacts.

(** * Further properties of the code *)

(** ** The validator's helpers *)

Section ValidatorHelpers.

Import Validator Design.

(** X1. The signature table: only the two image types have a
    signature, no payload carries both, and the empty payload carries
    none. *)
Theorem signature_table_exclusive (mime : string) (data : list byte) :
  (match_signature mime data = true ->
     mime = "image/jpeg" /\ bytes_startswith data JPEG_SIGNATURE = true \/
     mime = "image/png" /\ bytes_startswith data PNG_SIGNATURE = true) /\
  (match_signature "image/jpeg" data = true ->
     match_signature "image/png" data = false) /\
  match_signature mime [] = false.
Proof.
  split; [|split].
  - rewrite match_signature_magic. unfold signature_matches, magic.
    destruct (String.eqb_spec mime "image/jpeg") as [E|_]; [left; auto|].
    destruct (String.eqb_spec mime "image/png") as [E|_]; [right; auto|].
    discriminate.
  - rewrite !match_signature_magic. unfold signature_matches, magic. simpl.
    destruct data as [|b data]; [discriminate|].
    destruct b; simpl; first [discriminate | reflexivity].
  - rewrite match_signature_magic. unfold signature_matches, magic.
    destruct (String.eqb mime "image/jpeg"); [reflexivity|].
    destruct (String.eqb mime "image/png"); reflexivity.
Qed.

(** *** The extension *)

Import Shapes.

Lemma rfind_from_spec (c : ascii) (s : string) (k : nat) (acc : option nat)
    (j : nat) :
  PyStr.rfind_from c s k acc = Some j ->
  (acc = Some j /\ contains c s = false) \/
  (exists rest, (k <= j)%nat /\
     PyStr.drop_str (j - k) s = String c rest /\ contains c rest = false).
Proof.
  revert k acc. induction s as [|d r IH]; intros k acc H; simpl in H.
  - left. split; [exact H | reflexivity].
  - destruct (IH _ _ H) as [[Hacc Hr]|(rest & Hle & Hdrop & Hrest)].
    + destruct (Ascii.eqb_spec d c) as [->|Hne].
      * injection Hacc as <-. right. exists r.
        rewrite Nat.sub_diag. simpl. auto.
      * left. split; [exact Hacc|]. simpl.
        destruct (Ascii.eqb_spec d c); [contradiction | exact Hr].
    + right. exists rest. split; [lia|]. split; [|exact Hrest].
      replace (j - k)%nat with (S (j - S k)) by lia. exact Hdrop.
Qed.

Lemma drop_str_length (i : nat) (s : string) :
  String.length (PyStr.drop_str i s) = (String.length s - i)%nat.
Proof.
  revert s. induction i as [|i IH]; intros s; simpl.
  - lia.
  - destruct s as [|c r]; simpl; [reflexivity | apply IH].
Qed.

Lemma contains_drop_str (c : ascii) (i : nat) (s : string) :
  contains c s = false -> contains c (PyStr.drop_str i s) = false.
Proof.
  revert s. induction i as [|i IH]; intros s H; simpl; [exact H|].
  destruct s as [|d r]; [reflexivity|].
  simpl in H. apply orb_false_iff in H. apply IH. tauto.
Qed.

Lemma split_on_no_separator (sep : ascii) (s : string) :
  List.Forall (fun p => contains sep p = false) (PyStr.split_on sep s).
Proof.
  induction s as [|c r IH]; simpl.
  - constructor; [reflexivity | constructor].
  - destruct (Ascii.eqb_spec c sep) as [->|Hne].
    + constructor; [reflexivity | exact IH].
    + destruct (PyStr.split_on sep r) as [|p ps]; simpl.
      * constructor; [|constructor]. simpl.
        destruct (Ascii.eqb_spec c sep); [contradiction | reflexivity].
      * inversion IH as [|? ? Hp Hps]; subst. constructor; [|exact Hps].
        simpl. destruct (Ascii.eqb_spec c sep); [contradiction | exact Hp].
Qed.

Lemma name_no_slash (p : string) : contains "/" (Pathlib.name p) = false.
Proof.
  unfold Pathlib.name, Pathlib.parts.
  assert (H : List.Forall (fun x => contains "/" x = false)
                (List.filter
                   (fun x => negb (String.eqb x "") && negb (String.eqb x "."))
                   (PyStr.split_on "/" p))).
  { apply List.Forall_forall. intros x Hx. apply List.filter_In in Hx.
    destruct Hx as [Hx _].
    exact (proj1 (List.Forall_forall _ _) (split_on_no_separator "/" p) x Hx). }
  induction H as [|x l Hx Hl IH]; [reflexivity|].
  destruct l as [|y l']; [exact Hx | exact IH].
Qed.

Lemma lower_ascii_idempotent (c : ascii) :
  PyStr.lower_ascii (PyStr.lower_ascii c) = PyStr.lower_ascii c.
Proof. destruct c as [[] [] [] [] [] [] [] []]; reflexivity. Qed.

Lemma lower_ascii_dot (c : ascii) :
  Ascii.eqb (PyStr.lower_ascii c) "." = Ascii.eqb c ".".
Proof. destruct c as [[] [] [] [] [] [] [] []]; reflexivity. Qed.

Lemma lower_ascii_slash (c : ascii) :
  Ascii.eqb (PyStr.lower_ascii c) "/" = Ascii.eqb c "/".
Proof. destruct c as [[] [] [] [] [] [] [] []]; reflexivity. Qed.

Lemma lower_idempotent (s : string) : PyStr.lower (PyStr.lower s) = PyStr.lower s.
Proof.
  induction s as [|c r IH]; simpl; [reflexivity|].
  rewrite lower_ascii_idempotent, IH. reflexivity.
Qed.

Lemma contains_lower (c : ascii) (s : string) :
  (forall d, Ascii.eqb (PyStr.lower_ascii d) c = Ascii.eqb d c) ->
  contains c (PyStr.lower s) = contains c s.
Proof.
  intros Hc. induction s as [|d r IH]; simpl; [reflexivity|].
  rewrite Hc, IH. reflexivity.
Qed.

(** X2. The extension [get_ext] returns is empty, or a dot followed by a
    non-empty name that has no dot, no slash and no upper-case ASCII
    letter. *)
Theorem get_ext_shape (filename : string) :
  get_ext filename = "" \/
  exists rest,
    get_ext filename = String "." rest /\
    rest <> "" /\
    contains "." rest = false /\
    contains "/" rest = false /\
    PyStr.lower rest = rest.
Proof.
  unfold get_ext. set (p := PyStr.or_str filename "").
  unfold Pathlib.suffix.
  destruct (PyStr.rfind "." (Pathlib.name p)) as [i|] eqn:Hfind; [|left; reflexivity].
  destruct ((0 <? i)%nat && (S i <? String.length (Pathlib.name p))%nat) eqn:Hrange;
    [|left; reflexivity].
  apply andb_true_iff in Hrange. destruct Hrange as [_ Hlen].
  apply Nat.ltb_lt in Hlen.
  unfold PyStr.rfind in Hfind.
  destruct (rfind_from_spec _ _ _ _ _ Hfind) as [[Hacc _]|(rest & _ & Hdrop & Hrest)];
    [discriminate|].
  rewrite Nat.sub_0_r in Hdrop.
  right. exists (PyStr.lower rest). rewrite Hdrop. simpl.
  split; [reflexivity|]. split.
  - assert (Hl : String.length (PyStr.drop_str i (Pathlib.name p))
                 = (String.length (Pathlib.name p) - i)%nat)
      by apply drop_str_length.
    rewrite Hdrop in Hl. simpl in Hl.
    destruct rest as [|c r]; [simpl in Hl; lia | discriminate].
  - split; [rewrite (contains_lower "." rest lower_ascii_dot); exact Hrest|].
    split; [|apply lower_idempotent].
    rewrite (contains_lower "/" rest lower_ascii_slash).
    pose proof (contains_drop_str "/" i _ (name_no_slash p)) as Hs.
    rewrite Hdrop in Hs. simpl in Hs. exact Hs.
Qed.

(** *** What an accepted upload looks like *)

Lemma pil_validate_within (dec : PIL.decoder) (data : list byte)
    (max_pixels w h : Z) (fmt : string) :
  0 <= max_pixels ->
  pil_validate dec data max_pixels = Ok (w, h, fmt) ->
  w * h <= max_pixels.
Proof.
  intros Hmax. unfold pil_validate, pil_validate_run.
  destruct (PIL.open dec data) as [err|img]; simpl; [discriminate|].
  destruct (PIL.size img) as [w0 h0].
  destruct (w0 * h0 >? max_pixels) eqn:Hcmp; simpl.
  - intros [= <- <- <-]. simpl. exact Hmax.
  - destruct (PIL.verify dec data img); simpl; [discriminate|].
    intros [= <- <- <-]. rewrite Z.gtb_ltb in Hcmp. apply Z.ltb_ge in Hcmp.
    exact Hcmp.
Qed.

(** X3. Whatever the decoder says, an accepted upload is non-empty,
    starts with the signature of its MIME type, has an allowed
    extension and an allowed MIME type, and its recorded width times
    height never exceeds 50,000,000. *)
Theorem validated_upload_invariants (dec : PIL.decoder) (file : UploadFile)
    (v : ValidatedUpload) :
  validate dec file = Ok v ->
  bytes v <> [] /\
  match_signature (mime v) (bytes v) = true /\
  ext v ∈ ALLOWED_EXTENSIONS /\
  mime v ∈ ALLOWED_MIME /\
  width v * height v <= 50000000.
Proof.
  intros Hv.
  destruct (validate_ok_inv dec file v Hv) as (Hext & Hmime & Hne & Hsig & Hpil & Heq).
  rewrite <- allowed_extension_one_of in Hext.
  rewrite <- allowed_mime_one_of in Hmime.
  apply bool_decide_eq_true in Hext. apply bool_decide_eq_true in Hmime.
  rewrite <- match_signature_magic in Hsig.
  rewrite Heq. simpl. repeat split; try assumption.
  apply (pil_validate_within dec (body file) 50000000 _ _ (format v)); [lia|].
  exact Hpil.
Qed.

(** X3 on the 10 x 10 PNG. *)
Lemma validated_upload_invariants_witness :
  width (Samples.validated_png ".png") * height (Samples.validated_png ".png")
    <= 50000000.
Proof.
  refine (proj2 (proj2 (proj2 (proj2
            (validated_upload_invariants HeaderDecoder.dec Samples.good_png
               (Samples.validated_png ".png") _))))).
  vm_compute. reflexivity.
Defined.

(** X4. An image whose header declares more pixels than the ceiling is
    not rejected: when the four cheaper checks pass, it is accepted with
    width 0, height 0 and an empty format, and [verify] is never
    called. *)
Theorem oversized_image_is_accepted (dec : PIL.decoder) (file : UploadFile)
    (img : PIL.image) (w h : Z) :
  ext_allowed file = true ->
  mime_allowed file = true ->
  match_signature (mime_of file) (body file) = true ->
  PIL.open dec (body file) = inr img ->
  PIL.size img = (w, h) ->
  w * h > 50000000 ->
  validate_run dec file =
    ([PIL.CallOpen],
     Ok (mkValidatedUpload (extension_of file) (mime_of file) (body file)
           (Hashlib.sha256_hexdigest (body file)) 0 0 "")).
Proof.
  unfold ext_allowed, mime_allowed.
  intros Hext Hmime Hsig Hopen Hsize Hbig.
  unfold validate_run. fold (extension_of file). fold (mime_of file).
  rewrite Hext, Hmime, Hsig. simpl.
  destruct (body file) as [|b data] eqn:Hbody.
  { rewrite match_signature_magic in Hsig. unfold signature_matches, magic in Hsig.
    destruct (String.eqb (mime_of file) "image/jpeg"); [discriminate|].
    destruct (String.eqb (mime_of file) "image/png"); discriminate. }
  rewrite (pil_validate_run_cases dec (b :: data) MAX_PIXELS img w h Hopen Hsize).
  unfold MAX_PIXELS.
  assert (Hcmp : (w * h >? 50000000) = true) by (apply Z.gtb_lt; lia).
  rewrite Hcmp. reflexivity.
Qed.

(** X4 on a PNG header that declares 10000 x 10000 pixels. *)
Lemma oversized_image_is_accepted_witness :
  exists v,
    validate_run HeaderDecoder.dec big_png = ([PIL.CallOpen], Ok v) /\
    width v = 0 /\ height v = 0 /\ format v = "".
Proof.
  eexists. split.
  - apply (oversized_image_is_accepted HeaderDecoder.dec big_png
             (PIL.mkImage (10000, 10000) "PNG") 10000 10000);
      [vm_compute; reflexivity | vm_compute; reflexivity | vm_compute; reflexivity
      | vm_compute; reflexivity | reflexivity | reflexivity].
  - repeat split.
Defined.

End ValidatorHelpers.

(** The outcomes of [upload_img], one goal for each. *)
Ltac upload_leaves dec e file w :=
  unfold Api.upload_img;
  destruct (Validator.validate dec file) as [v|[code reason|what|what|cls]] eqn:Hval;
  simpl;
  [ destruct (Api.disk_ok e) eqn:Hdisk; simpl;
    [ unfold Schema.insert_or_ignore_metadata;
      destruct (Schema.metadata (Api.db w) !! Validator.sha256 v) as [known|] eqn:Hmeta;
      simpl;
      [ | rewrite enqueue_all_length; simpl ];
      unfold Schema.insert_images, Schema.insert_stats, bind; simpl;
      (destruct (Schema.images (Api.db w) !! Api.uuid4_hex e) eqn:Himg; simpl;
       [ | rewrite ?Hmeta, ?lookup_insert_eq; simpl;
           destruct (Schema.stats (Api.db w) !! Api.uuid4_hex e) eqn:Hst; simpl;
           [ | rewrite ?lookup_insert_eq; simpl ] ])
    | destruct (Api.unlink_raises e) eqn:Hunlink; simpl;
      [ destruct (Api.partial e) eqn:Hpartial; simpl | ] ]
  | unfold Schema.insert_images, Schema.insert_stats, bind; simpl;
    destruct (Schema.images (Api.db w) !! Api.uuid4_hex e) eqn:Himg; simpl;
    [ | destruct (Schema.stats (Api.db w) !! Api.uuid4_hex e) eqn:Hst; simpl;
        [ | rewrite ?lookup_insert_eq; simpl ] ]
  | | | ].

(** ** More on the upload path *)

Section UploadExtras.

Import Schema Api Rows.

Ltac keep_row :=
  match goal with
  | H : ?m !! ?k = Some ?r |- <[?i := _]> ?m !! ?k = Some ?r =>
      rewrite lookup_insert_ne by congruence; exact H
  | H : ?m !! ?k = Some ?r |- ?m !! ?k = Some ?r => exact H
  end.

(** X5. An upload call only adds: whatever its outcome, every row that
    was in [metadata], [images] or [stats] is still there unchanged,
    every stored file other than the call's own destination is
    untouched, and the queue and the log only grow at their end. *)
Theorem upload_img_only_adds (dec : PIL.decoder) (e : env)
    (file : Validator.UploadFile) (w : world) :
  let w' := fst (upload_img dec e file w) in
  (forall k r, metadata (db w) !! k = Some r -> metadata (db w') !! k = Some r) /\
  (forall k r, images (db w) !! k = Some r -> images (db w') !! k = Some r) /\
  (forall k r, stats (db w) !! k = Some r -> stats (db w') !! k = Some r) /\
  (forall p, p <> destination_of e file -> files w' !! p = files w !! p) /\
  (exists jobs, queue w' = queue w ++ jobs) /\
  (exists lines, log w' = log w ++ lines).
Proof.
  unfold destination_of, original_name_of.
  upload_leaves dec e file w;
    (split; [intros k r Hk; simpl; try keep_row|]);
    (split; [intros k r Hk; simpl; try keep_row|]);
    (split; [intros k r Hk; simpl; try keep_row|]);
    (split; [intros p Hp; simpl;
             rewrite ?lookup_insert_ne, ?lookup_delete_ne by congruence;
             reflexivity|]);
    simpl;
    try (destruct (queue_accepts e <? 3)%nat);
    (split; [first [exists []; rewrite app_nil_r; reflexivity
                   | eexists; reflexivity]
            | first [exists []; rewrite app_nil_r; reflexivity
                    | eexists; reflexivity]]).
Qed.

(** X6. An upload call is all or nothing on the database. When it
    raises, the three tables are exactly as before, including the
    ContentRecord its transaction may already have inserted. When it
    returns, its identifier was free, and the tables differ by exactly one
    new [images] row and one new [stats] row without an end time, plus
    the ContentRecord the [images] row points to if it was not there. *)
Theorem upload_img_all_or_nothing (dec : PIL.decoder) (e : env)
    (file : Validator.UploadFile) (w : world) :
  let w' := fst (upload_img dec e file w) in
  let r := snd (upload_img dec e file w) in
  (forall ex, r = Raise ex -> db w' = db w) /\
  (forall it, r = Ok it ->
     images (db w) !! uuid4_hex e = None /\
     stats (db w) !! uuid4_hex e = None /\
     exists irow srow,
       images (db w') = <[uuid4_hex e := irow]> (images (db w)) /\
       stats (db w') = <[uuid4_hex e := srow]> (stats (db w)) /\
       end_time srow = None /\
       (metadata (db w') = metadata (db w) \/
        exists h mrow,
          metadata (db w) !! h = None /\
          metadata_sha256 irow = Some h /\
          metadata (db w') = <[h := mrow]> (metadata (db w)))).
Proof.
  upload_leaves dec e file w;
    (split; [intros ex Hex; first [reflexivity | discriminate Hex]|]);
    intros it Hit; try discriminate Hit;
    (split; [reflexivity|]); (split; [reflexivity|]);
    do 2 eexists; (split; [reflexivity|]); (split; [reflexivity|]);
    (split; [reflexivity|]).
  - left. reflexivity.
  - right. do 2 eexists. split; [exact Hmeta|]. split; reflexivity.
  - left. reflexivity.
Qed.

(** The name an accepted upload was sent under is not empty, and its
    extension is the one the validator returned. *)
Lemma accepted_name (dec : PIL.decoder) (file : Validator.UploadFile)
    (v : Validator.ValidatedUpload) :
  Validator.validate dec file = Ok v ->
  PyStr.lower (Pathlib.suffix (original_name_of file)) = Validator.ext v.
Proof.
  intros Hv.
  destruct (validate_ok_inv dec file v Hv) as (Hext & _ & _ & _ & _ & Heq).
  rewrite Heq. simpl. unfold Design.extension_of, original_name_of in *.
  destruct (Validator.filename file) as [[|c r]|]; simpl in *;
    first [discriminate Hext | reflexivity].
Qed.

(** X7. An accepted upload that the disk stores, made with a fresh
    identifier: the file is kept under
    [<MEDIA_DIR>/originals/<image_id><extension>] ([media/originals/]
    by default), the extension being the validated one; what is stored
    there is the uploaded payload, byte for byte; and the [images] row
    records that path together with the SHA-256 of those very bytes,
    for which a ContentRecord exists. *)
Theorem upload_stores_original (dec : PIL.decoder) (e : env)
    (file : Validator.UploadFile) (v : Validator.ValidatedUpload) (w : world) :
  Validator.validate dec file = Ok v ->
  disk_ok e = true ->
  consistent (db w) ->
  images (db w) !! uuid4_hex e = None ->
  let w' := fst (upload_img dec e file w) in
  let path := MEDIA_DIR e +:+ "/originals/" +:+ (uuid4_hex e +:+ Validator.ext v) in
  files w' !! path = Some (Validator.body file) /\
  (exists row,
     images (db w') !! uuid4_hex e = Some row /\
     image_path row = Some path /\
     metadata_sha256 row = Some (Hashlib.sha256_hexdigest (Validator.body file))) /\
  is_Some (metadata (db w') !! Hashlib.sha256_hexdigest (Validator.body file)).
Proof.
  intros Hv Hd Hc Hi w' path.
  pose proof (fresh_in_stats _ _ Hc Hi) as Hs.
  destruct (validate_ok_inv dec file v Hv) as (_ & _ & _ & _ & _ & Heq).
  assert (Hbytes : Validator.bytes v = Validator.body file)
    by (rewrite Heq; reflexivity).
  assert (Hsha : Validator.sha256 v = Hashlib.sha256_hexdigest (Validator.body file))
    by (rewrite Heq; reflexivity).
  assert (Hpath : destination_of e file = path).
  { unfold destination_of, path. rewrite (accepted_name dec file v Hv).
    reflexivity. }
  subst w'.
  destruct (metadata (db w) !! Validator.sha256 v) as [known|] eqn:Hm.
  - rewrite (upload_img_known_content dec e file w v known Hv Hd Hi Hs Hm).
    simpl. rewrite Hpath, <- Hsha, <- Hbytes, !lookup_insert_eq, Hm.
    split; [reflexivity|]. split; [|eauto].
    eexists. split; [reflexivity|]. simpl. rewrite Hpath. split; reflexivity.
  - rewrite (upload_img_new_content dec e file w v Hv Hd Hi Hs Hm).
    simpl. rewrite Hpath, <- Hsha, <- Hbytes, !lookup_insert_eq.
    split; [reflexivity|]. split; [|eauto].
    eexists. split; [reflexivity|]. simpl. rewrite Hpath. split; reflexivity.
Qed.

(** X7 on the 10 x 10 PNG sent as [photo.png]. *)
Lemma upload_stores_original_witness :
  files (fst (upload_img HeaderDecoder.dec Samples.req_a Samples.good_png initial))
    !! "media/originals/a0000000000000000000000000000001.png"
  = Some (HeaderDecoder.png 10 10).
Proof.
  refine (proj1 (upload_stores_original HeaderDecoder.dec Samples.req_a
                   Samples.good_png (Samples.validated_png ".png") initial
                   _ _ consistent_empty _)).
  - vm_compute. reflexivity.
  - reflexivity.
  - reflexivity.
Defined.

(** X8. When the identifier of an accepted upload of new content is
    already taken, the [images] insert fails: the call raises the
    integrity error and the database is as before, so the ContentRecord
    just inserted is rolled back; but the file has been written and the
    jobs the queue took stay on the queue, for a hash that has no
    ContentRecord. *)
Theorem image_id_collision (dec : PIL.decoder) (e : env)
    (file : Validator.UploadFile) (v : Validator.ValidatedUpload) (w : world)
    (taken : images_row) :
  Validator.validate dec file = Ok v ->
  disk_ok e = true ->
  images (db w) !! uuid4_hex e = Some taken ->
  metadata (db w) !! Validator.sha256 v = None ->
  let w' := fst (upload_img dec e file w) in
  snd (upload_img dec e file w)
    = Raise (IntegrityError "UNIQUE constraint failed: images.image_id") /\
  db w' = db w /\
  metadata (db w') !! Validator.sha256 v = None /\
  queue w' = queue w ++ List.firstn (queue_accepts e) (processing_jobs e file v) /\
  files w' !! destination_of e file = Some (Validator.bytes v).
Proof.
  intros Hv Hd Hi Hm. unfold upload_img. rewrite Hv, Hd. simpl.
  unfold insert_or_ignore_metadata. rewrite Hm. simpl.
  rewrite enqueue_all_length. simpl.
  unfold insert_images, bind. simpl. rewrite Hi. simpl.
  rewrite lookup_insert_eq. repeat split; try reflexivity. exact Hm.
Qed.

(** X8 on a second upload that reuses the identifier of the first. *)
Lemma image_id_collision_witness :
  let w := fst (upload_img HeaderDecoder.dec Samples.req_a Samples.good_png initial) in
  let w' := fst (upload_img HeaderDecoder.dec Samples.req_a Samples.other_png w) in
  db w' = db w /\ List.length (queue w') = 6%nat.
Proof.
  intros w w'.
  assert (Hv : exists v, Validator.validate HeaderDecoder.dec Samples.other_png = Ok v).
  { eexists. vm_compute. reflexivity. }
  destruct Hv as [v Hv].
  assert (Hsha : Validator.sha256 v
                 = Hashlib.sha256_hexdigest (HeaderDecoder.png 20 20)).
  { revert Hv. vm_compute. intros [= <-]. reflexivity. }
  assert (Htaken : exists r, images (db w) !! uuid4_hex Samples.req_a = Some r).
  { eexists. vm_compute. reflexivity. }
  destruct Htaken as [taken Htaken].
  destruct (image_id_collision HeaderDecoder.dec Samples.req_a Samples.other_png
              v w taken Hv eq_refl Htaken) as (_ & Hdb & _ & Hq & _).
  - rewrite Hsha. vm_compute. reflexivity.
  - split; [exact Hdb|]. fold w' in Hq. rewrite Hq, length_app.
    vm_compute. reflexivity.
Defined.

End UploadExtras.

(** ** More on the jobs *)

Section JobExtras.

Import Schema Api Rows.

Lemma alter_none_iff {A : Type} (f : A -> A) (i k : string) (m : gmap string A) :
  alter f i m !! k = None <-> m !! k = None.
Proof.
  destruct (decide (i = k)) as [->|Hne].
  - rewrite lookup_alter_eq. destruct (m !! k); simpl; split; congruence.
  - rewrite lookup_alter_ne by exact Hne. reflexivity.
Qed.

Lemma alter_some {A : Type} (f : A -> A) (i k : string) (m : gmap string A)
    (r r' : A) :
  m !! k = Some r -> alter f i m !! k = Some r' -> r' = r \/ r' = f r.
Proof.
  intros Hr. destruct (decide (i = k)) as [->|Hne].
  - rewrite lookup_alter_eq, Hr. simpl. intros [= <-]. right. reflexivity.
  - rewrite lookup_alter_ne, Hr by exact Hne. intros [= <-]. left. reflexivity.
Qed.


(** What a job does, by tables: the database, the files and the queue
    after [run_job], in terms of the three updates. *)
Lemma run_job_db (t : tools) (clock : Z) (j : job) (w : world) :
  db (fst (run_job t clock j w)) = db w \/
  (exists h p text, j = exif_job h p /\
     db (fst (run_job t clock j w)) = update_exif h text (db w)) \/
  (exists h p i text, j = caption_job h p i /\
     db (fst (run_job t clock j w))
       = update_processed_at i clock
           (update_stats_done i 1 clock (update_caption h text (db w)))).
Proof.
  destruct j as [h p|h p|h p i]; simpl.
  - left. unfold run_thumbnail_job.
    destruct (with_file w p (generateThumbnail t)) as [[small medium]|]; reflexivity.
  - unfold run_exif_job.
    destruct (with_file w p (extractExif t)) as [text|]; simpl; [|left; reflexivity].
    right. left. eauto.
  - unfold run_caption_job.
    destruct (with_file w p (extractCaption t)) as [text|]; simpl; [|left; reflexivity].
    right. right. eauto 6.
Qed.


(** X10. A job raises when the stored original it is given is missing,
    and a job that raises has changed no table and no queue entry; an
    EXIF or caption job that raises has changed no file either. *)
Theorem job_failure_changes_nothing (t : tools) (clock : Z) (j : job) (w : world) :
  let w' := fst (run_job t clock j w) in
  let r := snd (run_job t clock j w) in
  (files w !! match j with
              | thumbnail_job _ p | exif_job _ p | caption_job _ p _ => p
              end = None -> r <> Ok tt) /\
  (r <> Ok tt ->
     db w' = db w /\ queue w' = queue w /\
     match j with
     | thumbnail_job _ _ => True
     | exif_job _ _ | caption_job _ _ _ => files w' = files w
     end).
Proof.
  destruct j as [h p|h p|h p i]; simpl;
    unfold run_thumbnail_job, run_exif_job, run_caption_job, with_file;
    (destruct (files w !! p) as [data|]; simpl;
     [ match goal with
       | |- context [generateThumbnail t data] =>
           destruct (generateThumbnail t data) as [[small medium]|]
       | |- context [extractExif t data] => destruct (extractExif t data)
       | |- context [extractCaption t data] => destruct (extractCaption t data)
       end; simpl | ]);
    (split; [intros Hnone; try discriminate Hnone; discriminate
            | intros Hr; try (exfalso; apply Hr; reflexivity); auto]).
Qed.

(** X11. When the caption tool returns, the caption job stamps the
    outcome of its [image_id] with the clock and with status 1 whatever
    the row held before, a failed status included, and keeps its start
    time; it stores the caption in the ContentRecord of its hash and
    leaves the EXIF text alone; a row that is missing stays missing,
    and the outcomes of the other attempts and the other ContentRecords
    are untouched. *)
Theorem caption_job_finishes_outcome (t : tools) (clock : Z)
    (sha256 image_path image_id text : string) (w : world) :
  with_file w image_path (extractCaption t) = Some text ->
  let d' := db (fst (run_caption_job t clock sha256 image_path image_id w)) in
  stats d' !! image_id
    = (fun r => mkStats (start_time r) (Some clock) 1) <$> stats (db w) !! image_id /\
  (caption <$> metadata d' !! sha256)
    = ((fun _ => Some text) <$> metadata (db w) !! sha256) /\
  (exif_json <$> metadata d' !! sha256) = (exif_json <$> metadata (db w) !! sha256) /\
  (forall k, k <> image_id ->
     stats d' !! k = stats (db w) !! k /\ images d' !! k = images (db w) !! k) /\
  (forall k, k <> sha256 -> metadata d' !! k = metadata (db w) !! k).
Proof.
  intros Ht. unfold run_caption_job. rewrite Ht. simpl.
  rewrite !lookup_alter_eq.
  split; [reflexivity|].
  split; [destruct (metadata (db w) !! sha256); reflexivity|].
  split; [destruct (metadata (db w) !! sha256); reflexivity|].
  split.
  - intros k Hk. rewrite !lookup_alter_ne by congruence. split; reflexivity.
  - intros k Hk. rewrite lookup_alter_ne by congruence. reflexivity.
Qed.

(** X11 on the sample history: the caption job of the first upload. *)
Lemma caption_job_finishes_outcome_witness :
  let w := fst (upload_img HeaderDecoder.dec Samples.req_a Samples.good_png initial) in
  stats (db (fst (run_caption_job Samples.tools 110
                    (Hashlib.sha256_hexdigest (HeaderDecoder.png 10 10))
                    "media/originals/a0000000000000000000000000000001.png"
                    (uuid4_hex Samples.req_a) w)))
    !! uuid4_hex Samples.req_a
  = Some (mkStats 100 (Some 110) 1).
Proof.
  intros w.
  assert (Ht : with_file w "media/originals/a0000000000000000000000000000001.png"
                 (extractCaption Samples.tools) = Some "a small picture")
    by (vm_compute; reflexivity).
  rewrite (proj1 (caption_job_finishes_outcome Samples.tools 110
                    (Hashlib.sha256_hexdigest (HeaderDecoder.png 10 10))
                    "media/originals/a0000000000000000000000000000001.png"
                    (uuid4_hex Samples.req_a) "a small picture" w Ht)).
  vm_compute. reflexivity.
Defined.

Lemma alter_swap {A : Type} (f g : A -> A) (i j : string) (m : gmap string A) :
  (forall x, f (g x) = g (f x)) ->
  alter f i (alter g j m) = alter g j (alter f i m).
Proof.
  intros Hfg. apply map_eq. intros k.
  destruct (decide (i = k)) as [->|Hi], (decide (j = k)) as [->|Hj];
    rewrite ?lookup_alter_eq, ?lookup_alter_ne by assumption;
    rewrite ?lookup_alter_eq, ?lookup_alter_ne by assumption;
    try reflexivity.
  destruct (m !! k); simpl; [rewrite Hfg|]; reflexivity.
Qed.

Lemma rowcount_after_alter (f : metadata_row -> metadata_row) (i k : string)
    (m : gmap string metadata_row) :
  match alter f i m !! k with Some _ => 1 | None => 0 end
    = match m !! k with Some _ => 1 | None => 0 end.
Proof.
  destruct (decide (i = k)) as [->|Hne].
  - rewrite lookup_alter_eq. destruct (m !! k); reflexivity.
  - rewrite lookup_alter_ne by exact Hne. reflexivity.
Qed.

(** X12. The EXIF job and the caption job do not depend on each other's
    order: run one after the other, on the same or on different
    content, succeeding or failing, they leave the same database, files,
    queue and log whichever runs first (the caption job reading the
    same time from the clock in both orders). *)
Theorem exif_and_caption_jobs_commute (t : tools) (clock : Z)
    (h1 p1 h2 p2 i : string) (w : world) :
  fst (run_caption_job t clock h2 p2 i (fst (run_exif_job t h1 p1 w)))
    = fst (run_exif_job t h1 p1 (fst (run_caption_job t clock h2 p2 i w))).
Proof.
  unfold run_exif_job, run_caption_job, with_file.
  destruct (files w !! p1) as [d1|] eqn:H1; simpl;
    [destruct (extractExif t d1) as [ex|] eqn:He; simpl|];
    (destruct (files w !! p2) as [d2|] eqn:H2; simpl;
     [destruct (extractCaption t d2) as [text|] eqn:Hc; simpl|]);
    rewrite ?H1, ?H2; simpl; rewrite ?He, ?Hc; simpl; try reflexivity.
  unfold update_processed_at, update_stats_done, update_caption, update_exif.
  simpl. rewrite rowcount_after_alter. f_equal. f_equal.
  apply alter_swap. intros x. reflexivity.
Qed.

End JobExtras.

(** ** The read endpoints *)

Section ViewExtras.

Import Schema Api Rows Views.

(** The reason of a rejection is never the empty string. *)
Lemma validate_reason_nonempty (dec : PIL.decoder) (file : Validator.UploadFile)
    (code : Z) (reason : string) :
  Validator.validate dec file = Raise (HTTPException code reason) ->
  reason <> "".
Proof.
  unfold Validator.validate, Validator.validate_run.
  destruct (negb _); simpl; [intros [= <- <-]; discriminate|].
  destruct (negb _); simpl; [intros [= <- <-]; discriminate|].
  destruct (Validator.body file) as [|b data]; simpl;
    [intros [= <- <-]; discriminate|].
  destruct (negb _); simpl; [intros [= <- <-]; discriminate|].
  destruct (Validator.pil_validate_run dec (b :: data) Validator.MAX_PIXELS)
    as [calls r] eqn:Hrun.
  simpl. destruct r as [[[wd ht] fmt]|ex]; simpl; [discriminate|].
  intros [= ->].
  assert (He : Validator.pil_validate dec (b :: data) Validator.MAX_PIXELS
               = Raise (HTTPException code reason))
    by (unfold Validator.pil_validate; rewrite Hrun; reflexivity).
  apply pil_validate_rejection in He.
  destruct He as [[= _ ->]|(cls & Hcls)]; discriminate.
Qed.

(** X13. Reading back an upload: when [upload_img] returns, [get_image]
    on the identifier it answered with finds the attempt and shows the
    same status, identifier, original name, thumbnail links and error
    as the upload's own response. For a rejected upload both carry no
    metadata. For an accepted one both carry the processing time the
    upload recorded and the same hash; the width, height, format and
    size shown are those of the response when the content was new
    (with no EXIF and no caption yet), and those of the ContentRecord
    already stored, with its EXIF and caption, when the content was
    known. *)
Theorem get_image_after_upload {J : Type} (loads : string -> option J)
    (dec : PIL.decoder) (e : env) (file : Validator.UploadFile) (w : world)
    (it : item) :
  snd (upload_img dec e file w) = Ok it ->
  exists view,
    get_image loads (base_url e) (uuid4_hex e) (db (fst (upload_img dec e file w)))
      = Ok view /\
    d_status view = i_status it /\
    d_image_id view = i_image_id it /\
    d_original_name view = i_original_name it /\
    d_thumbnails view = i_thumbnails it /\
    d_error view = i_error it /\
    match i_metadata it, d_metadata view with
    | None, None => i_status it = "failed"
    | Some im, Some vm =>
        i_status it = "success" /\
        d_processed_at view = i_processed_at it /\
        v_sha256 vm = m_sha256 im /\
        match metadata (db w) !! m_sha256 im with
        | None =>
            v_width vm = Some (m_width im) /\
            v_height vm = Some (m_height im) /\
            v_format vm = Some (m_format im) /\
            v_size_bytes vm = Some (m_size_bytes im) /\
            v_exif_json vm = None /\
            v_caption vm = None
        | Some known =>
            v_width vm = Some (width known) /\
            v_height vm = Some (height known) /\
            v_format vm = Some (format known) /\
            v_size_bytes vm = Some (size_bytes known) /\
            v_exif_json vm = parse_exif loads (exif_json known) /\
            v_caption vm = caption known
        end
    | _, _ => False
    end.
Proof.
  pose proof (validate_reason_nonempty dec file) as Hreason.
  revert Hreason.
  upload_leaves dec e file w; intros Hreason Hit; try discriminate Hit;
    injection Hit as <-; unfold get_image; simpl;
    rewrite lookup_insert_eq; simpl.
  - eexists. split; [reflexivity|]. simpl. rewrite Hmeta. simpl.
    repeat split; reflexivity.
  - eexists. split; [reflexivity|]. simpl. rewrite Hmeta. simpl.
    rewrite lookup_insert_eq. simpl. repeat split; reflexivity.
  - eexists. split; [reflexivity|]. simpl.
    repeat split; try reflexivity.
    destruct reason as [|c r]; [exfalso; exact (Hreason code "" eq_refl eq_refl)|].
    reflexivity.
Qed.

(** X13 on the first sample upload, read back on the empty service. *)
Lemma get_image_after_upload_witness :
  exists view,
    get_image (fun _ : string => @None unit) "http://testserver/"
      "a0000000000000000000000000000001"
      (db (fst (upload_img HeaderDecoder.dec Samples.req_a Samples.good_png initial)))
      = Ok view /\
    d_status view = "success" /\
    d_thumbnails view
      = [ ("small",
           "http://testserver/api/images/a0000000000000000000000000000001/thumbnails/small");
          ("medium",
           "http://testserver/api/images/a0000000000000000000000000000001/thumbnails/medium") ].
Proof.
  destruct (get_image_after_upload (fun _ : string => @None unit)
              HeaderDecoder.dec Samples.req_a Samples.good_png initial
              (success_item Samples.req_a Samples.good_png (Samples.validated_png ".png")))
    as (view & Hview & Hstatus & _ & _ & Hthumbs & _).
  - vm_compute. reflexivity.
  - exists view. split; [exact Hview|]. split; [exact Hstatus | exact Hthumbs].
Defined.

(** With [MEDIA_DIR] at its default, the thumbnail files that
    [get_thumbnail] looks for are the ones [generateThumbnail] writes,
    and the two sizes never share a file. *)
Lemma thumb_path_small (h : string) :
  thumb_path "media" "small" h = THUMBS_DIR +:+ "/small/" +:+ h +:+ ".jpeg".
Proof. reflexivity. Qed.

Lemma thumb_path_medium (h : string) :
  thumb_path "media" "medium" h = THUMBS_DIR +:+ "/medium/" +:+ h +:+ ".jpeg".
Proof. reflexivity. Qed.

Lemma thumb_paths_differ (h h' : string) :
  thumb_path "media" "small" h <> thumb_path "media" "medium" h'.
Proof. discriminate. Qed.

(** X14. Provided [MEDIA_DIR] is left at its default [media]
    ([generateThumbnail] writes under [media/thumbnails] whatever
    [MEDIA_DIR] is, and [get_thumbnail] reads under
    [<MEDIA_DIR>/thumbnails]): once the thumbnail job of a hash has run
    to its end, [get_thumbnail] serves both sizes for every attempt
    that is linked to this hash, re-uploads of the same content
    included; the small file is the tool's small picture and the medium
    file its medium one, each sent as [image/jpeg] under the name
    [<sha256>_<size>.jpeg]. *)
Theorem thumbnail_job_serves_every_attempt (t : tools)
    (media_dir h p image_id : string)
    (small medium : list byte) (row : images_row) (w : world) :
  media_dir = "media" ->
  with_file w p (generateThumbnail t) = Some (small, medium) ->
  images (db w) !! image_id = Some row ->
  metadata_sha256 row = Some h ->
  let w' := fst (run_thumbnail_job t h p w) in
  (exists r, get_thumbnail media_dir image_id "small" w' = Ok r /\
     files w' !! f_path r = Some small /\
     f_media_type r = "image/jpeg" /\ f_filename r = h +:+ "_small.jpeg") /\
  (exists r, get_thumbnail media_dir image_id "medium" w' = Ok r /\
     files w' !! f_path r = Some medium /\
     f_media_type r = "image/jpeg" /\ f_filename r = h +:+ "_medium.jpeg").
Proof.
  intros -> Ht Hrow Hsha. unfold run_thumbnail_job. rewrite Ht. simpl.
  unfold get_thumbnail. simpl. rewrite Hrow, Hsha.
  rewrite <- thumb_path_small, <- thumb_path_medium.
  rewrite lookup_insert_eq.
  rewrite lookup_insert_ne by (intros E; exact (thumb_paths_differ h h (eq_sym E))).
  rewrite lookup_insert_eq.
  split; eexists; (split; [reflexivity|]); simpl.
  - rewrite lookup_insert_ne by (intros E; exact (thumb_paths_differ h h (eq_sym E))).
    rewrite lookup_insert_eq. repeat split.
  - rewrite lookup_insert_eq. repeat split.
Qed.

(** X14 on the sample service: the thumbnail job of the first upload
    serves the copy uploaded afterwards under another name. *)
Lemma thumbnail_job_serves_every_attempt_witness :
  let w := run HeaderDecoder.dec Samples.tools
             [ Upload Samples.req_a Samples.good_png;
               Upload Samples.req_b Samples.same_png_again ] initial in
  let h := Hashlib.sha256_hexdigest (HeaderDecoder.png 10 10) in
  let w' := fst (run_thumbnail_job Samples.tools h
                   "media/originals/a0000000000000000000000000000001.png" w) in
  exists r,
    get_thumbnail (MEDIA_DIR Samples.req_b) "b0000000000000000000000000000002"
      "small" w' = Ok r /\
    files w' !! f_path r = Some (HeaderDecoder.png 10 10).
Proof.
  intros w h w'.
  assert (Ht : with_file w "media/originals/a0000000000000000000000000000001.png"
                 (generateThumbnail Samples.tools)
               = Some (HeaderDecoder.png 10 10, HeaderDecoder.png 10 10))
    by (vm_compute; reflexivity).
  assert (Hrow : images (db w) !! "b0000000000000000000000000000002"
                 = Some (accepted_attempt Samples.req_b Samples.same_png_again
                           (Samples.validated_png ".png")))
    by (vm_compute; reflexivity).
  destruct (thumbnail_job_serves_every_attempt Samples.tools
              (MEDIA_DIR Samples.req_b) h
              "media/originals/a0000000000000000000000000000001.png"
              "b0000000000000000000000000000002"
              (HeaderDecoder.png 10 10) (HeaderDecoder.png 10 10) _ w
              eq_refl Ht Hrow eq_refl) as [(r & Hr & Hfile & _) _].
  exists r. split; [exact Hr | exact Hfile].
Defined.

Lemma append_cancel_l (m a b : string) : m +:+ a = m +:+ b -> a = b.
Proof.
  induction m as [|c m IH]; simpl; [auto|]. intros [= H]. exact (IH H).
Qed.

(** X15. Asking for a thumbnail right after an upload. For a size other
    than small and medium the answer is a 400 whatever the identifier.
    For a rejected upload it is the 404 "No thumbnail for failed
    upload". For an accepted upload it depends only on the thumbnail
    file of the content's hash as it was before the call: the 404
    "Thumbnail not generated yet" when there is none, as for content
    seen for the first time whose jobs have not run, and the file
    otherwise, as for a re-upload of content whose thumbnails exist. *)
Theorem thumbnail_right_after_upload (dec : PIL.decoder) (e : env)
    (file : Validator.UploadFile) (w : world) (it : item) (size : string) :
  snd (upload_img dec e file w) = Ok it ->
  get_thumbnail (MEDIA_DIR e) (uuid4_hex e) size (fst (upload_img dec e file w))
    = if negb (String.eqb size "small" || String.eqb size "medium") then
        Raise (HTTPException 400 "Invalid thumbnail size")
      else
        match i_metadata it with
        | None => Raise (HTTPException 404 "No thumbnail for failed upload")
        | Some im =>
            match files w !! thumb_path (MEDIA_DIR e) size (m_sha256 im) with
            | None => Raise (HTTPException 404 "Thumbnail not generated yet")
            | Some _ =>
                Ok (mkFileResponse (thumb_path (MEDIA_DIR e) size (m_sha256 im))
                      "image/jpeg"
                      (m_sha256 im +:+ "_" +:+ size +:+ ".jpeg")
                      [("Cache-Control", "public, max-age=31536000, immutable")])
            end
        end.
Proof.
  unfold get_thumbnail.
  destruct (negb (String.eqb size "small" || String.eqb size "medium")) eqn:Hsize;
    [reflexivity|].
  assert (Hpath : forall h x,
            thumb_path (MEDIA_DIR e) size h <> MEDIA_DIR e +:+ "/originals/" +:+ x).
  { intros h x E. apply append_cancel_l in E. discriminate E. }
  upload_leaves dec e file w; intros Hit; try discriminate Hit;
    injection Hit as <-; simpl; rewrite lookup_insert_eq; simpl;
    rewrite ?lookup_insert_ne by (intros E; exact (Hpath _ _ (eq_sym E)));
    reflexivity.
Qed.

(** X15 on the first sample upload, whose jobs have not run. *)
Lemma thumbnail_right_after_upload_witness :
  get_thumbnail "media" "a0000000000000000000000000000001" "small"
    (fst (upload_img HeaderDecoder.dec Samples.req_a Samples.good_png initial))
  = Raise (HTTPException 404 "Thumbnail not generated yet").
Proof.
  assert (Hit : snd (upload_img HeaderDecoder.dec Samples.req_a Samples.good_png initial)
                = Ok (success_item Samples.req_a Samples.good_png
                        (Samples.validated_png ".png")))
    by (vm_compute; reflexivity).
  etransitivity.
  - exact (thumbnail_right_after_upload HeaderDecoder.dec Samples.req_a
             Samples.good_png initial _ "small" Hit).
  - vm_compute. reflexivity.
Defined.

End ViewExtras.

(** ** Histories of uploads and worker turns *)

Section HistoryExtras.

Import Schema Api Rows Histories.

(** The four outcomes of an upload call made with a fresh identifier
    on a database that satisfies its foreign keys: the validator
    rejects the file; the call raises (the decoder's exception that
    nothing catches, or a disk that refuses the file) and leaves the
    database and the queue as they were; new content is accepted; known
    content is accepted. *)
Lemma upload_img_fresh_cases (dec : PIL.decoder) (e : env)
    (file : Validator.UploadFile) (w : world) :
  consistent (db w) ->
  images (db w) !! uuid4_hex e = None ->
  (exists code reason,
     Validator.validate dec file = Raise (HTTPException code reason) /\
     upload_img dec e file w =
       (mkWorld
          (mkDatabase (metadata (db w))
             (<[uuid4_hex e := failed_attempt e file reason]> (images (db w)))
             (<[uuid4_hex e := mkStats (now e) None 0]> (stats (db w))))
          (files w) (queue w) (log w),
        Ok (failed_item e file reason))) \/
  (exists ex fs,
     upload_img dec e file w = (mkWorld (db w) fs (queue w) (log w), Raise ex)) \/
  (exists v,
     Validator.validate dec file = Ok v /\ disk_ok e = true /\
     metadata (db w) !! Validator.sha256 v = None /\
     upload_img dec e file w =
       (mkWorld
          (mkDatabase
             (<[Validator.sha256 v := content_record e v]> (metadata (db w)))
             (<[uuid4_hex e := accepted_attempt e file v]> (images (db w)))
             (<[uuid4_hex e := mkStats (now e) None 1]> (stats (db w))))
          (<[destination_of e file := Validator.bytes v]> (files w))
          (queue w ++ List.firstn (queue_accepts e) (processing_jobs e file v))
          (if (queue_accepts e <? 3)%nat
           then log w ++ [failed_to_enqueue (Validator.sha256 v) (uuid4_hex e)]
           else log w),
        Ok (success_item e file v))) \/
  (exists v known,
     Validator.validate dec file = Ok v /\ disk_ok e = true /\
     metadata (db w) !! Validator.sha256 v = Some known /\
     upload_img dec e file w =
       (mkWorld
          (mkDatabase
             (metadata (db w))
             (<[uuid4_hex e := accepted_attempt e file v]> (images (db w)))
             (<[uuid4_hex e := mkStats (now e) None 1]> (stats (db w))))
          (<[destination_of e file := Validator.bytes v]> (files w))
          (queue w) (log w),
        Ok (success_item e file v))).
Proof.
  intros Hc Hi. pose proof (fresh_in_stats _ _ Hc Hi) as Hs.
  destruct (Validator.validate dec file) as [v|ex] eqn:Hv.
  - right. destruct (disk_ok e) eqn:Hd.
    + right. destruct (metadata (db w) !! Validator.sha256 v) as [known|] eqn:Hm.
      * right. exists v, known. repeat split; try assumption.
        apply (upload_img_known_content dec e file w v known); assumption.
      * left. exists v. repeat split; try assumption.
        apply upload_img_new_content; assumption.
    + left. rewrite (upload_img_disk_failure dec e file w v Hv Hd).
      destruct (unlink_raises e); eauto.
  - destruct (validate_raise_inv dec file ex Hv)
      as [(detail & r & -> & _)|(cls & ->)].
    + left. exists 400, detail. split; [reflexivity|].
      apply upload_img_rejected with (code := 400); assumption.
    + right. left. exists (PyError cls), (files w).
      unfold upload_img. rewrite Hv. destruct w; reflexivity.
Qed.

(** A worker turn creates and deletes no ContentRecord. *)
Lemma work_metadata_keys (t : tools) (clock : Z) (n : nat) (w : world) (k : string) :
  metadata (db (work t clock n w)) !! k = None <-> metadata (db w) !! k = None.
Proof.
  unfold work. destruct (queue w !! n) as [j|]; [|reflexivity].
  set (w0 := mkWorld (db w) (files w) _ (log w)).
  destruct (run_job_db t clock j w0)
    as [->|[(h & x & text & _ & ->)|(h & x & i & text & _ & ->)]]; simpl.
  - reflexivity.
  - apply alter_none_iff.
  - apply alter_none_iff.
Qed.

(** A ContentRecord, once there, is there for good. *)
Lemma step_keeps_content (dec : PIL.decoder) (t : tools) (ev : event)
    (w : world) (k : string) :
  is_Some (metadata (db w) !! k) ->
  is_Some (metadata (db (step dec t w ev)) !! k).
Proof.
  intros Hk. destruct ev as [e file|clock n]; simpl.
  - revert Hk. upload_leaves dec e file w; intros Hk; try exact Hk.
    destruct (decide (Validator.sha256 v = k)) as [<-|Hne].
    + rewrite lookup_insert_eq. eauto.
    + rewrite lookup_insert_ne by exact Hne. exact Hk.
  - destruct (metadata (db (work t clock n w)) !! k) eqn:Hw; [eauto|].
    apply work_metadata_keys in Hw. rewrite Hw in Hk. destruct Hk; discriminate.
Qed.

Lemma run_keeps_content (dec : PIL.decoder) (t : tools) (evs : list event)
    (w : world) (k : string) :
  is_Some (metadata (db w) !! k) ->
  is_Some (metadata (db (run dec t evs w)) !! k).
Proof.
  revert w. induction evs as [|ev evs IH]; intros w Hk; [exact Hk|].
  simpl. apply IH. apply step_keeps_content. exact Hk.
Qed.

Lemma step_consistent (dec : PIL.decoder) (t : tools) (ev : event) (w : world) :
  consistent (db w) -> consistent (db (step dec t w ev)).
Proof.
  intros Hc. destruct ev as [e file|clock n]; simpl.
  - apply upload_img_consistent. exact Hc.
  - apply work_consistent. exact Hc.
Qed.

(** The jobs of one upload are of three different kinds. *)
Lemma processing_jobs_keys (e : env) (file : Validator.UploadFile)
    (v : Validator.ValidatedUpload) (k : nat) :
  NoDup (List.map job_key (List.firstn k (processing_jobs e file v))) /\
  forall j, j ∈ List.firstn k (processing_jobs e file v) ->
    snd (job_key j) = Validator.sha256 v.
Proof.
  unfold processing_jobs.
  destruct k as [|[|[|k]]]; simpl; rewrite ?take_nil; (split; [|intros j Hj]).
  all: repeat match goal with
       | H : _ ∈ [] |- _ => apply elem_of_nil in H; destruct H
       | H : _ ∈ _ :: _ |- _ => apply elem_of_cons in H; destruct H as [->|H]
       end; try reflexivity.
  all: repeat (apply NoDup_cons; split;
               [rewrite ?elem_of_cons, elem_of_nil; intuition discriminate|]);
       apply NoDup_nil_2.
Qed.

(** X16. Over a whole history of uploads and worker turns in which
    [uuid4] never repeats an identifier, starting from a database that
    satisfies its foreign keys: the uploads enqueue at most one job of
    each kind (thumbnail, EXIF, caption) for each content hash, however
    often the content is uploaded and whatever the worker does in
    between; and every job they enqueue is for content that had no
    ContentRecord at the start and has one at the end. *)
Theorem one_job_of_each_kind_per_content (dec : PIL.decoder) (t : tools)
    (evs : list event) (w : world) :
  consistent (db w) ->
  ids_fresh dec t evs w ->
  NoDup (List.map job_key (enqueued dec t evs w)) /\
  forall j, j ∈ enqueued dec t evs w ->
    metadata (db w) !! snd (job_key j) = None /\
    is_Some (metadata (db (run dec t evs w)) !! snd (job_key j)).
Proof.
  revert w. induction evs as [|ev evs IH]; intros w Hc Hfresh.
  { simpl. split; [apply NoDup_nil_2|].
    intros j Hj. apply elem_of_nil in Hj. destruct Hj. }
  destruct Hfresh as [Hid Hfresh].
  destruct (IH _ (step_consistent dec t ev w Hc) Hfresh) as [IHnd IHnew].
  assert (Hback : forall k, metadata (db (step dec t w ev)) !! k = None ->
                            metadata (db w) !! k = None).
  { intros k Hk. destruct (metadata (db w) !! k) eqn:Hw; [|reflexivity].
    assert (Hsome : is_Some (metadata (db w) !! k)) by (rewrite Hw; eauto).
    apply (step_keeps_content dec t ev) in Hsome. rewrite Hk in Hsome.
    destruct Hsome; discriminate. }
  assert (Hrest : forall j, j ∈ enqueued dec t evs (step dec t w ev) ->
            metadata (db w) !! snd (job_key j) = None /\
            is_Some (metadata (db (run dec t (ev :: evs) w)) !! snd (job_key j))).
  { intros j Hj. destruct (IHnew j Hj) as [Hn Hs]. split; [apply Hback, Hn | exact Hs]. }
  destruct ev as [e file|clock n]; [|simpl enqueued; split; assumption].
  change (enqueued dec t (Upload e file :: evs) w)
    with (List.skipn (List.length (queue w)) (queue (step dec t w (Upload e file)))
            ++ enqueued dec t evs (step dec t w (Upload e file))).
  destruct (upload_img_fresh_cases dec e file w Hc Hid)
    as [(code & reason & _ & Hup)|[(ex & fs & Hup)
       |[(v & Hv & Hd & Hm & Hup)|(v & known & _ & _ & _ & Hup)]]].
  all: assert (Hstep : step dec t w (Upload e file) = fst (upload_img dec e file w))
         by reflexivity;
       rewrite Hup in Hstep; simpl fst in Hstep.
  1,2,4: replace (List.skipn (List.length (queue w))
                    (queue (step dec t w (Upload e file))))
           with (@nil job)
           by (rewrite Hstep; simpl queue; rewrite drop_all; reflexivity);
         split; assumption.
  replace (List.skipn (List.length (queue w)) (queue (step dec t w (Upload e file))))
    with (List.firstn (queue_accepts e) (processing_jobs e file v))
    by (rewrite Hstep; simpl queue; rewrite drop_app_length; reflexivity).
  destruct (processing_jobs_keys e file v (queue_accepts e)) as [Hnd Hkeys].
  split.
  - rewrite map_app. apply NoDup_app. split; [exact Hnd|]. split; [|exact IHnd].
    intros key Hin1 Hin2.
    apply list_elem_of_fmap in Hin1. destruct Hin1 as (j1 & -> & Hj1).
    apply list_elem_of_fmap in Hin2. destruct Hin2 as (j2 & Heq & Hj2).
    destruct (IHnew j2 Hj2) as [Hnone _].
    rewrite <- Heq, (Hkeys j1 Hj1), Hstep in Hnone. simpl in Hnone.
    rewrite lookup_insert_eq in Hnone. discriminate.
  - intros j Hj. apply elem_of_app in Hj. destruct Hj as [Hj|Hj]; [|apply Hrest, Hj].
    rewrite (Hkeys j Hj). split; [exact Hm|].
    change (run dec t (Upload e file :: evs) w)
      with (run dec t evs (step dec t w (Upload e file))).
    apply run_keeps_content. rewrite Hstep. simpl.
    rewrite lookup_insert_eq. eauto.
Qed.

(** X16 on a history that uploads the same picture three times, with
    a worker turn in between. *)
Lemma one_job_of_each_kind_per_content_witness :
  let evs := [ Upload Samples.req_a Samples.good_png;
               Upload Samples.req_b Samples.same_png_again;
               Work 110 0;
               Upload Samples.req_c Samples.png_named_jpg ] in
  List.map job_key (enqueued HeaderDecoder.dec Samples.tools evs initial)
    = [ ("thumbnail", Hashlib.sha256_hexdigest (HeaderDecoder.png 10 10));
        ("exif", Hashlib.sha256_hexdigest (HeaderDecoder.png 10 10));
        ("caption", Hashlib.sha256_hexdigest (HeaderDecoder.png 10 10)) ] /\
  NoDup (List.map job_key (enqueued HeaderDecoder.dec Samples.tools evs initial)).
Proof.
  intros evs. split; [vm_compute; reflexivity|].
  apply (one_job_of_each_kind_per_content HeaderDecoder.dec Samples.tools evs initial).
  - exact consistent_empty.
  - simpl. repeat split; vm_compute; reflexivity.
Defined.

(** The [metadata] table after an upload call: as before, or with the
    ContentRecord of the validated upload added. *)
Lemma upload_img_metadata (dec : PIL.decoder) (e : env)
    (file : Validator.UploadFile) (w : world) :
  metadata (db (fst (upload_img dec e file w))) = metadata (db w) \/
  exists v, Validator.validate dec file = Ok v /\
    metadata (db (fst (upload_img dec e file w)))
      = <[Validator.sha256 v := content_record e v]> (metadata (db w)).
Proof.
  upload_leaves dec e file w; try (left; reflexivity).
  right. exists v. split; reflexivity.
Qed.

Lemma step_content_wellformed (dec : PIL.decoder) (t : tools) (ev : event)
    (w : world) :
  metadata_wellformed (db w) -> metadata_wellformed (db (step dec t w ev)).
Proof.
  intros Hw h r Hr. destruct ev as [e file|clock n]; simpl in Hr.
  - destruct (upload_img_metadata dec e file w) as [Heq|(v & Hv & Heq)];
      rewrite Heq in Hr; [exact (Hw h r Hr)|].
    destruct (decide (Validator.sha256 v = h)) as [<-|Hne].
    2:{ rewrite lookup_insert_ne in Hr by exact Hne. exact (Hw h r Hr). }
    rewrite lookup_insert_eq in Hr. injection Hr as <-.
    destruct (validate_ok_inv dec file v Hv) as (_ & _ & Hbody & _ & Hpil & Heqv).
    exists (Validator.body file). split; [exact Hbody|].
    split; [rewrite Heqv; reflexivity|].
    split; [rewrite Heqv; reflexivity|].
    simpl. apply (pil_validate_within dec (Validator.body file) 50000000 _ _
                    (Validator.format v)); [lia | exact Hpil].
  - unfold work in Hr. destruct (queue w !! n) as [j|]; [|exact (Hw h r Hr)].
    set (w0 := mkWorld (db w) (files w) _ (log w)) in Hr.
    destruct (run_job_db t clock j w0)
      as [Heq|[(h' & x & text & _ & Heq)|(h' & x & i & text & _ & Heq)]];
      rewrite Heq in Hr; simpl in Hr; [exact (Hw h r Hr)| |].
    + destruct (metadata (db w) !! h) as [r0|] eqn:Hr0.
      2:{ match type of Hr with
          | alter ?f ?i ?m !! _ = _ =>
              rewrite (proj2 (alter_none_iff f i h m) Hr0) in Hr
          end. discriminate. }
      destruct (Hw h r0 Hr0) as (data & Hd).
      destruct (alter_some _ _ _ _ _ _ Hr0 Hr) as [-> | ->];
        exists data; exact Hd.
    + destruct (metadata (db w) !! h) as [r0|] eqn:Hr0.
      2:{ match type of Hr with
          | alter ?f ?i ?m !! _ = _ =>
              rewrite (proj2 (alter_none_iff f i h m) Hr0) in Hr
          end. discriminate. }
      destruct (Hw h r0 Hr0) as (data & Hd).
      destruct (alter_some _ _ _ _ _ _ Hr0 Hr) as [-> | ->];
        exists data; exact Hd.
Qed.

(** X17. Whatever uploads and worker turns follow, every ContentRecord
    stays what the first accepted upload of its content made it: its
    key is the SHA-256 of a non-empty payload, its size is the length
    of that payload, and its declared pixel count is within the
    50,000,000 ceiling (0 x 0 for an image above it). *)
Theorem content_records_wellformed (dec : PIL.decoder) (t : tools)
    (evs : list event) (w : world) :
  metadata_wellformed (db w) ->
  metadata_wellformed (db (run dec t evs w)).
Proof.
  revert w. induction evs as [|ev evs IH]; intros w Hw; [exact Hw|].
  simpl. apply IH. apply step_content_wellformed. exact Hw.
Qed.

(** X17 on the sample history, from the empty service: the record of
    the first picture. *)
Lemma content_records_wellformed_witness :
  exists (r : metadata_row) (data : list byte),
    metadata (db Samples.after_history)
      !! Hashlib.sha256_hexdigest (HeaderDecoder.png 10 10) = Some r /\
    data <> [] /\
    size_bytes r = Z.of_nat (List.length data) /\
    width r * height r <= 50000000.
Proof.
  assert (H0 : metadata_wellformed (db initial)).
  { intros h r Hh. simpl in Hh. rewrite lookup_empty in Hh. discriminate Hh. }
  pose proof (content_records_wellformed HeaderDecoder.dec Samples.tools
                Samples.history initial H0) as H.
  destruct (metadata (db Samples.after_history)
              !! Hashlib.sha256_hexdigest (HeaderDecoder.png 10 10))
    as [r|] eqn:Hr.
  - destruct (H _ r Hr) as (data & Hne & _ & Hsize & Hpix).
    exists r, data. repeat split; assumption.
  - vm_compute in Hr. discriminate Hr.
Defined.

(** *** What the statistics count *)

Lemma count_app {A : Type} (p : A -> bool) (l k : list A) :
  Stats.count p (l ++ k) = Stats.count p l + Stats.count p k.
Proof.
  unfold Stats.count. rewrite List.filter_app, length_app. lia.
Qed.

Lemma count_Permutation {A : Type} (p : A -> bool) (l k : list A) :
  l ≡ₚ k -> Stats.count p l = Stats.count p k.
Proof.
  unfold Stats.count. intros H. f_equal.
  induction H as [|x l k _ IH|x y l|l k m _ IH1 _ IH2]; simpl.
  - reflexivity.
  - destruct (p x); simpl; rewrite IH; reflexivity.
  - destruct (p x), (p y); reflexivity.
  - rewrite IH1. exact IH2.
Qed.

Lemma count_rows_insert (p : stats_row -> bool) (i : string) (x : stats_row)
    (m : gmap string stats_row) :
  m !! i = None ->
  Stats.count p (List.map snd (map_to_list (<[i := x]> m)))
    = (if p x then 1 else 0) + Stats.count p (List.map snd (map_to_list m)).
Proof.
  intros Hi.
  rewrite (count_Permutation p _ (List.map snd ((i, x) :: map_to_list m)))
    by (apply Permutation_map, map_to_list_insert, Hi).
  unfold Stats.count. simpl. destruct (p x); simpl; lia.
Qed.

Lemma count_rows_alter (p : stats_row -> bool) (f : stats_row -> stats_row)
    (i : string) (m : gmap string stats_row) :
  (forall r, m !! i = Some r -> p (f r) = p r) ->
  Stats.count p (List.map snd (map_to_list (alter f i m)))
    = Stats.count p (List.map snd (map_to_list m)).
Proof.
  intros Hp. destruct (m !! i) as [r|] eqn:Hr.
  2:{ rewrite alter_id' by exact Hr. reflexivity. }
  specialize (Hp r eq_refl).
  assert (Ha : alter f i m !! i = Some (f r))
    by (rewrite lookup_alter_eq, Hr; reflexivity).
  rewrite <- (count_Permutation p _ _
                (Permutation_map snd (map_to_list_delete _ _ _ Ha))).
  rewrite <- (count_Permutation p _ _
                (Permutation_map snd (map_to_list_delete _ _ _ Hr))).
  rewrite delete_alter. destruct (decide (i = i)) as [_|Hne]; [|congruence].
  unfold Stats.count. simpl. rewrite Hp. destruct (p r); reflexivity.
Qed.

Lemma size_alter {A : Type} (f : A -> A) (i : string) (m : gmap string A) :
  size (alter f i m) = size m.
Proof.
  destruct (m !! i) as [r|] eqn:Hr.
  2:{ rewrite alter_id' by exact Hr. reflexivity. }
  assert (Ha : alter f i m !! i = Some (f r))
    by (rewrite lookup_alter_eq, Hr; reflexivity).
  rewrite <- !length_map_to_list.
  rewrite <- (Permutation_length (map_to_list_delete _ _ _ Ha)).
  rewrite <- (Permutation_length (map_to_list_delete _ _ _ Hr)).
  rewrite delete_alter. destruct (decide (i = i)) as [_|Hne]; [|congruence].
  reflexivity.
Qed.

Lemma run_job_queue (t : tools) (clock : Z) (j : job) (w : world) :
  queue (fst (run_job t clock j w)) = queue w.
Proof.
  destruct j as [h x|h x|h x i]; simpl.
  - unfold run_thumbnail_job.
    destruct (with_file w x (generateThumbnail t)) as [[small medium]|]; reflexivity.
  - unfold run_exif_job. destruct (with_file w x (extractExif t)); reflexivity.
  - unfold run_caption_job. destruct (with_file w x (extractCaption t)); reflexivity.
Qed.

Lemma work_queue (t : tools) (clock : Z) (n : nat) (w : world) (j : job) :
  j ∈ queue (work t clock n w) -> j ∈ queue w.
Proof.
  unfold work. destruct (queue w !! n) as [j0|]; [|auto].
  rewrite run_job_queue. simpl. intros Hj.
  apply elem_of_app in Hj. destruct Hj as [Hj|Hj].
  - exact (subseteq_take _ _ _ Hj).
  - exact (subseteq_drop _ _ _ Hj).
Qed.

Lemma step_captions_for_accepted (dec : PIL.decoder) (t : tools) (ev : event)
    (w : world) :
  consistent (db w) ->
  match ev with
  | Upload e _ => images (db w) !! uuid4_hex e = None
  | Work _ _ => True
  end ->
  captions_for_accepted w ->
  captions_for_accepted (step dec t w ev).
Proof.
  intros Hc Hid Hq h p i Hj. destruct ev as [e file|clock n].
  - pose proof (fresh_in_stats _ _ Hc Hid) as Hs.
    assert (Hold : forall i, (exists r, stats (db w) !! i = Some r /\ status r = 1) ->
              forall x, exists r,
                <[uuid4_hex e := x]> (stats (db w)) !! i = Some r /\ status r = 1).
    { intros i0 (r & Hr & Hst) x. exists r. split; [|exact Hst].
      rewrite lookup_insert_ne by congruence. exact Hr. }
    simpl in Hj |- *.
    destruct (upload_img_fresh_cases dec e file w Hc Hid)
      as [(code & reason & _ & Hup)|[(ex & fs & Hup)
         |[(v & _ & _ & _ & Hup)|(v & known & _ & _ & _ & Hup)]]];
      rewrite Hup in Hj |- *; simpl in Hj |- *.
    + apply Hold. exact (Hq h p i Hj).
    + exact (Hq h p i Hj).
    + apply elem_of_app in Hj. destruct Hj as [Hj|Hj].
      { apply Hold. exact (Hq h p i Hj). }
      apply subseteq_take in Hj. unfold processing_jobs in Hj.
      repeat (apply elem_of_cons in Hj; destruct Hj as [Hj|Hj]);
        try discriminate Hj; [|apply elem_of_nil in Hj; destruct Hj].
      injection Hj as -> -> ->.
      rewrite lookup_insert_eq. eexists. split; reflexivity.
    + apply Hold. exact (Hq h p i Hj).
  - simpl in Hj |- *. apply work_queue in Hj.
    destruct (Hq h p i Hj) as (r & Hr & Hst).
    destruct (work_stats t clock n w) as [->|(h' & p' & i' & text & _ & _ & ->)].
    + exists r. split; assumption.
    + destruct (decide (i' = i)) as [->|Hne].
      * rewrite lookup_alter_eq, Hr. simpl. eexists. split; reflexivity.
      * rewrite lookup_alter_ne by exact Hne. exists r. split; assumption.
Qed.

Lemma step_total (dec : PIL.decoder) (t : tools) (ev : event) (w : world) :
  Stats.total (Stats.get_stats_db (db (step dec t w ev)))
    = Stats.total (Stats.get_stats_db (db w))
      + Stats.count is_ok (responses dec t [ev] w).
Proof.
  unfold Stats.get_stats_db, Stats.rows_of, Stats.get_stats, Stats.total.
  rewrite !length_map, !length_map_to_list.
  destruct ev as [e file|clock n]; simpl.
  - upload_leaves dec e file w; unfold Stats.count; simpl;
      rewrite ?map_size_insert_None by assumption; lia.
  - unfold Stats.count. simpl.
    destruct (work_stats t clock n w) as [->|(h & p & i & text & _ & _ & ->)];
      [lia|].
    rewrite size_alter. lia.
Qed.

Lemma step_failed (dec : PIL.decoder) (t : tools) (ev : event) (w : world) :
  consistent (db w) ->
  match ev with
  | Upload e _ => images (db w) !! uuid4_hex e = None
  | Work _ _ => True
  end ->
  captions_for_accepted w ->
  Stats.failed (Stats.get_stats_db (db (step dec t w ev)))
    = Stats.failed (Stats.get_stats_db (db w))
      + Stats.count rejected (responses dec t [ev] w).
Proof.
  intros Hc Hid Hq.
  unfold Stats.get_stats_db, Stats.rows_of, Stats.get_stats, Stats.failed.
  destruct ev as [e file|clock n]; simpl.
  - pose proof (fresh_in_stats _ _ Hc Hid) as Hs.
    destruct (upload_img_fresh_cases dec e file w Hc Hid)
      as [(code & reason & _ & Hup)|[(ex & fs & Hup)
         |[(v & _ & _ & _ & Hup)|(v & known & _ & _ & _ & Hup)]]];
      rewrite Hup; simpl; rewrite ?count_rows_insert by exact Hs;
      unfold Stats.count; simpl; lia.
  - destruct (work_stats t clock n w) as [->|(h & p & i & text & Hj & _ & ->)];
      [unfold Stats.count at 3; simpl; lia|].
    rewrite count_rows_alter; [unfold Stats.count at 3; simpl; lia|].
    intros r Hr. apply list_elem_of_lookup_2 in Hj.
    destruct (Hq h p i Hj) as (r' & Hr' & Hst).
    rewrite Hr in Hr'. injection Hr' as <-. simpl. rewrite Hst. reflexivity.
Qed.

Lemma responses_cons (dec : PIL.decoder) (t : tools) (ev : event)
    (evs : list event) (w : world) :
  responses dec t (ev :: evs) w
    = responses dec t [ev] w ++ responses dec t evs (step dec t w ev).
Proof. simpl. rewrite app_nil_r. reflexivity. Qed.

Lemma run_failed (dec : PIL.decoder) (t : tools) (evs : list event) (w : world) :
  consistent (db w) ->
  captions_for_accepted w ->
  ids_fresh dec t evs w ->
  Stats.failed (Stats.get_stats_db (db (run dec t evs w)))
    = Stats.failed (Stats.get_stats_db (db w))
      + Stats.count rejected (responses dec t evs w).
Proof.
  revert w. induction evs as [|ev evs IH]; intros w Hc Hq Hfresh.
  { simpl. unfold Stats.count. simpl. lia. }
  destruct Hfresh as [Hid Hfresh].
  change (run dec t (ev :: evs) w) with (run dec t evs (step dec t w ev)).
  rewrite IH, responses_cons, count_app;
    [ | apply step_consistent; exact Hc
      | apply step_captions_for_accepted; assumption
      | exact Hfresh ].
  rewrite step_failed by assumption. lia.
Qed.

(** X18. What [GET /api/stats] counts after any history of uploads and
    worker turns on a new service: [total] is the number of upload
    calls that were answered (accepted or rejected; a call that raised
    is not counted), whatever the jobs did; and, when [uuid4] never
    repeats an identifier, [failed] is the number of uploads answered
    with a failed item: no job ever turns a rejected upload into a
    success or an accepted one into a failure. *)
Theorem stats_count_the_uploads (dec : PIL.decoder) (t : tools)
    (evs : list event) :
  let rep := Stats.get_stats_db (db (run dec t evs initial)) in
  Stats.total rep = Stats.count is_ok (responses dec t evs initial) /\
  (ids_fresh dec t evs initial ->
   Stats.failed rep = Stats.count rejected (responses dec t evs initial)).
Proof.
  split.
  - cut (forall w, Stats.total (Stats.get_stats_db (db (run dec t evs w)))
                   = Stats.total (Stats.get_stats_db (db w))
                     + Stats.count is_ok (responses dec t evs w)).
    { intros H. rewrite H. vm_compute Stats.total. lia. }
    induction evs as [|ev evs IH]; intros w.
    + simpl. unfold Stats.count. simpl. lia.
    + change (run dec t (ev :: evs) w) with (run dec t evs (step dec t w ev)).
      rewrite IH, responses_cons, count_app, step_total. lia.
  - intros Hfresh. rewrite run_failed; [vm_compute Stats.failed; lia | | | exact Hfresh].
    + exact consistent_empty.
    + intros h p i Hj. apply elem_of_nil in Hj. destruct Hj.
Qed.

(** X18 on the sample history: four answered uploads, one of them
    rejected. *)
Lemma stats_count_the_uploads_witness :
  Stats.total (Stats.get_stats_db (db Samples.after_history)) = 4 /\
  Stats.failed (Stats.get_stats_db (db Samples.after_history)) = 1.
Proof.
  destruct (stats_count_the_uploads HeaderDecoder.dec Samples.tools Samples.history)
    as [Htotal Hfailed].
  split.
  - unfold Samples.after_history. rewrite Htotal. vm_compute. reflexivity.
  - unfold Samples.after_history. rewrite Hfailed; [vm_compute; reflexivity|].
    simpl. repeat split; vm_compute; reflexivity.
Defined.

End HistoryExtras.

(** ** app/utils/exifparser.py *)

Section ExifExtras.

Import Exif.

(** Induction on a value, with the values inside a list, a tuple or a
    dict as smaller ones. *)
Lemma value_induction (P : value -> Prop) :
  (forall b, P (VBytes b)) ->
  (forall s, P (VStr s)) ->
  (forall n, P (VInt n)) ->
  (forall x, P (VFloat x)) ->
  (forall b, P (VBool b)) ->
  P VNone ->
  (forall l, Forall P l -> P (VList l)) ->
  (forall l, Forall P l -> P (VTuple l)) ->
  (forall items, Forall (fun kv => P (snd kv)) items -> P (VDict items)) ->
  (forall s, P (VOther s)) ->
  forall v, P v.
Proof.
  intros Hbytes Hstr Hint Hfloat Hbool Hnone Hlist Htuple Hdict Hother.
  fix IH 1.
  intros [b|s|n|x|b| |l|l|items|s];
    [ apply Hbytes | apply Hstr | apply Hint | apply Hfloat | apply Hbool
    | exact Hnone | | | | apply Hother ].
  - apply Hlist. induction l as [|v l IHl]; constructor; [apply IH | exact IHl].
  - apply Htuple. induction l as [|v l IHl]; constructor; [apply IH | exact IHl].
  - apply Hdict. induction items as [|[k v] items IHl]; constructor;
      [apply IH | exact IHl].
Qed.

Lemma existsb_eqb_elem_of (k : string) (l : list string) :
  existsb (String.eqb k) l = true <-> k ∈ l.
Proof.
  induction l as [|x l IH]; simpl.
  - rewrite elem_of_nil. split; [discriminate | tauto].
  - rewrite orb_true_iff, elem_of_cons, IH, String.eqb_eq. reflexivity.
Qed.

Lemma keys_unique_NoDup (l : list string) : keys_unique l = true <-> NoDup l.
Proof.
  induction l as [|x l IH]; simpl.
  - split; [intros _; apply NoDup_nil_2 | reflexivity].
  - rewrite andb_true_iff, negb_true_iff, NoDup_cons, IH.
    rewrite <- not_true_iff_false, existsb_eqb_elem_of. reflexivity.
Qed.

(** [d[k] = v]: the keys of [d], with [k] at the end if it is new; the
    values of [d] and [v]. *)
Lemma setitem_fresh (k : string) (v : value) (d : list (string * value)) :
  k ∉ List.map fst d -> setitem k v d = d ++ [(k, v)].
Proof.
  induction d as [|[k' v'] d IH]; simpl; intros Hk; [reflexivity|].
  rewrite not_elem_of_cons in Hk. destruct Hk as [Hne Hk].
  destruct (String.eqb_spec k k') as [->|_]; [congruence|].
  rewrite IH by exact Hk. reflexivity.
Qed.

Lemma setitem_keys (k : string) (v : value) (d : list (string * value)) (x : string) :
  x ∈ List.map fst (setitem k v d) <-> x = k \/ x ∈ List.map fst d.
Proof.
  induction d as [|[k' v'] d IH]; simpl.
  - rewrite elem_of_cons, elem_of_nil. tauto.
  - destruct (String.eqb_spec k k') as [->|Hne]; simpl.
    + rewrite !elem_of_cons. tauto.
    + rewrite !elem_of_cons, IH. tauto.
Qed.

Lemma setitem_NoDup (k : string) (v : value) (d : list (string * value)) :
  NoDup (List.map fst d) -> NoDup (List.map fst (setitem k v d)).
Proof.
  induction d as [|[k' v'] d IH]; simpl; intros Hnd.
  - apply NoDup_cons. split; [apply not_elem_of_nil | apply NoDup_nil_2].
  - apply NoDup_cons in Hnd. destruct Hnd as [Hk' Hnd].
    destruct (String.eqb_spec k k') as [->|Hne]; simpl.
    + apply NoDup_cons. split; assumption.
    + apply NoDup_cons. split; [|apply IH, Hnd].
      rewrite setitem_keys. intros [->|Hin]; [congruence | exact (Hk' Hin)].
Qed.

Lemma setitem_values (Q : value -> Prop) (k : string) (v : value)
    (d : list (string * value)) :
  Q v -> Forall (fun kv => Q (snd kv)) d ->
  Forall (fun kv => Q (snd kv)) (setitem k v d).
Proof.
  intros Hv. induction d as [|[k' v'] d IH]; simpl; intros Hd.
  - constructor; [exact Hv | constructor].
  - apply Forall_cons in Hd. destruct Hd as [Hv' Hd].
    destruct (String.eqb k k'); constructor; auto.
Qed.

(** A dict built by assignments, from a dict without repeated keys:
    no key is repeated, its keys are the old ones and the assigned
    ones, and its values are among the old and the assigned ones. *)
Lemma assignments (A : Type) (key : A -> string) (val : A -> value)
    (Q : value -> Prop) (items : list A) (d : list (string * value)) :
  let d' := List.fold_left (fun d x => setitem (key x) (val x) d) items d in
  NoDup (List.map fst d) ->
  Forall (fun kv => Q (snd kv)) d ->
  Forall (fun x => Q (val x)) items ->
  NoDup (List.map fst d') /\
  Forall (fun kv => Q (snd kv)) d' /\
  (forall k, k ∈ List.map fst d' <->
             k ∈ List.map fst d \/ exists x, x ∈ items /\ key x = k).
Proof.
  revert d. induction items as [|x items IH]; intros d d' Hnd Hd Hitems.
  - split; [exact Hnd|]. split; [exact Hd|].
    intros k. split; [auto|]. intros [H|(x & Hx & _)]; [exact H|].
    apply elem_of_nil in Hx. destruct Hx.
  - apply Forall_cons in Hitems. destruct Hitems as [Hx Hitems].
    destruct (IH (setitem (key x) (val x) d)
                (setitem_NoDup _ _ _ Hnd)
                (setitem_values Q _ _ _ Hx Hd) Hitems) as (H1 & H2 & H3).
    split; [exact H1|]. split; [exact H2|].
    intros k. subst d'. simpl. rewrite H3, setitem_keys. split.
    + intros [[->|H]|(y & Hy & Hk)]; [right; exists x|left; exact H|right; exists y];
        rewrite ?elem_of_cons; auto.
    + intros [H|(y & Hy & Hk)]; [left; right; exact H|].
      apply elem_of_cons in Hy. destruct Hy as [->|Hy]; [left; left; auto|].
      right. exists y. auto.
Qed.

(** Assigning the items of a dict without repeated keys to an empty
    dict gives the same dict. *)
Lemma dict_of_unique (items d : list (string * value)) :
  NoDup (List.map fst (d ++ items)) ->
  List.fold_left (fun d kv => setitem (fst kv) (snd kv) d) items d = d ++ items.
Proof.
  revert d. induction items as [|[k v] items IH]; intros d Hnd; simpl.
  - rewrite app_nil_r. reflexivity.
  - assert (Hk : k ∉ List.map fst d).
    { rewrite map_app in Hnd. apply NoDup_app in Hnd.
      destruct Hnd as (_ & Hdis & _). intros Hin. apply (Hdis k Hin).
      simpl. apply elem_of_cons. left. reflexivity. }
    rewrite setitem_fresh by exact Hk.
    rewrite IH; rewrite <- app_assoc; [reflexivity | exact Hnd].
Qed.

Lemma plain_as_dict (d : list (string * value)) :
  plain (as_dict d) = true <->
  NoDup (List.map fst d) /\ Forall (fun kv => plain (snd kv) = true) d.
Proof.
  unfold as_dict. simpl. rewrite andb_true_iff, keys_unique_NoDup.
  rewrite List.map_map. simpl. rewrite forallb_forall, Forall_forall.
  split; intros [Hnd Hall]; (split; [exact Hnd|]).
  - intros kv Hin. apply list_elem_of_In in Hin.
    apply (Hall (KStr (fst kv), snd kv)). apply in_map_iff. exists kv.
    split; [reflexivity | exact Hin].
  - intros kv Hin. apply in_map_iff in Hin. destruct Hin as (x & <- & Hin).
    simpl. apply Hall. apply list_elem_of_In. exact Hin.
Qed.

(** [_json_safe] returns a plain value and leaves a plain value as it
    is. *)
Lemma json_safe_plain (v : value) :
  plain (_json_safe v) = true /\ (plain v = true -> _json_safe v = v).
Proof.
  revert v.
  apply value_induction; try (simpl; split; [reflexivity | auto; discriminate]).
  - intros l IH. simpl. split.
    + apply forallb_forall. intros x Hx. apply in_map_iff in Hx.
      destruct Hx as (y & <- & Hy). rewrite Forall_forall in IH.
      apply IH, list_elem_of_In, Hy.
    + intros Hl. f_equal. induction IH as [|x l [_ Hx] _ IHl]; [reflexivity|].
      simpl in Hl |- *. apply andb_true_iff in Hl. destruct Hl as [Hpx Hl].
      rewrite (Hx Hpx), (IHl Hl). reflexivity.
  - intros l IH. simpl. split; [|discriminate].
    apply forallb_forall. intros x Hx. apply in_map_iff in Hx.
    destruct Hx as (y & <- & Hy). rewrite Forall_forall in IH.
    apply IH, list_elem_of_In, Hy.
  - intros items IH. simpl. unfold dict_of. split.
    + apply plain_as_dict.
      destruct (assignments (string * value) fst snd (fun v => plain v = true)
                  (List.map (fun kv => (str_key (fst kv), _json_safe (snd kv))) items)
                  []) as (Hnd & Hall & _).
      * apply NoDup_nil_2.
      * constructor.
      * apply Forall_forall. intros x Hx. apply list_elem_of_In, in_map_iff in Hx.
        destruct Hx as (y & <- & Hy). simpl. rewrite Forall_forall in IH.
        apply IH, list_elem_of_In, Hy.
      * split; assumption.
    + intros Hp. apply andb_true_iff in Hp. destruct Hp as [Hkeys Hvals].
      apply keys_unique_NoDup in Hkeys.
      assert (Hmap : List.map (fun kv => (str_key (fst kv), _json_safe (snd kv))) items
                     = List.map (fun kv => (str_key (fst kv), snd kv)) items).
      { clear Hkeys. induction IH as [|[k x] l [_ Hx] _ IHl]; [reflexivity|].
        simpl in Hvals |- *. apply andb_true_iff in Hvals. destruct Hvals as [Hpx Hl].
        destruct k as [s|n|s]; try discriminate Hpx. simpl in Hx.
        rewrite (Hx Hpx), (IHl Hl). reflexivity. }
      rewrite Hmap, dict_of_unique.
      2:{ simpl. rewrite List.map_map. simpl. exact Hkeys. }
      simpl. unfold as_dict. rewrite List.map_map. simpl. f_equal.
      clear Hkeys Hmap IH. induction items as [|[k x] l IHl]; [reflexivity|].
      simpl in Hvals |- *. apply andb_true_iff in Hvals. destruct Hvals as [Hpx Hl].
      destruct k as [s|n|s]; try discriminate Hpx. simpl.
      rewrite (IHl Hl). reflexivity.
Qed.

(** X19. Whatever the EXIF value, [_json_safe] returns a value made of
    strings, numbers, booleans, [None], lists and dicts with string
    keys only, none twice: something [json.dumps] serialises. It
    leaves such a value as it is, so applying it twice is the same as
    applying it once. *)
Theorem json_safe_is_plain (v : value) :
  plain (_json_safe v) = true /\
  (plain v = true -> _json_safe v = v) /\
  _json_safe (_json_safe v) = _json_safe v.
Proof.
  destruct (json_safe_plain v) as [H1 H2].
  split; [exact H1|]. split; [exact H2|].
  apply (json_safe_plain (_json_safe v)). exact H1.
Qed.

(** X19 on a GPS-like dict with an integer key, a tuple and bytes. *)
Lemma json_safe_is_plain_witness :
  let v := VDict [ (KInt 1, VStr "N"); (KInt 2, VTuple [VInt 51; VOther "30/1"]);
                   (KStr "1", VBytes ["x"%byte]) ] in
  _json_safe v
    = VDict [ (KStr "1", VStr "78"); (KStr "2", VList [VInt 51; VStr "30/1"]) ] /\
  plain (_json_safe v) = true /\
  _json_safe (_json_safe v) = _json_safe v.
Proof.
  intros v. split; [vm_compute; reflexivity|].
  destruct (json_safe_is_plain v) as (Hplain & Hfix & Hidem).
  split; [exact Hplain | exact Hidem].
Defined.

(** One item of [exif.items()] is one assignment [out[name] = value]
    of a plain value. *)
Lemma exif_entry_assigns (TAGS GPSTAGS : gmap Z string) :
  exists val : Z * value -> value,
    (forall item, plain (val item) = true) /\
    forall out item,
      exif_entry TAGS GPSTAGS out item = setitem (tag_name TAGS (fst item)) (val item) out.
Proof.
  exists (fun item =>
            match snd item with
            | VDict items =>
                if String.eqb (tag_name TAGS (fst item)) "GPSInfo" then
                  as_dict
                    (List.fold_left
                       (fun gps kv =>
                          setitem (gps_name GPSTAGS (fst kv)) (_json_safe (snd kv)) gps)
                       items [])
                else _json_safe (snd item)
            | _ => _json_safe (snd item)
            end).
  split.
  - intros [tag_id v]. simpl.
    destruct v as [b|s|n|x|b| |l|l|items|s]; try apply json_safe_plain.
    destruct (String.eqb _ _); [|apply json_safe_plain].
    apply plain_as_dict.
    destruct (assignments (key * value) (fun kv => gps_name GPSTAGS (fst kv))
                (fun kv => _json_safe (snd kv)) (fun v => plain v = true) items [])
      as (Hnd & Hall & _).
    + apply NoDup_nil_2.
    + constructor.
    + apply Forall_forall. intros kv _. apply json_safe_plain.
    + split; assumption.
  - intros out [tag_id v]. simpl.
    destruct v as [b|s|n|x|b| |l|l|items|s]; try reflexivity.
    destruct (String.eqb_spec (tag_name TAGS tag_id) "GPSInfo") as [->|_]; reflexivity.
Qed.

(** X20. [extractExif] answers "{}" for an image without EXIF data
    and never calls [json.dumps] then. Otherwise it serialises one
    dict, which [json.dumps] accepts: its keys are exactly the names of
    the tags present (the name from [TAGS], or the decimal tag number
    for a tag the table does not know), none of them twice, and every
    value, the GPS block included, is made of strings, numbers,
    booleans, [None], lists and string-keyed dicts. *)
Theorem extractExif_serialises_plain_dict (TAGS GPSTAGS : gmap Z string)
    (dumps : value -> string) (exif : list (Z * value)) :
  let out := exif_dict TAGS GPSTAGS exif in
  extractExif TAGS GPSTAGS dumps [] = "{}" /\
  (exif <> [] -> extractExif TAGS GPSTAGS dumps exif = dumps (as_dict out)) /\
  plain (as_dict out) = true /\
  (forall k, k ∈ List.map fst out <->
             exists item, item ∈ exif /\ tag_name TAGS (fst item) = k).
Proof.
  intros out. split; [reflexivity|].
  split; [intros Hne; destruct exif as [|item exif]; [congruence | reflexivity]|].
  destruct (exif_entry_assigns TAGS GPSTAGS) as (val & Hplain & Hentry).
  assert (Hfold : out = List.fold_left
                          (fun d item => setitem (tag_name TAGS (fst item)) (val item) d)
                          exif []).
  { unfold out, exif_dict. generalize (@nil (string * value)).
    clear out. induction exif as [|item exif IH]; intros d; [reflexivity|].
    simpl. rewrite Hentry. apply IH. }
  destruct (assignments (Z * value) (fun item => tag_name TAGS (fst item)) val
              (fun v => plain v = true) exif [])
    as (Hnd & Hall & Hkeys).
  { apply NoDup_nil_2. }
  { constructor. }
  { apply Forall_forall. intros item _. apply Hplain. }
  rewrite <- Hfold in Hnd, Hall, Hkeys.
  split; [apply plain_as_dict; split; assumption|].
  intros k. rewrite Hkeys. simpl. rewrite elem_of_nil. tauto.
Qed.

(** X20 on an image with a maker, an unknown tag and a GPS block. *)
Lemma extractExif_serialises_plain_dict_witness :
  let TAGS : gmap Z string := <[271 := "Make"]> (<[34853 := "GPSInfo"]> ∅) in
  let GPSTAGS : gmap Z string := <[1 := "GPSLatitudeRef"]> ∅ in
  let exif := [ (271, VStr "ACME"); (59932, VBytes ["x"%byte]);
                (34853, VDict [(KInt 1, VStr "N"); (KInt 2, VTuple [VInt 51])]) ] in
  exif_dict TAGS GPSTAGS exif
    = [ ("Make", VStr "ACME"); ("59932", VStr "78");
        ("GPSInfo", VDict [ (KStr "GPSLatitudeRef", VStr "N");
                            (KStr "2", VList [VInt 51]) ]) ] /\
  plain (as_dict (exif_dict TAGS GPSTAGS exif)) = true /\
  extractExif TAGS GPSTAGS (fun _ => "json") exif = "json".
Proof.
  intros TAGS GPSTAGS exif. split; [vm_compute; reflexivity|].
  destruct (extractExif_serialises_plain_dict TAGS GPSTAGS (fun _ => "json") exif)
    as (_ & Hdumps & Hplain & _).
  split; [exact Hplain|]. apply Hdumps. discriminate.
Defined.

End ExifExtras.
